(** * CTRXplorer: the filesystem layer (source/fs.cpp)

    A shallow embedding of the functions of [fs.cpp] and of the small part of
    the platform they run on (files, directories, the heap, the pad and the
    progress screen), followed by the properties of the windowed data
    provider, of the recursive copy, of the dummy-file generator and of the
    directory listing.

    Machine integers are values of [Z] with the wrap-around of their width
    written out ([u8], [u32], [u64]); byte buffers are lists of [Z];
    [std::string] is [string]. *)

From Stdlib Require Import ZArith List Lia Bool String Ascii Permutation Sorted.
Import ListNotations.
Open Scope Z_scope.

(* ================================================================= *)
(** ** Machine words *)

Definition u8 (x : Z) : Z := x mod 2 ^ 8.
Definition u32 (x : Z) : Z := x mod 2 ^ 32.
Definition u64 (x : Z) : Z := x mod 2 ^ 64.

(** [#define CTRX_BUFSIZ (4 * 1024 * 1024)] *)
Definition CTRX_BUFSIZ : Z := 4 * 1024 * 1024.

(* ================================================================= *)
(** ** Files and byte buffers *)

(** The content of a regular file: its size and the byte stored at each
    position below the size.  Positions are not bounded by what a list can
    hold, a file may be close to 4 GiB long. *)
Record FileData := { f_size : Z; f_byte : Z -> Z }.

Definition seqZ (start len : Z) : list Z :=
  map (fun i => start + Z.of_nat i) (seq 0 (Z.to_nat len)).

Definition file_of_list (l : list Z) : FileData :=
  {| f_size := Z.of_nat (List.length l);
     f_byte := fun i => nth (Z.to_nat i) l 0 |}.

Definition file_bytes (f : FileData) : list Z :=
  map (f_byte f) (seqZ 0 (f_size f)).

Definition empty_file : FileData := {| f_size := 0; f_byte := fun _ => 0 |}.

(** What [fwrite] on a stream positioned at the end leaves in the file. *)
Definition f_append (f : FileData) (data : list Z) : FileData :=
  {| f_size := f_size f + Z.of_nat (List.length data);
     f_byte := fun i => if i <? f_size f then f_byte f i
                        else nth (Z.to_nat (i - f_size f)) data 0 |}.

(** The bytes one [fread(_, 1, n, fp)] delivers with the stream at [pos]:
    at most [n], and none at or past the end of the file. *)
Definition fread_at (f : FileData) (pos n : Z) : list Z :=
  map (f_byte f) (seqZ pos (Z.min n (f_size f - pos))).

(** Overwrite [buf] from index [dst] on with [src]. *)
Definition blit (buf : list Z) (dst : Z) (src : list Z) : list Z :=
  firstn (Z.to_nat dst) buf ++ src
    ++ skipn (Z.to_nat dst + List.length src) buf.

(** [memmove(buf + dst, buf + src, n)] *)
Definition memmove (buf : list Z) (dst src n : Z) : list Z :=
  blit buf dst (firstn (Z.to_nat n) (skipn (Z.to_nat src) buf)).

(** [memset(buf + dst, v, n)] *)
Definition memset (buf : list Z) (dst v n : Z) : list Z :=
  blit buf dst (repeat (u8 v) (Z.to_nat n)).

(** [fseek(fp, pos, SEEK_SET); fread(buf + dst, 1, n, fp)]: a short read
    leaves the rest of the buffer as it was. *)
Definition fread (buf : list Z) (dst n : Z) (f : FileData) (pos : Z) : list Z :=
  blit buf dst (fread_at f pos n).

(** The window of [n] bytes of the file at [o], zero past the end: what the
    specification says the buffer holds. *)
Definition byte_or_zero (f : FileData) (i : Z) : Z :=
  if (0 <=? i) && (i <? f_size f) then f_byte f i else 0.

Definition window (f : FileData) (o n : Z) : list Z :=
  map (byte_or_zero f) (seqZ o n).

(* ================================================================= *)
(** ** The platform: file tree, heap, pad, screen *)

Inductive Errno :=
| E_NONE | ENOENT | EEXIST | ENOTSUP | ECANCELED | ENOTDIR | EISDIR.

Inductive Node :=
| NFile (data : FileData)
| NDir (names : list string).   (* what readdir reports, in its order *)

(** Bindings from canonical paths (no trailing slash) to nodes.  A path is
    a name here: a component [.] or [..] is not resolved, and a path is
    looked up with its trailing slashes taken off, that of a regular file
    too.  The tree stands for the platform on the paths the functions meet
    in practice: made of the names the directory streams report, other than
    [.] and [..], and without a slash after the name of a file.  The
    properties that depend on it say so in their hypotheses. *)
Definition FS := list (string * Node).

Fixpoint lookup (fs : FS) (p : string) : option Node :=
  match fs with
  | [] => None
  | (k, n) :: rest => if String.eqb k p then Some n else lookup rest p
  end.

Fixpoint update (fs : FS) (p : string) (n : Node) : FS :=
  match fs with
  | [] => [(p, n)]
  | (k, m) :: rest =>
      if String.eqb k p then (k, n) :: rest else (k, m) :: update rest p n
  end.

(** A path without its trailing slashes. *)
Fixpoint canon (s : string) : string :=
  match s with
  | EmptyString => EmptyString
  | String c r =>
      match canon r with
      | EmptyString => if Ascii.eqb c "/" then EmptyString else String c EmptyString
      | r' => String c r'
      end
  end.

(** Split at the last slash. *)
Fixpoint rsplit (s : string) : option (string * string) :=
  match s with
  | EmptyString => None
  | String c r =>
      match rsplit r with
      | Some (d, b) => Some (String c d, b)
      | None => if Ascii.eqb c "/" then Some (EmptyString, r) else None
      end
  end.

Definition parent_of (p : string) : string * string :=
  match rsplit (canon p) with
  | Some (d, b) => (canon d, b)
  | None => (EmptyString, canon p)
  end.

(** One call of [uiDisplayProgress]: the operation, the path whose truncation
    is shown, and the percentage. *)
Record Shown := { sh_operation : string; sh_path : string; sh_progress : Z }.

Record World := {
  w_fs : FS;
  w_free : Z;                 (* bytes the volume can still take *)
  w_heap : Z;                 (* largest block the allocator can serve *)
  w_errno : Errno;
  w_junk : Z;                 (* what an uninitialised [st.st_size] holds *)
  w_prevProgress : Z;         (* [static u32 prevProgress] of fsShowProgress *)
  w_pad : list bool;          (* B pressed?, one answer per hid::poll *)
  w_screen : list Shown;      (* uiDisplayProgress calls, oldest first *)
  w_calls : list (Z * Z);     (* (pos, totalSize) of each fsShowProgress call *)
  w_opens : list string       (* paths of the successful fopen calls *)
}.

Definition set_fs (v : FS) (w : World) : World :=
  {| w_fs := v; w_free := w_free w; w_heap := w_heap w; w_errno := w_errno w;
     w_junk := w_junk w; w_prevProgress := w_prevProgress w; w_pad := w_pad w;
     w_screen := w_screen w; w_calls := w_calls w; w_opens := w_opens w |}.

Definition set_free (v : Z) (w : World) : World :=
  {| w_fs := w_fs w; w_free := v; w_heap := w_heap w; w_errno := w_errno w;
     w_junk := w_junk w; w_prevProgress := w_prevProgress w; w_pad := w_pad w;
     w_screen := w_screen w; w_calls := w_calls w; w_opens := w_opens w |}.

Definition set_errno (v : Errno) (w : World) : World :=
  {| w_fs := w_fs w; w_free := w_free w; w_heap := w_heap w; w_errno := v;
     w_junk := w_junk w; w_prevProgress := w_prevProgress w; w_pad := w_pad w;
     w_screen := w_screen w; w_calls := w_calls w; w_opens := w_opens w |}.

Definition set_prevProgress (v : Z) (w : World) : World :=
  {| w_fs := w_fs w; w_free := w_free w; w_heap := w_heap w; w_errno := w_errno w;
     w_junk := w_junk w; w_prevProgress := v; w_pad := w_pad w;
     w_screen := w_screen w; w_calls := w_calls w; w_opens := w_opens w |}.

Definition set_pad (v : list bool) (w : World) : World :=
  {| w_fs := w_fs w; w_free := w_free w; w_heap := w_heap w; w_errno := w_errno w;
     w_junk := w_junk w; w_prevProgress := w_prevProgress w; w_pad := v;
     w_screen := w_screen w; w_calls := w_calls w; w_opens := w_opens w |}.

Definition set_screen (v : list Shown) (w : World) : World :=
  {| w_fs := w_fs w; w_free := w_free w; w_heap := w_heap w; w_errno := w_errno w;
     w_junk := w_junk w; w_prevProgress := w_prevProgress w; w_pad := w_pad w;
     w_screen := v; w_calls := w_calls w; w_opens := w_opens w |}.

Definition set_calls (v : list (Z * Z)) (w : World) : World :=
  {| w_fs := w_fs w; w_free := w_free w; w_heap := w_heap w; w_errno := w_errno w;
     w_junk := w_junk w; w_prevProgress := w_prevProgress w; w_pad := w_pad w;
     w_screen := w_screen w; w_calls := v; w_opens := w_opens w |}.

Definition set_opens (v : list string) (w : World) : World :=
  {| w_fs := w_fs w; w_free := w_free w; w_heap := w_heap w; w_errno := w_errno w;
     w_junk := w_junk w; w_prevProgress := w_prevProgress w; w_pad := w_pad w;
     w_screen := w_screen w; w_calls := w_calls w; w_opens := v |}.

(** [static u32 prevProgress = -1;] *)
Definition prevProgress_init : Z := u32 (-1).

(** The process as it starts, on a given file tree. *)
Definition boot (fs : FS) (free heap junk : Z) (pad : list bool) : World :=
  {| w_fs := fs; w_free := free; w_heap := heap; w_errno := E_NONE;
     w_junk := junk; w_prevProgress := prevProgress_init; w_pad := pad;
     w_screen := []; w_calls := []; w_opens := [] |}.

(** *** Calls of the C library *)

(** [fopen(path, "r")] and [fopen(path, "rb")]: the stream reads the content
    the file has when it is opened. *)
Definition fopen_r (w : World) (path : string) : option FileData * World :=
  match lookup (w_fs w) (canon path) with
  | Some (NFile d) => (Some d, set_opens (w_opens w ++ [path]) w)
  | Some (NDir _) => (None, set_errno EISDIR w)
  | None => (None, set_errno ENOENT w)
  end.

(** [opendir(path)], read to the end with [readdir], then closed. *)
Definition opendir (w : World) (path : string) : option (list string) * World :=
  match lookup (w_fs w) (canon path) with
  | Some (NDir names) => (Some names, w)
  | Some (NFile _) => (None, set_errno ENOTDIR w)
  | None => (None, set_errno ENOENT w)
  end.

(** [stat(path, &st)], for the one field the code reads: [Some st_size]
    when the call fills [st]. *)
Definition stat (w : World) (path : string) : option Z * World :=
  match lookup (w_fs w) (canon path) with
  | Some (NFile d) => (Some (f_size d), w)
  | Some (NDir _) => (Some 0, w)
  | None => (None, set_errno ENOENT w)
  end.

(** Bind a new node and list it in its parent directory. *)
Definition link (w : World) (path : string) (n : Node) : option World :=
  let (dir, base) := parent_of path in
  match lookup (w_fs w) dir with
  | Some (NDir names) =>
      Some (set_fs (update (update (w_fs w) dir (NDir (names ++ [base])))
                           (canon path) n) w)
  | _ => None
  end.

(** [mkdir(path, 0777)]: 0 on success.  The stream of the new directory
    reports nothing; a platform whose streams report [.] and [..] would
    list the two. *)
Definition mkdir (w : World) (path : string) : Z * World :=
  match lookup (w_fs w) (canon path) with
  | Some _ => (-1, set_errno EEXIST w)
  | None =>
      match link w path (NDir []) with
      | Some w' => (0, w')
      | None => (-1, set_errno ENOENT w)
      end
  end.

(** [fopen(path, "wb")]: creates the file, or empties it. *)
Definition fopen_w (w : World) (path : string) : bool * World :=
  match lookup (w_fs w) (canon path) with
  | Some (NDir _) => (false, set_errno EISDIR w)
  | Some (NFile _) =>
      (true, set_opens (w_opens w ++ [path])
               (set_fs (update (w_fs w) (canon path) (NFile empty_file)) w))
  | None =>
      match link w path (NFile empty_file) with
      | Some w' => (true, set_opens (w_opens w ++ [path]) w')
      | None => (false, set_errno ENOENT w)
      end
  end.

(** [fwrite(data, 1, n, fd)] on the stream opened on [path].  The stream
    is buffered: it takes the [n] bytes and returns [n].  The bytes reach
    the file when the stream is flushed, at the latest by [fclose], as far
    as the volume has room; what the volume cannot take is lost there, and
    only the result of [fclose] tells, which fs.cpp does not test.  The
    bytes are put into the file at once here: no function of fs.cpp reads
    a file while it writes it, and each closes its stream before it
    returns.  (A stream may pass a block as large as its own buffer
    straight to the volume and return a short count.  The properties below
    either give the volume room for all that is written, or do not depend
    on the count; the one that shows a short volume going unnoticed writes
    8 bytes.) *)
Definition fwrite (w : World) (path : string) (data : list Z) : Z * World :=
  match lookup (w_fs w) (canon path) with
  | Some (NFile d) =>
      let n := Z.max 0 (Z.min (Z.of_nat (List.length data)) (w_free w)) in
      let d' := f_append d (firstn (Z.to_nat n) data) in
      (Z.of_nat (List.length data),
       set_free (w_free w - n)
         (set_fs (update (w_fs w) (canon path) (NFile d')) w))
  | _ => (0, w)
  end.

(** [malloc(n) != NULL] *)
Definition malloc (w : World) (n : Z) : bool := n <=? w_heap w.

(** [calloc(n, 1)] *)
Definition calloc (w : World) (n : Z) : option (list Z) :=
  if n <=? w_heap w then Some (repeat 0 (Z.to_nat n)) else None.

(** [hid::poll(); hid::pressed(hid::BUTTON_B)] *)
Definition hid_poll_pressed_B (w : World) : bool * World :=
  match w_pad w with
  | [] => (false, w)
  | b :: rest => (b, set_pad rest w)
  end.

(* ================================================================= *)
(** ** fs.cpp *)

(** *** Strings *)

(** [tolower] of the C locale, on the code of a character. *)
Definition tolower (c : ascii) : Z :=
  let n := Z.of_N (N_of_ascii c) in
  if (65 <=? n) && (n <=? 90) then n + 32 else n.

Definition c_head (s : string) : Z :=
  match s with
  | EmptyString => 0
  | String c _ => tolower c
  end.

(** [strcasecmp(s1.c_str(), s2.c_str())]: the difference of the first pair
    of lowered characters that differ, 0 when the end is reached first. *)
Fixpoint strcasecmp (s1 s2 : string) : Z :=
  match s1, s2 with
  | String a r1, String b r2 =>
      let d := tolower a - tolower b in
      if negb (d =? 0) || (tolower b =? 0) then d else strcasecmp r1 r2
  | _, _ => c_head s1 - c_head s2
  end.

(** [hay.find(needle)]: [None] is [std::string::npos]. *)
Fixpoint find (needle hay : string) : option nat :=
  if String.prefix needle hay then Some 0%nat
  else match hay with
       | EmptyString => None
       | String _ rest => option_map S (find needle rest)
       end.

Definition is_npos (r : option nat) : bool :=
  match r with None => true | Some _ => false end.

(** [s.size() != 0 && s[s.size() - 1] == '/'] *)
Definition hasSlash (s : string) : bool :=
  negb (String.length s =? 0)%nat
  && match String.get (String.length s - 1) s with
     | Some c => Ascii.eqb c "/"
     | None => false
     end.

(** *** Directory entries *)

Record FileInfo := { fi_path : string; fi_name : string }.

Record FileInfoEx := { fx_path : string; fx_name : string; fx_isDirectory : bool }.

Definition fsAlphabetizeFoldersFiles (a b : FileInfoEx) : bool :=
  if Bool.eqb (fx_isDirectory a) (fx_isDirectory b)
  then strcasecmp (fx_name a) (fx_name b) <? 0
  else fx_isDirectory a.

(** *** Progress *)

(** The quotient is that of [Z], which is 0 for a divisor 0; that no call
    passes a [totalSize] of 0 is shown below. *)
Definition fsShowProgress (w : World) (operationStr pathStr : string)
    (pos totalSize : Z) : bool * World :=
  let w := set_calls (w_calls w ++ [(pos, totalSize)]) w in
  let progress := u32 (u64 (pos * 100) / totalSize) in
  let w :=
    if negb (w_prevProgress w =? progress)
    then set_screen
           (w_screen w ++ [{| sh_operation := operationStr; sh_path := pathStr;
                              sh_progress := progress |}])
           (set_prevProgress progress w)
    else w in
  let (pressed, w) := hid_poll_pressed_B w in
  (negb pressed, w).

(** *** Queries *)

Definition fsIsDirectory (w : World) (path : string) : bool * World :=
  match opendir w path with
  | (Some _, w) => (true, w)
  | (None, w) => (false, w)
  end.

Definition fsExists (w : World) (path : string) : bool * World :=
  match fopen_r w path with
  | (Some _, w) => (true, w)
  | (None, w) => fsIsDirectory w path
  end.

(** [st] is not initialised and the result of [stat] is not looked at. *)
Definition fsGetFileSize (w : World) (path : string) : Z * World :=
  let st_size := w_junk w in
  let (filled, w) := stat w path in
  let st_size := match filled with Some s => s | None => st_size end in
  (u32 st_size, w).

(** *** The windowed data provider *)

Inductive Event :=
| EvRead (pos count : Z)                (* fseek to [pos], fread of [count] *)
| EvUpdate (offset : Z) (data : list Z) (* onUpdate(buffer), with the offset then *)
| EvLoop (offset : Z).                  (* onLoop(offset) *)

Record Stream := { s_offset : Z; s_offsetPrev : Z; s_buffer : list Z }.

(** The body of [if((offset != offsetPrev) && (offset <= fileSize))] up to
    [offsetPrev = offset]: the new buffer and the read that was issued. *)
Definition refresh (fp : FileData) (fileSize buffSize offset offsetPrev : Z)
    (buffer : list Z) : list Z * Event :=
  if offset <? offsetPrev then
    let dataEnd := u32 (offset + buffSize) in
    let overlap := if dataEnd >? offsetPrev then u32 (dataEnd - offsetPrev) else 0 in
    let buffer := memmove buffer (buffSize - overlap) 0 overlap in
    (fread buffer 0 (u32 (buffSize - overlap)) fp offset,
     EvRead offset (u32 (buffSize - overlap)))
  else
    let dataEnd := u32 (offset + buffSize) in
    let dataEndPrev := u32 (offsetPrev + buffSize) in
    let overlap := if dataEndPrev >? offset then u32 (dataEndPrev - offset) else 0 in
    let buffer := memmove buffer 0 (buffSize - overlap) overlap in
    let buffer :=
      if dataEnd >? fileSize
      then memset buffer overlap 0 (u32 (buffSize - overlap))
      else buffer in
    (fread buffer overlap (u32 (buffSize - overlap)) fp (u32 (offset + overlap)),
     EvRead (u32 (offset + overlap)) (u32 (buffSize - overlap))).

Section Provider.

(** The state the two closures capture. *)
Context {C : Type}.
(** [onLoop(offset)] may assign the offset it is given by reference. *)
Variable onLoop : C -> Z -> C * Z * bool.
(** [onUpdate(buffer)] reads the buffer. *)
Variable onUpdate : C -> list Z -> C * bool.
Variable fp : FileData.
Variables fileSize buffSize : Z.

(** One turn of the [while] body: [result], the closures' state, the
    stream, and what happened. *)
Definition iteration (c : C) (s : Stream) : bool * C * Stream * list Event :=
  let offset := s_offset s in
  let offsetPrev := s_offsetPrev s in
  if negb (offset =? offsetPrev) && (offset <=? fileSize) then
    let (buffer, rd) := refresh fp fileSize buffSize offset offsetPrev (s_buffer s) in
    let (c', done) := onUpdate c buffer in
    (done, c',
     {| s_offset := offset; s_offsetPrev := offset; s_buffer := buffer |},
     [rd; EvUpdate offset buffer])
  else if offset >? fileSize then
    (false, c,
     {| s_offset := fileSize; s_offsetPrev := offsetPrev; s_buffer := s_buffer s |},
     [])
  else
    let '(c', offset', done) := onLoop c offset in
    (done, c',
     {| s_offset := u32 offset'; s_offsetPrev := offsetPrev; s_buffer := s_buffer s |},
     [EvLoop offset]).

(** [while(core::running()) { ...; if(result) break; }] where
    [core::running()] answers true [running] times. *)
Fixpoint provider_loop (running : nat) (c : C) (s : Stream)
    : bool * C * list Event :=
  match running with
  | O => (false, c, [])
  | S n =>
      let '(result, c', s', evs) := iteration c s in
      if result then (true, c', evs)
      else let '(r, c'', rest) := provider_loop n c' s' in (r, c'', evs ++ rest)
  end.

End Provider.

(** A [std::function] argument: [None] is the empty function, which compares
    equal to [NULL]. *)
Definition fsDataProvider {C : Type} (w : World) (path : string)
    (offset buffSize : Z)
    (onLoop : option (C -> Z -> C * Z * bool))
    (onUpdate : option (C -> list Z -> C * bool))
    (c : C) (running : nat) : bool * C * World * list Event :=
  match onLoop, onUpdate with
  | Some onLoop, Some onUpdate =>
      let (found, w) := fsExists w path in
      if negb found then (false, c, set_errno ENOENT w, [])
      else
        let (fp, w) := fopen_r w path in
        let buffer := calloc w buffSize in
        let (fileSize, w) := fsGetFileSize w path in
        let offsetPrev := u32 (-1) in
        match fp, buffer with
        | Some fp, Some buffer =>
            let '(result, c', evs) :=
              provider_loop onLoop onUpdate fp fileSize buffSize running c
                {| s_offset := offset; s_offsetPrev := offsetPrev;
                   s_buffer := buffer |} in
            (result, c', w, evs)
        | _, _ => (false, c, w, [])
        end
  | _, _ => (false, c, set_errno ENOTSUP w, [])
  end.

(** *** Listing *)

(** [{dirWithSlash + d_name, d_name}] for every entry of the stream. *)
Definition fsGetDirectoryContents (w : World) (directory : string)
    : list FileInfo * World :=
  let dirWithSlash := if hasSlash directory then directory else (directory ++ "/")%string in
  match opendir w dirWithSlash with
  | (None, w) => ([], w)
  | (Some names, w) =>
      (map (fun name => {| fi_path := (dirWithSlash ++ name)%string; fi_name := name |}) names, w)
  end.

(** The [while(true)] over [readdir] of fsGetDirectoryContentsEx. *)
Fixpoint probe_entries (w : World) (dirWithSlash : string) (names : list string)
    : list FileInfoEx * World :=
  match names with
  | [] => ([], w)
  | name :: rest =>
      if negb (String.eqb name ".") && negb (String.eqb name "..") then
        let path := (dirWithSlash ++ name)%string in
        let (isDirectory, w) := fsIsDirectory w path in
        let (result, w) := probe_entries w dirWithSlash rest in
        ({| fx_path := path; fx_name := name; fx_isDirectory := isDirectory |}
           :: result, w)
      else probe_entries w dirWithSlash rest
  end.

(** [std::sort(first, last, comp)] belongs to the C++ library: it is an
    argument here, and its contract is stated where it is used. *)
Definition Sorter : Type :=
  (FileInfoEx -> FileInfoEx -> bool) -> list FileInfoEx -> list FileInfoEx.

Definition fsGetDirectoryContentsEx (std_sort : Sorter) (w : World)
    (directory : string) : list FileInfoEx * World :=
  let dirWithSlash := if hasSlash directory then directory else (directory ++ "/")%string in
  match opendir w dirWithSlash with
  | (None, w) => ([], w)
  | (Some names, w) =>
      let (result, w) := probe_entries w dirWithSlash names in
      (std_sort fsAlphabetizeFoldersFiles result, w)
  end.

(** *** Copy *)

(** The [while((size = fread(...)) > 0)] of the file case.  Every turn
    consumes at least one byte of the source, so [turns] beyond its size
    are never used up.  Result: [ret], [pos] and the world. *)
Fixpoint copy_loop (turns : nat) (w : World) (path dest : string)
    (showProgress : bool) (fp : FileData) (rpos l_bufsiz pos total : Z)
    : bool * Z * World :=
  match turns with
  | O => (true, pos, w)
  | S turns' =>
      let data := fread_at fp rpos l_bufsiz in
      let size := Z.of_nat (List.length data) in
      if size >? 0 then
        let (written, w) := fwrite w dest data in
        let pos := u64 (pos + written) in
        let (go, w) :=
          if showProgress then fsShowProgress w "Copying" path pos total
          else (true, w) in
        if negb go then (false, pos, set_errno ECANCELED w)
        else copy_loop turns' w path dest showProgress fp (rpos + size)
               l_bufsiz pos total
      else (true, pos, w)
  end.

(** [for(it = contents.begin(); ...) if(!fsPathCopy(it->path, dest + "/" +
    it->name, showProgress)) return false;  return true;] with the recursive
    call as an argument. *)
Fixpoint copy_children
    (copy : World -> string -> string -> bool -> option bool * World)
    (dest : string) (showProgress : bool) (contents : list FileInfo)
    (w : World) : option bool * World :=
  match contents with
  | [] => (Some true, w)
  | it :: rest =>
      match copy w (fi_path it) (dest ++ "/" ++ fi_name it)%string showProgress with
      | (Some true, w) => copy_children copy dest showProgress rest w
      | (r, w) => (r, w)
      end
  end.

(** [depth] bounds the nesting of the recursive calls; [None] is a tree
    deeper than that. *)
Fixpoint fsPathCopy (depth : nat) (w : World) (path dest : string)
    (showProgress : bool) : option bool * World :=
  match depth with
  | O => (None, w)
  | S depth' =>
      let (found, w) := fsExists w dest in
      if found then (Some false, set_errno EEXIST w)
      else
        let (go, w) :=
          if showProgress then fsShowProgress w "Copying" path 0 1
          else (true, w) in
        if negb go then (Some false, set_errno ECANCELED w)
        else
          let (isDir, w) := fsIsDirectory w path in
          if isDir then
            if negb (is_npos (find (path ++ "/")%string dest))
            then (Some false, set_errno ENOTSUP w)
            else
              let (rc, w) := mkdir w dest in
              if negb (rc =? 0) then (Some false, w)
              else
                let (go, w) :=
                  if showProgress then fsShowProgress w "Copying" path 1 2
                  else (true, w) in
                if negb go then (Some false, set_errno ECANCELED w)
                else
                  let (contents, w) := fsGetDirectoryContents w path in
                  copy_children (fsPathCopy depth') dest showProgress contents w
          else
            let (total, w) := fsGetFileSize w path in
            let l_bufsiz := if total <? CTRX_BUFSIZ then total else CTRX_BUFSIZ in
            let buffer := malloc w l_bufsiz in
            let (fp, w) := fopen_r w path in
            let (fd, w) := fopen_w w dest in
            match fp with
            | Some fp =>
                if fd && buffer then
                  let '(ret, pos, w) :=
                    copy_loop (S (Z.to_nat (f_size fp))) w path dest
                      showProgress fp 0 l_bufsiz 0 total in
                  (Some (ret && (pos =? total)), w)
                else (Some true, w)
            | None => (Some true, w)
            end
  end.

(** *** Dummy files *)

(** [for(count = 0; count < l_bufsiz; count++, byte += inc) buffer[count] = byte;] *)
Fixpoint fill_progression (n : nat) (byte inc : Z) : list Z :=
  match n with
  | O => []
  | S n' => byte :: fill_progression n' (u8 (byte + inc)) inc
  end.

(** [for(count = 0; count < size; count += l_bufsiz)]: every turn advances
    [count] by at least one byte, so [turns] beyond [size] are never used up.
    Result: [pos] and the world. *)
Fixpoint write_loop (turns : nat) (w : World) (path : string)
    (buffer : list Z) (showProgress : bool) (size count l_bufsiz pos : Z)
    : Z * World :=
  match turns with
  | O => (pos, w)
  | S turns' =>
      if count <? size then
        let l_bufsiz := if size - count <? l_bufsiz then size - count else l_bufsiz in
        let (written, w) := fwrite w path (firstn (Z.to_nat l_bufsiz) buffer) in
        let pos := u64 (pos + written) in
        let (go, w) :=
          if showProgress then fsShowProgress w "Generating" path pos size
          else (true, w) in
        if negb go then (pos, set_errno ECANCELED w)
        else write_loop turns' w path buffer showProgress size
               (u64 (count + l_bufsiz)) l_bufsiz pos
      else (pos, w)
  end.

Definition fsCreateDummyFile (w : World) (path : string) (size content : Z)
    (showProgress : bool) : bool * World :=
  let (found, w) := fsExists w path in
  if found then (false, set_errno EEXIST w)
  else
    let showProgress := if size <? CTRX_BUFSIZ then false else showProgress in
    let w :=
      if showProgress then snd (fsShowProgress w "Generating" path 0 1) else w in
    let l_bufsiz := if size <? CTRX_BUFSIZ then size else CTRX_BUFSIZ in
    let allocated := malloc w l_bufsiz in
    let (fp, w) := fopen_w w path in
    if fp && allocated then
      let buffer :=
        if negb (Z.land content 0xFF00 =? 0) then
          let byte := Z.land content 0xFF in
          let inc := Z.land (Z.shiftr content 8) 0xFF in
          fill_progression (Z.to_nat l_bufsiz) byte inc
        else repeat (u8 content) (Z.to_nat l_bufsiz) in
      let (pos, w) :=
        write_loop (S (Z.to_nat size)) w path buffer showProgress
          size 0 l_bufsiz 0 in
      (pos =? size, w)
    else (false, w).

(* ================================================================= *)
(** ** Vocabulary of the properties *)

(** Buffers read through an index in [Z]. *)
Definition bget (l : list Z) (i : Z) : Z := nth (Z.to_nat i) l 0.
Definition blen (l : list Z) : Z := Z.of_nat (List.length l).

(** The buffers [onUpdate] received, each with the offset it was filled
    for. *)
Definition delivered (evs : list Event) : list (Z * list Z) :=
  flat_map (fun e => match e with
                     | EvUpdate o data => [(o, data)]
                     | _ => []
                     end) evs.

(** What the stream holds between two turns of the loop: nothing yet (the
    sentinel and the zeroes of [calloc]), or the window at [offsetPrev]. *)
Definition stream_ok (f : FileData) (W : Z) (s : Stream) : Prop :=
  (s_offsetPrev s = u32 (-1) /\ s_buffer s = repeat 0 (Z.to_nat W))
  \/ (0 <= s_offsetPrev s <= f_size f /\ s_offsetPrev s + W < 2 ^ 32
      /\ s_buffer s = window f (s_offsetPrev s) W).

(** A client that seeks to each offset of a list in turn and then asks to
    stop; it never stops from [onUpdate]. *)
Definition seek_onLoop (c : list Z) (offset : Z) : list Z * Z * bool :=
  match c with
  | [] => ([], offset, true)
  | k :: rest => (rest, k, false)
  end.

Definition watch_onUpdate (c : list Z) (data : list Z) : list Z * bool :=
  (c, false).

(** A file of the given size none of whose bytes is zero. *)
Definition pattern_file (size : Z) : FileData :=
  {| f_size := size; f_byte := fun i => i mod 251 + 1 |}.

(** A volume with one regular file in its root directory. *)
Definition one_file (name : string) (f : FileData) : World :=
  boot [(EmptyString, NDir [name]); (String "/" name, NFile f)]
       1000 1000 0 [].

(** An event that agrees with the window invariant. *)
Definition ev_window (f : FileData) (W : Z) (e : Event) : Prop :=
  match e with
  | EvUpdate o data => data = window f o W
  | _ => True
  end.

(** Every call of [fsShowProgress] so far had a positive [totalSize]. *)
Definition calls_positive (w : World) : Prop :=
  Forall (fun call => 0 < snd call) (w_calls w).

(** [needle] occurs somewhere in [hay]. *)
Definition contains (needle hay : string) : Prop :=
  exists u v, hay = (u ++ needle ++ v)%string.

(** The string ends in a slash. *)
Definition ends_in_slash (s : string) : Prop := exists d, s = (d ++ "/")%string.

(** A name as a directory stream reports it: not empty, no slash in it. *)
Definition good_name (name : string) : Prop :=
  name <> EmptyString /\ ~ contains "/" name.

(** Every directory of the tree lists such names only. *)
Definition named_plainly (w : World) : Prop :=
  forall key names,
    lookup (w_fs w) key = Some (NDir names) -> Forall good_name names.

Definition good_nameb (name : string) : bool :=
  negb (String.eqb name EmptyString) && is_npos (find "/" name).

Definition named_plainlyb (fs : FS) : bool :=
  forallb (fun kn => match snd kn with
                     | NDir names => forallb good_nameb names
                     | NFile _ => true
                     end) fs.

(** The path names something. *)
Definition bound (path : string) (w : World) : Prop :=
  lookup (w_fs w) (canon path) <> None.

(** A tree to run the operations on: a directory [/d] with two directories
    and two files, listed as [readdir] might, and a file [/f.bin]. *)
Definition sample_fs : FS :=
  [ (EmptyString, NDir ["d"; "f.bin"]%string);
    ("/d"%string, NDir ["."; ".."; "b.txt"; "A"; "a.txt"; "B"]%string);
    ("/d/A"%string, NDir []);
    ("/d/B"%string, NDir []);
    ("/d/b.txt"%string, NFile (file_of_list [1; 2; 3]));
    ("/d/a.txt"%string, NFile (file_of_list [4; 5]));
    ("/f.bin"%string, NFile (file_of_list (seqZ 1 20))) ].

Definition sample (pad : list bool) : World := boot sample_fs 1000 1000 7 pad.

(** The world with earlier history put in front of its three logs. *)
Definition with_history (s : list Shown) (c : list (Z * Z)) (o : list string)
    (w : World) : World :=
  set_screen (s ++ w_screen w) (set_calls (c ++ w_calls w)
    (set_opens (o ++ w_opens w) w)).

(** A report some earlier operation displayed. *)
Definition earlier_report : Shown :=
  {| sh_operation := "Copying"; sh_path := "/old"; sh_progress := 71 |}.

(** The world with its logs emptied. *)
Definition blank (w : World) : World :=
  set_screen [] (set_calls [] (set_opens [] w)).

(** Two worlds in which an operation finds the same to work on: the same
    file tree, the same room on the volume and on the heap, the same
    answers of the pad, and the same [prevProgress].  They may differ in
    everything else earlier calls have left: [errno], the stale stack slot,
    what was displayed, and the logs. *)
Definition same_inputs (w1 w2 : World) : Prop :=
  w_fs w1 = w_fs w2 /\ w_free w1 = w_free w2 /\ w_heap w1 = w_heap w2
  /\ w_pad w1 = w_pad w2 /\ w_prevProgress w1 = w_prevProgress w2.

(** The same, and the same on the screen and in the logs. *)
Definition alike (w1 w2 : World) : Prop :=
  same_inputs w1 w2
  /\ w_screen w1 = w_screen w2 /\ w_calls w1 = w_calls w2
  /\ w_opens w1 = w_opens w2.

(** The progress reports displayed between [w] and a later world [w']. *)
Definition reports_between (w w' : World) : list Shown :=
  skipn (List.length (w_screen w)) (w_screen w').

(** The regular file a path names. *)
Definition file_at (w : World) (path : string) : option FileData :=
  match lookup (w_fs w) (canon path) with
  | Some (NFile d) => Some d
  | _ => None
  end.


(** What the standard asks of the comparator given to [std::sort]: a strict
    weak ordering. *)
Definition strict_weak (comp : FileInfoEx -> FileInfoEx -> bool) : Prop :=
  (forall a, comp a a = false)
  /\ (forall a b c, comp a b = true -> comp b c = true -> comp a c = true)
  /\ (forall a b c, comp a b = false -> comp b c = false -> comp a c = false).

(** What the standard promises of [std::sort] in return: the same elements,
    and no element that [comp] puts before one of its predecessors. *)
Definition sorts (std_sort : Sorter) : Prop :=
  forall comp l,
    strict_weak comp ->
    Permutation (std_sort comp l) l
    /\ StronglySorted (fun a b => comp b a = false) (std_sort comp l).

(** One sort that keeps the promise. *)
Fixpoint insert_sorted (comp : FileInfoEx -> FileInfoEx -> bool)
    (x : FileInfoEx) (l : list FileInfoEx) : list FileInfoEx :=
  match l with
  | [] => [x]
  | y :: rest => if comp x y then x :: y :: rest
                 else y :: insert_sorted comp x rest
  end.

Definition insertion_sort : Sorter :=
  fun comp l => fold_right (insert_sorted comp) [] l.

(** [name != "." && name != ".."] *)
Definition not_dots (name : string) : bool :=
  negb (String.eqb name ".") && negb (String.eqb name "..").

(** The path names a directory. *)
Definition is_dir_in (fs : FS) (path : string) : bool :=
  match lookup fs (canon path) with
  | Some (NDir _) => true
  | _ => false
  end.

(** The entry fsGetDirectoryContentsEx builds for a name. *)
Definition entry_of (fs : FS) (dirWithSlash name : string) : FileInfoEx :=
  {| fx_path := (dirWithSlash ++ name)%string; fx_name := name;
     fx_isDirectory := is_dir_in fs (dirWithSlash ++ name)%string |}.

(** [a] stands somewhere before [b] in [l]. *)
Definition before (a b : FileInfoEx) (l : list FileInfoEx) : Prop :=
  exists l1 l2 l3, l = l1 ++ a :: l2 ++ b :: l3.

(** [hasSlash ? directory : directory + "/"] *)
Definition dir_with_slash (directory : string) : string :=
  if hasSlash directory then directory else (directory ++ "/")%string.

(* ================================================================= *)
(** ** fs.cpp, the other functions *)

(** *** More calls of the platform *)

(** All bindings of a key taken out. *)
Definition remove_key (fs : FS) (p : string) : FS :=
  filter (fun kn => negb (String.eqb (fst kn) p)) fs.

(** Take a node out of the tree and its name out of its directory. *)
Definition unlink_node (w : World) (path : string) : World :=
  let (dir, base) := parent_of path in
  let fs1 := remove_key (w_fs w) (canon path) in
  match lookup fs1 dir with
  | Some (NDir names) =>
      set_fs (update fs1 dir
                (NDir (filter (fun n => negb (String.eqb n base)) names))) w
  | _ => set_fs fs1 w
  end.

(** [remove(path)]: 0 on success; regular files only, whose bytes go back
    to the volume. *)
Definition remove (w : World) (path : string) : Z * World :=
  match lookup (w_fs w) (canon path) with
  | Some (NFile d) =>
      (0, set_free (w_free w + f_size d) (unlink_node w path))
  | Some (NDir _) => (-1, set_errno EISDIR w)
  | None => (-1, set_errno ENOENT w)
  end.

Definition is_dots (name : string) : bool :=
  String.eqb name "." || String.eqb name "..".

(** [rmdir(path)]: 0 on success; the directory must have no entry but [.]
    and [..]. *)
Definition rmdir (w : World) (path : string) : Z * World :=
  match lookup (w_fs w) (canon path) with
  | Some (NDir names) =>
      if forallb is_dots names then (0, unlink_node w path)
      else (-1, set_errno EEXIST w)
  | Some (NFile _) => (-1, set_errno ENOTDIR w)
  | None => (-1, set_errno ENOENT w)
  end.

(** The key of a binding after [src] has become [dst]: the node itself and
    everything below it move. *)
Definition rekey (src dst k : string) : string :=
  if String.eqb k src then dst
  else if String.prefix (src ++ "/") k
       then (dst ++ substring (String.length src)
                      (String.length k - String.length src) k)%string
       else k.

(** [rename(path, dest)]: 0 on success.  The source must exist, the
    destination must not, its directory must, and a directory does not move
    below itself. *)
Definition rename (w : World) (path dest : string) : Z * World :=
  match lookup (w_fs w) (canon path), lookup (w_fs w) (canon dest) with
  | None, _ => (-1, set_errno ENOENT w)
  | Some _, Some _ => (-1, set_errno EEXIST w)
  | Some n, None =>
      if String.prefix (canon path ++ "/") (canon dest)
      then (-1, set_errno ENOTDIR w)
      else
        let (sdir, sbase) := parent_of path in
        let (ddir, dbase) := parent_of dest in
        match lookup (w_fs w) ddir with
        | Some (NDir _) =>
            let fs1 :=
              match lookup (w_fs w) sdir with
              | Some (NDir names) =>
                  update (w_fs w) sdir
                    (NDir (filter (fun n => negb (String.eqb n sbase)) names))
              | _ => w_fs w
              end in
            let fs2 :=
              map (fun kn => (rekey (canon path) (canon dest) (fst kn), snd kn))
                  fs1 in
            let fs3 :=
              match lookup fs2 ddir with
              | Some (NDir names) => update fs2 ddir (NDir (names ++ [dbase]))
              | _ => fs2
              end in
            (0, set_fs fs3 w)
        | _ => (-1, set_errno ENOENT w)
        end
  end.

(** [FSUSER_GetSdmcArchiveResource(&resource)]: the result code and the
    fields of the resource that are read, both 32 bits wide. *)
Record FS_ArchiveResource := { clusterSize : Z; freeClusters : Z }.

(** *** Strings *)

(** [s.rfind(c)]: [None] is [std::string::npos]. *)
Fixpoint rfind (c : ascii) (s : string) : option nat :=
  match s with
  | EmptyString => None
  | String a rest =>
      match rfind c rest with
      | Some i => Some (S i)
      | None => if Ascii.eqb a c then Some 0%nat else None
      end
  end.

(** [s.substr(pos)] for [pos <= s.size()], the only way it is called. *)
Fixpoint substr (pos : nat) (s : string) : string :=
  match pos, s with
  | O, _ => s
  | S p, String _ rest => substr p rest
  | S _, EmptyString => EmptyString
  end.

Definition fsGetFileName (path : string) : string :=
  match rfind "/" path with
  | None => path
  | Some slashPos => substr (slashPos + 1) path
  end.

Definition fsGetExtension (path : string) : string :=
  match rfind "." path with
  | None => EmptyString
  | Some dotPos => substr (dotPos + 1) path
  end.

Definition fsHasExtension (path extension : string) : bool :=
  if (String.length extension =? 0)%nat then true
  else
    let ext := fsGetExtension path in
    strcasecmp ext extension =? 0.

(** The [for] over the vector of fsHasExtensions. *)
Fixpoint any_extension (ext : string) (extensions : list string) : bool :=
  match extensions with
  | [] => false
  | extension :: rest =>
      if strcasecmp ext extension =? 0 then true else any_extension ext rest
  end.

Definition fsHasExtensions (path : string) (extensions : list string) : bool :=
  match extensions with
  | [] => true
  | _ => let ext := fsGetExtension path in any_extension ext extensions
  end.

(** *** Free space *)

(** [query] is what [FSUSER_GetSdmcArchiveResource] answers. *)
Definition fsGetFreeSpace (query : Z * FS_ArchiveResource) : Z :=
  let (res, resource) := query in
  if negb (res =? 0) then 0
  else u64 (u64 (clusterSize resource) * u64 (freeClusters resource)).

(** *** Delete, rename, create *)

(** [for(it ...) if(!fsPathDelete(it->path)) return false;] with the
    recursive call as an argument; [Some true] is the end of the loop. *)
Fixpoint delete_children (del : World -> string -> option bool * World)
    (contents : list FileInfo) (w : World) : option bool * World :=
  match contents with
  | [] => (Some true, w)
  | it :: rest =>
      match del w (fi_path it) with
      | (Some true, w) => delete_children del rest w
      | (r, w) => (r, w)
      end
  end.

(** [depth] bounds the nesting of the recursive calls; [None] is a tree
    deeper than that. *)
Fixpoint fsPathDelete (depth : nat) (w : World) (path : string)
    : option bool * World :=
  match depth with
  | O => (None, w)
  | S depth' =>
      let (isDir, w) := fsIsDirectory w path in
      if isDir then
        let (contents, w) := fsGetDirectoryContents w path in
        match delete_children (fsPathDelete depth') contents w with
        | (Some true, w) =>
            let (rc, w) := rmdir w path in (Some (rc =? 0), w)
        | (r, w) => (r, w)
        end
      else
        let (rc, w) := remove w path in (Some (rc =? 0), w)
  end.

Definition fsPathRename (w : World) (path dest : string) : bool * World :=
  if negb (is_npos (find (path ++ "/")%string dest))
  then (false, set_errno ENOTSUP w)
  else
    let (found, w) := fsExists w dest in
    if found then (false, set_errno EEXIST w)
    else let (rc, w) := rename w path dest in (rc =? 0, w).

Definition fsCreateDir (w : World) (path : string) : bool * World :=
  let (found, w) := fsExists w path in
  if found then (false, set_errno EEXIST w)
  else let (rc, w) := mkdir w path in (rc =? 0, w).

(* ================================================================= *)
(** ** More vocabulary *)

(** The character occurs in the string. *)
Fixpoint has_char (c : ascii) (s : string) : bool :=
  match s with
  | EmptyString => false
  | String a rest => Ascii.eqb a c || has_char c rest
  end.

(** What strcasecmp sees of a string: the lowered characters up to the
    first NUL. *)
Fixpoint c_key (s : string) : list Z :=
  match s with
  | EmptyString => []
  | String a rest => if tolower a =? 0 then [] else tolower a :: c_key rest
  end.

(** The node a path names. *)
Definition node_at (w : World) (path : string) : option Node :=
  lookup (w_fs w) (canon path).

(** [key] is the canonical form of [path] or lies below it. *)
Definition below (path key : string) : Prop :=
  key = canon path \/ exists rest, key = (canon path ++ "/" ++ rest)%string.

(** The key is bound to a regular file with this content. *)
Definition file_is (key : string) (d : FileData) (w : World) : Prop :=
  lookup (w_fs w) key = Some (NFile d).

(** The key is bound to a directory. *)
Definition dir_is (key : string) (w : World) : Prop :=
  exists names, lookup (w_fs w) key = Some (NDir names).

(** A name that is an entry of its own: a good name other than [.] and
    [..]. *)
Definition entry_name (name : string) : Prop :=
  good_name name /\ name <> "."%string /\ name <> ".."%string.

(** No directory stream of the tree reports [.] or [..]: every directory
    lists entries of its own only. *)
Definition lists_no_dots (w : World) : Prop :=
  forall key names,
    lookup (w_fs w) key = Some (NDir names) -> Forall entry_name names.

(** An absolute path made of such names: [/a/b/c]. *)
Definition plain_path (path : string) : Prop :=
  exists components,
    Forall entry_name components
    /\ path = concat EmptyString (map (String "/") components).

Definition entry_nameb (name : string) : bool :=
  good_nameb name && negb (String.eqb name ".") && negb (String.eqb name "..").

Definition lists_no_dotsb (fs : FS) : bool :=
  forallb (fun kn => match snd kn with
                     | NDir names => forallb entry_nameb names
                     | NFile _ => true
                     end) fs.

(** A tree whose streams report no dot entries: a directory [/d] with a
    file and a directory [/d/A] that holds one file, and a file
    [/f.bin]. *)
Definition plain_fs : FS :=
  [ (EmptyString, NDir ["d"; "f.bin"]%string);
    ("/d"%string, NDir ["b.txt"; "A"]%string);
    ("/d/A"%string, NDir ["c.txt"]%string);
    ("/d/A/c.txt"%string, NFile (file_of_list [7; 8]));
    ("/d/b.txt"%string, NFile (file_of_list [1; 2; 3]));
    ("/f.bin"%string, NFile (file_of_list (seqZ 1 20))) ].

Definition plain_sample (pad : list bool) : World :=
  boot plain_fs 1000 1000 7 pad.

(* ================================================================= *)
(** * Properties *)

(** ** Buffers *)

Lemma blen_nonneg l : 0 <= blen l.
Proof. unfold blen; lia. Qed.

Lemma list_ext (l1 l2 : list Z) :
  blen l1 = blen l2 ->
  (forall i, 0 <= i < blen l1 -> bget l1 i = bget l2 i) ->
  l1 = l2.
Proof.
  unfold blen, bget; intros Hlen Hget.
  apply (nth_ext l1 l2 0 0); [lia|].
  intros n Hn. specialize (Hget (Z.of_nat n)).
  rewrite Nat2Z.id in Hget. apply Hget; lia.
Qed.

Lemma length_seqZ s n : List.length (seqZ s n) = Z.to_nat n.
Proof. unfold seqZ. now rewrite length_map, length_seq. Qed.

Lemma blen_seqZ s n : blen (seqZ s n) = Z.max 0 n.
Proof. unfold blen. rewrite length_seqZ. lia. Qed.

Lemma nth_seqZ s n k d :
  (k < Z.to_nat n)%nat -> nth k (seqZ s n) d = s + Z.of_nat k.
Proof.
  intros Hk. unfold seqZ.
  rewrite (nth_indep _ d (s + Z.of_nat 0)) by (rewrite length_map, length_seq; lia).
  rewrite (map_nth (fun i => s + Z.of_nat i)), seq_nth by lia.
  reflexivity.
Qed.

Lemma bget_map_seqZ (g : Z -> Z) s n i :
  0 <= i < n -> bget (map g (seqZ s n)) i = g (s + i).
Proof.
  intros Hi. unfold bget.
  rewrite (nth_indep _ 0 (g 0)) by (rewrite length_map, length_seqZ; lia).
  rewrite map_nth, nth_seqZ by lia. f_equal. lia.
Qed.

Lemma blen_window f o n : blen (window f o n) = Z.max 0 n.
Proof. unfold window, blen. rewrite length_map. apply blen_seqZ. Qed.

Lemma bget_window f o n i :
  0 <= i < n -> bget (window f o n) i = byte_or_zero f (o + i).
Proof. apply bget_map_seqZ. Qed.

Lemma blen_fread_at f pos n :
  blen (fread_at f pos n) = Z.max 0 (Z.min n (f_size f - pos)).
Proof. unfold fread_at, blen. rewrite length_map. apply blen_seqZ. Qed.

Lemma bget_fread_at f pos n i :
  0 <= i < Z.min n (f_size f - pos) ->
  bget (fread_at f pos n) i = f_byte f (pos + i).
Proof. apply bget_map_seqZ. Qed.

Lemma blen_repeat v n : blen (repeat v (Z.to_nat n)) = Z.max 0 n.
Proof. unfold blen. rewrite repeat_length. lia. Qed.

Lemma bget_repeat v n i : 0 <= i < n -> bget (repeat v (Z.to_nat n)) i = v.
Proof.
  intros Hi. unfold bget. apply nth_repeat_lt. lia.
Qed.

Lemma blen_firstn n l : 0 <= n <= blen l -> blen (firstn (Z.to_nat n) l) = n.
Proof. unfold blen. intros H. rewrite length_firstn. lia. Qed.

Lemma bget_firstn n l i :
  0 <= i < n -> bget (firstn (Z.to_nat n) l) i = bget l i.
Proof.
  intros H. unfold bget. rewrite nth_firstn.
  destruct (Nat.ltb_spec (Z.to_nat i) (Z.to_nat n)); [reflexivity | lia].
Qed.

Lemma blen_skipn n l : 0 <= n <= blen l -> blen (skipn (Z.to_nat n) l) = blen l - n.
Proof. unfold blen. intros H. rewrite length_skipn. lia. Qed.

Lemma bget_skipn n l i :
  0 <= n -> 0 <= i -> bget (skipn (Z.to_nat n) l) i = bget l (n + i).
Proof.
  intros Hn Hi. unfold bget. rewrite nth_skipn. f_equal. lia.
Qed.

Lemma blen_app l1 l2 : blen (l1 ++ l2) = blen l1 + blen l2.
Proof. unfold blen. rewrite length_app. lia. Qed.

Lemma bget_app l1 l2 i :
  0 <= i ->
  bget (l1 ++ l2) i = if i <? blen l1 then bget l1 i else bget l2 (i - blen l1).
Proof.
  intros Hi. unfold bget, blen.
  destruct (Z.ltb_spec i (Z.of_nat (List.length l1))).
  - apply app_nth1. lia.
  - rewrite app_nth2 by lia. f_equal. lia.
Qed.

Lemma blen_blit buf dst src :
  0 <= dst -> dst + blen src <= blen buf -> blen (blit buf dst src) = blen buf.
Proof.
  intros Hd Hb. unfold blit. rewrite !blen_app.
  rewrite blen_firstn by (pose proof (blen_nonneg src); lia).
  replace (Z.to_nat dst + List.length src)%nat with (Z.to_nat (dst + blen src))
    by (unfold blen; lia).
  rewrite blen_skipn by (pose proof (blen_nonneg src); lia). lia.
Qed.

Lemma bget_blit buf dst src i :
  0 <= dst -> dst + blen src <= blen buf -> 0 <= i ->
  bget (blit buf dst src) i =
    if (dst <=? i) && (i <? dst + blen src) then bget src (i - dst) else bget buf i.
Proof.
  intros Hd Hb Hi. pose proof (blen_nonneg src) as Hs. unfold blit.
  replace (Z.to_nat dst + List.length src)%nat with (Z.to_nat (dst + blen src))
    by (unfold blen; lia).
  rewrite bget_app by lia. rewrite blen_firstn by lia.
  destruct (Z.ltb_spec i dst).
  - replace (dst <=? i) with false by (symmetry; apply Z.leb_gt; lia).
    simpl. apply bget_firstn; lia.
  - replace (dst <=? i) with true by (symmetry; apply Z.leb_le; lia).
    simpl. rewrite bget_app by lia.
    destruct (Z.ltb_spec (i - dst) (blen src)).
    + replace (i <? dst + blen src) with true by (symmetry; apply Z.ltb_lt; lia).
      reflexivity.
    + replace (i <? dst + blen src) with false by (symmetry; apply Z.ltb_ge; lia).
      rewrite bget_skipn by lia. f_equal. lia.
Qed.

Lemma blen_memmove buf dst src n :
  0 <= dst -> 0 <= src -> 0 <= n -> src + n <= blen buf -> dst + n <= blen buf ->
  blen (memmove buf dst src n) = blen buf.
Proof.
  intros. unfold memmove. apply blen_blit; [lia|].
  rewrite blen_firstn; [lia|]. rewrite blen_skipn; lia.
Qed.

Lemma bget_memmove buf dst src n i :
  0 <= dst -> 0 <= src -> 0 <= n -> src + n <= blen buf -> dst + n <= blen buf ->
  0 <= i ->
  bget (memmove buf dst src n) i =
    if (dst <=? i) && (i <? dst + n) then bget buf (src + (i - dst)) else bget buf i.
Proof.
  intros. unfold memmove.
  assert (Hl : blen (firstn (Z.to_nat n) (skipn (Z.to_nat src) buf)) = n).
  { rewrite blen_firstn; [lia|]. rewrite blen_skipn; lia. }
  rewrite bget_blit by lia. rewrite Hl.
  destruct ((dst <=? i) && (i <? dst + n)) eqn:E; [|reflexivity].
  apply andb_prop in E as [E1 E2]. apply Z.leb_le in E1. apply Z.ltb_lt in E2.
  rewrite bget_firstn by lia. apply bget_skipn; lia.
Qed.

Lemma blen_memset buf dst v n :
  0 <= dst -> 0 <= n -> dst + n <= blen buf -> blen (memset buf dst v n) = blen buf.
Proof.
  intros. unfold memset. apply blen_blit; [lia|]. rewrite blen_repeat. lia.
Qed.

Lemma bget_memset buf dst v n i :
  0 <= dst -> 0 <= n -> dst + n <= blen buf -> 0 <= i ->
  bget (memset buf dst v n) i =
    if (dst <=? i) && (i <? dst + n) then u8 v else bget buf i.
Proof.
  intros. unfold memset.
  rewrite bget_blit by (rewrite ?blen_repeat; lia).
  rewrite blen_repeat, Z.max_r by lia.
  destruct ((dst <=? i) && (i <? dst + n)) eqn:E; [|reflexivity].
  apply andb_prop in E as [E1 E2]. apply Z.leb_le in E1. apply Z.ltb_lt in E2.
  apply bget_repeat. lia.
Qed.

Lemma blen_fread buf dst n f pos :
  0 <= dst -> 0 <= n -> dst + n <= blen buf -> blen (fread buf dst n f pos) = blen buf.
Proof.
  intros. unfold fread. apply blen_blit; [lia|]. rewrite blen_fread_at. lia.
Qed.

Lemma bget_fread buf dst n f pos i :
  0 <= dst -> 0 <= n -> dst + n <= blen buf -> 0 <= i ->
  bget (fread buf dst n f pos) i =
    if (dst <=? i) && (i <? dst + Z.min n (f_size f - pos))
    then f_byte f (pos + (i - dst)) else bget buf i.
Proof.
  intros. unfold fread.
  rewrite bget_blit by (rewrite ?blen_fread_at; lia).
  rewrite blen_fread_at.
  destruct (Z.leb_spec dst i); simpl; [|reflexivity].
  destruct (Z.ltb_spec i (dst + Z.max 0 (Z.min n (f_size f - pos))));
    destruct (Z.ltb_spec i (dst + Z.min n (f_size f - pos))); try lia; try reflexivity.
  apply bget_fread_at. lia.
Qed.

Lemma u32_small x : 0 <= x < 2 ^ 32 -> u32 x = x.
Proof. intros. unfold u32. apply Z.mod_small. lia. Qed.

Lemma u32_minus_one : u32 (-1) = 2 ^ 32 - 1.
Proof. reflexivity. Qed.

Lemma u32_range x : 0 <= u32 x < 2 ^ 32.
Proof. unfold u32. apply Z.mod_pos_bound. lia. Qed.


Ltac split_tests :=
  repeat match goal with
    | |- context [Z.ltb ?a ?b] => destruct (Z.ltb_spec a b)
    | |- context [Z.leb ?a ?b] => destruct (Z.leb_spec a b)
    | |- context [Z.gtb ?a ?b] => rewrite (Z.gtb_ltb a b)
    end; simpl.

(** ** The window refresh *)

(** Without wrap-around in [offset + buffSize], one refresh turns the
    previous window (or the fresh buffer) into the window at [offset]. *)
Lemma refresh_window f W o op buf :
  0 <= W -> 0 <= o <= f_size f -> o + W < 2 ^ 32 -> o <> op ->
  stream_ok f W {| s_offset := o; s_offsetPrev := op; s_buffer := buf |} ->
  fst (refresh f (f_size f) W o op buf) = window f o W.
Proof.
  unfold stream_ok; cbn [s_offsetPrev s_buffer].
  intros HW Ho Hno Hne Hst.
  assert (Hlen : blen buf = W).
  { destruct Hst as [[_ ->]|[_ [_ ->]]];
      [rewrite blen_repeat | rewrite blen_window]; lia. }
  assert (Hop : 0 <= op < 2 ^ 32 /\ (op = 2 ^ 32 - 1 \/ op + W < 2 ^ 32 /\ op <= f_size f)).
  { destruct Hst as [[-> _]|[? [? _]]]; [rewrite u32_minus_one|]; lia. }
  assert (Hbuf : forall j, 0 <= j < W ->
            bget buf j = if op + W <? 2 ^ 32 then byte_or_zero f (op + j) else 0).
  { intros j Hj. destruct Hst as [[-> ->]|[? [? ->]]].
    - rewrite u32_minus_one.
      destruct (Z.ltb_spec (2 ^ 32 - 1 + W) (2 ^ 32)); [lia|].
      apply bget_repeat; lia.
    - rewrite bget_window by lia.
      destruct (Z.ltb_spec (op + W) (2 ^ 32)); [reflexivity | lia]. }
  clear Hst. unfold refresh.
  rewrite (u32_small (o + W)) by lia.
  destruct (Z.ltb_spec o op) as [Hlt|Hge].
  - (* seek backwards, and the first fill *)
    set (overlap := if o + W >? op then u32 (o + W - op) else 0).
    assert (Hov : 0 <= overlap <= W /\ (overlap = 0 \/ op + overlap = o + W)).
    { unfold overlap. rewrite Z.gtb_ltb.
      destruct (Z.ltb_spec op (o + W)); [rewrite u32_small|]; lia. }
    assert (Hfull : overlap = 0 -> o + W <= op).
    { unfold overlap. rewrite Z.gtb_ltb.
      destruct (Z.ltb_spec op (o + W)); [rewrite u32_small|]; lia. }
    clearbody overlap. rewrite (u32_small (W - overlap)) by lia.
    cbn [fst].
    assert (Hm : blen (memmove buf (W - overlap) 0 overlap) = W)
      by (rewrite blen_memmove; lia).
    apply list_ext.
    + rewrite blen_fread, blen_window; lia.
    + rewrite blen_fread by lia. rewrite Hm.
      intros i Hi.
      rewrite bget_fread by lia.
      rewrite bget_memmove, bget_window by lia.
      unfold byte_or_zero.
      split_tests; rewrite ?Hbuf by lia; try reflexivity; try lia;
        unfold byte_or_zero; split_tests; try lia; try reflexivity;
        try (f_equal; lia).
  - (* seek forwards *)
    assert (Hlt : op < o) by lia.
    rewrite (u32_small (op + W)) by lia.
    set (overlap := if op + W >? o then u32 (op + W - o) else 0).
    assert (Hov : 0 <= overlap <= W /\ (overlap = 0 \/ o + overlap = op + W)).
    { unfold overlap. rewrite Z.gtb_ltb.
      destruct (Z.ltb_spec o (op + W)); [rewrite u32_small|]; lia. }
    assert (Hfull : overlap = 0 -> op + W <= o).
    { unfold overlap. rewrite Z.gtb_ltb.
      destruct (Z.ltb_spec o (op + W)); [rewrite u32_small|]; lia. }
    clearbody overlap.
    rewrite (u32_small (W - overlap)), (u32_small (o + overlap)) by lia.
    cbn [fst].
    assert (Hm : blen (memmove buf 0 (W - overlap) overlap) = W)
      by (rewrite blen_memmove; lia).
    assert (Hs : blen (memset (memmove buf 0 (W - overlap) overlap) overlap 0
                         (W - overlap)) = W)
      by (rewrite blen_memset; lia).
    apply list_ext.
    + rewrite blen_fread, blen_window by (destruct (o + W >? f_size f); lia).
      destruct (o + W >? f_size f); lia.
    + rewrite blen_fread by (destruct (o + W >? f_size f); lia).
      intros i Hi.
      assert (Hi' : 0 <= i < W) by (destruct (o + W >? f_size f); lia).
      rewrite bget_fread by (destruct (o + W >? f_size f); lia).
      rewrite bget_window by lia.
      rewrite Z.gtb_ltb.
      destruct (Z.ltb_spec (f_size f) (o + W));
        rewrite ?bget_memset by lia; rewrite bget_memmove by lia;
        unfold byte_or_zero, u8;
        split_tests; rewrite ?Hbuf by lia; try reflexivity; try lia;
        unfold byte_or_zero; split_tests; try lia; try reflexivity;
        try (f_equal; lia).
Qed.

Lemma refresh_reads f g W fileSize buffSize o op buf :
  ev_window g W (snd (refresh f fileSize buffSize o op buf)).
Proof. unfold refresh. destruct (o <? op); exact I. Qed.

(** ** One turn of the loop *)

Section Turns.

Context {C : Type}.
Variable onLoop : C -> Z -> C * Z * bool.
Variable onUpdate : C -> list Z -> C * bool.
Variable fp : FileData.
Variables fileSize buffSize : Z.

Let turn := iteration onLoop onUpdate fp fileSize buffSize.

(** An offset past the end is clamped: nothing is read, no closure is
    called, the buffer and the closures' state are as before. *)
Lemma iteration_clamp c s :
  fileSize < s_offset s ->
  turn c s =
    (false, c,
     {| s_offset := fileSize; s_offsetPrev := s_offsetPrev s;
        s_buffer := s_buffer s |}, []).
Proof.
  intros H. unfold turn, iteration.
  replace (s_offset s <=? fileSize) with false by (symmetry; apply Z.leb_gt; lia).
  rewrite andb_false_r.
  replace (s_offset s >? fileSize) with true by (symmetry; apply Z.gtb_lt; lia).
  reflexivity.
Qed.

Lemma iteration_update c s :
  s_offset s <> s_offsetPrev s -> s_offset s <= fileSize ->
  turn c s =
    (let (buffer, rd) :=
       refresh fp fileSize buffSize (s_offset s) (s_offsetPrev s) (s_buffer s) in
     let (c', done) := onUpdate c buffer in
     (done, c',
      {| s_offset := s_offset s; s_offsetPrev := s_offset s; s_buffer := buffer |},
      [rd; EvUpdate (s_offset s) buffer])).
Proof.
  intros Hne Hle. unfold turn, iteration.
  replace (s_offset s =? s_offsetPrev s) with false by (symmetry; apply Z.eqb_neq; lia).
  replace (s_offset s <=? fileSize) with true by (symmetry; apply Z.leb_le; lia).
  reflexivity.
Qed.

Lemma iteration_idle c s :
  s_offset s = s_offsetPrev s -> s_offset s <= fileSize ->
  turn c s =
    (let '(c', offset', done) := onLoop c (s_offset s) in
     (done, c',
      {| s_offset := u32 offset'; s_offsetPrev := s_offsetPrev s;
         s_buffer := s_buffer s |},
      [EvLoop (s_offset s)])).
Proof.
  intros He Hle. unfold turn, iteration.
  replace (s_offset s =? s_offsetPrev s) with true by (symmetry; apply Z.eqb_eq; lia).
  replace (s_offset s >? fileSize) with false
    by (symmetry; rewrite Z.gtb_ltb; apply Z.ltb_ge; lia).
  reflexivity.
Qed.

End Turns.

(** ** The window invariant, away from the 32-bit boundary *)

Section Invariant.

Context {C : Type}.
Variable onLoop : C -> Z -> C * Z * bool.
Variable onUpdate : C -> list Z -> C * bool.
Variable f : FileData.
Variable W : Z.
Hypothesis W_nonneg : 0 <= W.
Hypothesis size_nonneg : 0 <= f_size f.
Hypothesis no_wrap : f_size f + W < 2 ^ 32.

Lemma iteration_keeps_window c s r c' s' evs :
  0 <= s_offset s -> stream_ok f W s ->
  iteration onLoop onUpdate f (f_size f) W c s = (r, c', s', evs) ->
  0 <= s_offset s' /\ stream_ok f W s' /\ Forall (ev_window f W) evs.
Proof.
  intros Ho Hst Hit.
  destruct (Z.ltb_spec (f_size f) (s_offset s)) as [Hgt|Hle].
  - rewrite iteration_clamp in Hit by exact Hgt.
    injection Hit as <- <- <- <-. cbn [s_offset].
    split; [lia | split; [exact Hst | constructor]].
  - destruct (Z.eq_dec (s_offset s) (s_offsetPrev s)) as [He|Hne].
    + rewrite iteration_idle in Hit by assumption.
      destruct (onLoop c (s_offset s)) as [[c1 o1] d1].
      injection Hit as <- <- <- <-. cbn [s_offset].
      split; [apply u32_range | split; [exact Hst | repeat constructor]].
    + rewrite iteration_update in Hit by assumption.
      pose proof (refresh_window f W (s_offset s) (s_offsetPrev s) (s_buffer s)
                    W_nonneg (conj Ho Hle) ltac:(lia) Hne Hst) as Hw.
      pose proof (refresh_reads f f W (f_size f) W (s_offset s) (s_offsetPrev s)
                    (s_buffer s)) as Hrd.
      destruct (refresh f (f_size f) W (s_offset s) (s_offsetPrev s) (s_buffer s))
        as [buffer rd].
      cbn [fst] in Hw. cbn [snd] in Hrd. subst buffer.
      destruct (onUpdate c (window f (s_offset s) W)) as [c1 d1].
      injection Hit as <- <- <- <-. cbn [s_offset].
      split; [lia | split; [right; cbn; repeat split; lia |]].
      constructor; [exact Hrd | constructor; [reflexivity | constructor]].
Qed.

Lemma provider_loop_windows running : forall c s r c' evs,
  0 <= s_offset s -> stream_ok f W s ->
  provider_loop onLoop onUpdate f (f_size f) W running c s = (r, c', evs) ->
  Forall (ev_window f W) evs.
Proof.
  induction running as [|n IH]; intros c s r c' evs Ho Hst Hrun; cbn in Hrun.
  - injection Hrun as <- <- <-. constructor.
  - destruct (iteration onLoop onUpdate f (f_size f) W c s)
      as [[[r1 c1] s1] ev1] eqn:Hit.
    apply iteration_keeps_window in Hit as (Ho1 & Hst1 & Hev1); try assumption.
    destruct r1.
    + injection Hrun as <- <- <-. exact Hev1.
    + destruct (provider_loop onLoop onUpdate f (f_size f) W n c1 s1)
        as [[r2 c2] ev2] eqn:Hrest.
      injection Hrun as <- <- <-.
      apply Forall_app. split; [exact Hev1 | eapply IH; eassumption].
Qed.

End Invariant.

(** ** The provider on a regular file *)

Lemma window_past_end f o W :
  f_size f <= o -> window f o W = repeat 0 (Z.to_nat W).
Proof.
  intros Ho. apply list_ext.
  - rewrite blen_window, blen_repeat. reflexivity.
  - rewrite blen_window. intros i Hi.
    rewrite bget_window, bget_repeat by lia.
    unfold byte_or_zero.
    destruct (Z.ltb_spec (o + i) (f_size f)); [lia|]. now rewrite andb_false_r.
Qed.

Lemma delivered_app e1 e2 : delivered (e1 ++ e2) = delivered e1 ++ delivered e2.
Proof. unfold delivered. apply flat_map_app. Qed.

Lemma delivered_refresh f fileSize W o op buf data :
  delivered [snd (refresh f fileSize W o op buf); EvUpdate o data] = [(o, data)].
Proof. unfold refresh. destruct (o <? op); reflexivity. Qed.

(** Once the path is known to name a regular file and the buffer can be
    allocated, the call is the loop on that file, started on the sentinel
    and a zeroed buffer; the file has been opened twice (by [fsExists] and
    for the stream). *)
Lemma fsDataProvider_on_file {C : Type} (w : World) path f offset W
    (onLoop : C -> Z -> C * Z * bool) (onUpdate : C -> list Z -> C * bool)
    (c : C) running :
  lookup (w_fs w) (canon path) = Some (NFile f) ->
  fsDataProvider w path offset W (Some onLoop) (Some onUpdate) c running =
    let w' := set_opens ((w_opens w ++ [path]) ++ [path]) w in
    if W <=? w_heap w then
      let '(r, c', evs) :=
        provider_loop onLoop onUpdate f (u32 (f_size f)) W running c
          {| s_offset := offset; s_offsetPrev := u32 (-1);
             s_buffer := repeat 0 (Z.to_nat W) |} in
      (r, c', w', evs)
    else (false, c, w', []).
Proof.
  intros Hf. unfold fsDataProvider, fsExists, fopen_r, fsGetFileSize, stat, calloc.
  rewrite Hf. cbn [w_fs set_opens]. rewrite Hf. cbn [w_fs set_opens]. rewrite Hf.
  cbn [w_heap set_opens w_opens].
  destruct (W <=? w_heap w); reflexivity.
Qed.

(** The window invariant for a whole call, when [fileSize + buffSize] stays
    below [2^32]. *)
Lemma provider_window_invariant {C : Type} (w : World) path f offset W
    (onLoop : option (C -> Z -> C * Z * bool))
    (onUpdate : option (C -> list Z -> C * bool)) (c : C) running r c' w' evs :
  lookup (w_fs w) (canon path) = Some (NFile f) ->
  0 <= f_size f -> 0 <= W -> f_size f + W < 2 ^ 32 -> 0 <= offset ->
  fsDataProvider w path offset W onLoop onUpdate c running = (r, c', w', evs) ->
  Forall (ev_window f W) evs.
Proof.
  intros Hf HS HW Hno Ho Hrun.
  destruct onLoop as [onLoop|], onUpdate as [onUpdate|];
    try (cbn in Hrun; injection Hrun as <- <- <- <-; constructor).
  rewrite (fsDataProvider_on_file w path f) in Hrun by exact Hf.
  cbv zeta in Hrun. rewrite u32_small in Hrun by lia.
  destruct (W <=? w_heap w).
  - destruct (provider_loop _ _ _ _ _ _ _ _) as [[r1 c1] ev1] eqn:Hloop in Hrun.
    injection Hrun as <- <- <- <-.
    eapply provider_loop_windows; [exact HW | exact HS | exact Hno | | | exact Hloop].
    + exact Ho.
    + left. split; reflexivity.
  - injection Hrun as <- <- <- <-. constructor.
Qed.

(** ** Steps of the loop under the seeking client *)

Section Seeking.

Variable f : FileData.
Variable W : Z.
Hypothesis W_nonneg : 0 <= W.

Let loop := provider_loop seek_onLoop watch_onUpdate f (f_size f) W.

Lemma seek_step_update n c s :
  s_offset s <> s_offsetPrev s ->
  0 <= s_offset s <= f_size f -> s_offset s + W < 2 ^ 32 ->
  stream_ok f W s ->
  exists rd,
    delivered [rd; EvUpdate (s_offset s) (window f (s_offset s) W)]
      = [(s_offset s, window f (s_offset s) W)] /\
    loop (S n) c s =
      let '(r, c', evs) :=
        loop n c {| s_offset := s_offset s; s_offsetPrev := s_offset s;
                    s_buffer := window f (s_offset s) W |} in
      (r, c', [rd; EvUpdate (s_offset s) (window f (s_offset s) W)] ++ evs).
Proof.
  intros Hne Ho Hno Hst.
  exists (snd (refresh f (f_size f) W (s_offset s) (s_offsetPrev s) (s_buffer s))).
  split; [apply delivered_refresh|].
  unfold loop. cbn [provider_loop].
  rewrite iteration_update by (try assumption; lia).
  assert (Hw := refresh_window f W (s_offset s) (s_offsetPrev s) (s_buffer s)
                  W_nonneg Ho Hno Hne).
  destruct s as [o op buf]; cbn [s_offset s_offsetPrev s_buffer] in *.
  specialize (Hw Hst).
  destruct (refresh f (f_size f) W o op buf) as [buffer rd].
  cbn [fst snd] in *. subst buffer. unfold watch_onUpdate. reflexivity.
Qed.

Lemma seek_step_next n k rest s :
  s_offset s = s_offsetPrev s -> s_offset s <= f_size f ->
  loop (S n) (k :: rest) s =
    let '(r, c', evs) :=
      loop n rest {| s_offset := u32 k; s_offsetPrev := s_offsetPrev s;
                     s_buffer := s_buffer s |} in
    (r, c', [EvLoop (s_offset s)] ++ evs).
Proof.
  intros He Hle. unfold loop. cbn [provider_loop].
  rewrite iteration_idle by assumption. reflexivity.
Qed.

Lemma seek_step_stop n s :
  s_offset s = s_offsetPrev s -> s_offset s <= f_size f ->
  loop (S n) [] s = (true, [], [EvLoop (s_offset s)]).
Proof.
  intros He Hle. unfold loop. cbn [provider_loop].
  rewrite iteration_idle by assumption. reflexivity.
Qed.

End Seeking.

(** ** Claims on the data provider *)

(** C2.  Round trip of the overlap reuse.  On a file of size [S] and with a
    window [W < S], a client that starts at offset 0, seeks forward to any
    [k] with [0 < k < S - W], then seeks back to 0 and stops, receives three
    buffers: the window at 0, the window at [k], and again, byte for byte,
    the window at 0. *)
Theorem seek_forward_then_back_restores_first_window :
  forall (w : World) (path : string) (f : FileData) (W k : Z) (running : nat),
    lookup (w_fs w) (canon path) = Some (NFile f) ->
    f_size f < 2 ^ 32 ->
    0 <= W <= w_heap w ->
    W < f_size f ->
    0 < k < f_size f - W ->
    (6 <= running)%nat ->
    exists w' evs,
      fsDataProvider w path 0 W (Some seek_onLoop) (Some watch_onUpdate)
        [k; 0] running = (true, [], w', evs) /\
      delivered evs =
        [(0, window f 0 W); (k, window f k W); (0, window f 0 W)].
Proof.
  intros w path f W k running Hf HS HW HWS Hk Hrun.
  rewrite (fsDataProvider_on_file w path f) by exact Hf.
  cbv zeta.
  replace (W <=? w_heap w) with true by (symmetry; apply Z.leb_le; lia).
  rewrite u32_small by lia.
  do 6 (destruct running as [|running]; [lia|]). clear Hrun.
  (* first fill *)
  destruct (seek_step_update f W (proj1 HW) (S (S (S (S (S running))))) [k; 0]
              {| s_offset := 0; s_offsetPrev := u32 (-1);
                 s_buffer := repeat 0 (Z.to_nat W) |})
    as (rd1 & Hd1 & ->); cbn [s_offset s_offsetPrev s_buffer];
    [rewrite u32_minus_one; lia | lia | lia | left; split; reflexivity |].
  rewrite seek_step_next by (cbn; lia).
  cbn [s_offset s_offsetPrev s_buffer]. rewrite (u32_small k) by lia.
  (* forward to k *)
  destruct (seek_step_update f W (proj1 HW) (S (S (S running))) [0]
              {| s_offset := k; s_offsetPrev := 0; s_buffer := window f 0 W |})
    as (rd2 & Hd2 & ->); cbn [s_offset s_offsetPrev s_buffer];
    [lia | lia | lia | right; cbn; repeat split; lia |].
  rewrite seek_step_next by (cbn; lia).
  cbn [s_offset s_offsetPrev s_buffer]. rewrite (u32_small 0) by lia.
  (* back to 0 *)
  destruct (seek_step_update f W (proj1 HW) (S running) []
              {| s_offset := 0; s_offsetPrev := k; s_buffer := window f k W |})
    as (rd3 & Hd3 & ->); cbn [s_offset s_offsetPrev s_buffer];
    [lia | lia | lia | right; cbn; repeat split; lia |].
  rewrite seek_step_stop by (cbn; lia).
  cbn [s_offset s_offsetPrev s_buffer] in *.
  eexists. eexists. split; [reflexivity|].
  rewrite !delivered_app, Hd1, Hd2, Hd3. reflexivity.
Qed.

Lemma seek_forward_then_back_restores_first_window_witness :
  exists w' evs,
    fsDataProvider (one_file "f" (file_of_list (seqZ 1 20))) "/f" 0 8
      (Some seek_onLoop) (Some watch_onUpdate) [5; 0] 6%nat
      = (true, [], w', evs) /\
    delivered evs =
      [(0, window (file_of_list (seqZ 1 20)) 0 8);
       (5, window (file_of_list (seqZ 1 20)) 5 8);
       (0, window (file_of_list (seqZ 1 20)) 0 8)].
Proof.
  apply (seek_forward_then_back_restores_first_window
           (one_file "f" (file_of_list (seqZ 1 20))) "/f"
           (file_of_list (seqZ 1 20)) 8 5 6%nat).
  - reflexivity.
  - vm_compute. reflexivity.
  - vm_compute. split; discriminate.
  - vm_compute. reflexivity.
  - vm_compute. split; reflexivity.
  - apply le_n.
Defined.

(** C6.  Preconditions of the provider.  With either closure missing the
    call returns false with [errno = ENOTSUP]; with both present and a path
    that names nothing it returns false with [errno = ENOENT].  Either way
    no [fopen] has succeeded, the file tree is as it was, and no closure has
    been called. *)
Theorem fsDataProvider_preconditions :
  forall (C : Type) (w : World) (path : string) (offset buffSize : Z)
         (onLoop : option (C -> Z -> C * Z * bool))
         (onUpdate : option (C -> list Z -> C * bool))
         (c : C) (running : nat),
    (onLoop = None \/ onUpdate = None ->
     fsDataProvider w path offset buffSize onLoop onUpdate c running
       = (false, c, set_errno ENOTSUP w, []))
    /\
    (onLoop <> None -> onUpdate <> None ->
     lookup (w_fs w) (canon path) = None ->
     fsDataProvider w path offset buffSize onLoop onUpdate c running
       = (false, c, set_errno ENOENT w, [])).
Proof.
  intros C w path offset buffSize onLoop onUpdate c running. split.
  - intros [-> | ->]; [reflexivity|]. destruct onLoop; reflexivity.
  - intros HL HU Hnone.
    destruct onLoop as [onLoop|]; [|congruence].
    destruct onUpdate as [onUpdate|]; [|congruence].
    unfold fsDataProvider, fsExists, fopen_r, fsIsDirectory, opendir.
    rewrite Hnone. cbn [w_fs set_errno]. rewrite Hnone. reflexivity.
Qed.

Lemma fsDataProvider_preconditions_witness :
  (fsDataProvider (one_file "f" (file_of_list [1; 2; 3])) "/f" 0 2
     (@None (list Z -> Z -> list Z * Z * bool)) (Some watch_onUpdate) [] 3%nat
   = (false, [], set_errno ENOTSUP (one_file "f" (file_of_list [1; 2; 3])), []))
  /\
  (fsDataProvider (one_file "f" (file_of_list [1; 2; 3])) "/g" 0 2
     (Some seek_onLoop) (Some watch_onUpdate) [] 3%nat
   = (false, [], set_errno ENOENT (one_file "f" (file_of_list [1; 2; 3])), [])).
Proof.
  split.
  - apply (proj1 (fsDataProvider_preconditions (list Z)
             (one_file "f" (file_of_list [1; 2; 3])) "/f" 0 2
             None (Some watch_onUpdate) [] 3%nat)).
    left. reflexivity.
  - apply (proj2 (fsDataProvider_preconditions (list Z)
             (one_file "f" (file_of_list [1; 2; 3])) "/g" 0 2
             (Some seek_onLoop) (Some watch_onUpdate) [] 3%nat)).
    + discriminate.
    + discriminate.
    + reflexivity.
Defined.

(** C1, at the 32-bit boundary.  On a file of [2^32 - 1] bytes and a window
    of 16, after the window at [2^32 - 21] the client seeks forward to
    [2^32 - 11].  [offset + buffSize] wraps to 5, which is not above the file
    size, so the tail is not cleared and the read stops at the end of the
    file: the six positions past the end are delivered with bytes of the
    previous window instead of zeroes. *)
Theorem window_not_cleared_when_data_end_wraps :
  let S := 2 ^ 32 - 1 in
  let f := pattern_file S in
  let '(_, _, _, evs) :=
    fsDataProvider (one_file "big" f) "/big" (S - 20) 16
      (Some seek_onLoop) (Some watch_onUpdate) [S - 10] 4%nat in
  delivered evs =
    [(S - 20, window f (S - 20) 16);
     (S - 10,
      [113; 114; 115; 116; 117; 118; 119; 120; 121; 122;
       113; 114; 115; 116; 117; 118])]
  /\ window f (S - 10) 16 =
      [113; 114; 115; 116; 117; 118; 119; 120; 121; 122; 0; 0; 0; 0; 0; 0].
Proof. vm_compute. split; reflexivity. Qed.

(** C3, at the 32-bit boundary.  On a file of [S = 2^32 - 2] bytes and a
    window of 16, after the window at [S - 20] the client asks for offset
    [2^32 - 1].  The next turn clamps the offset to [S] without reading or
    calling back; the turn after it refreshes the window at [S], where
    [offset + buffSize] wraps to 14: nothing is cleared, nothing can be read,
    and the previous window is delivered where every byte should be zero. *)
Theorem clamped_window_stale_when_data_end_wraps :
  let S := 2 ^ 32 - 2 in
  let f := pattern_file S in
  let '(_, _, _, evs) :=
    fsDataProvider (one_file "big" f) "/big" (S - 20) 16
      (Some seek_onLoop) (Some watch_onUpdate) [S + 1] 5%nat in
  evs =
    [EvRead (S - 20) 16; EvUpdate (S - 20) (window f (S - 20) 16);
     EvLoop (S - 20);
     EvRead S 16; EvUpdate S (window f (S - 20) 16);
     EvLoop S]
  /\ window f (S - 20) 16 =
      [102; 103; 104; 105; 106; 107; 108; 109; 110; 111; 112; 113; 114;
       115; 116; 117]
  /\ window f S 16 = repeat 0 16.
Proof. vm_compute. repeat split; reflexivity. Qed.

(** ** What every operation preserves *)

(** A property of the world that the platform calls keep, and that
    [fsShowProgress] keeps when its divisor is positive, is kept by the
    copy and by the dummy-file generator: on the way, every call of
    [fsShowProgress] they make is shown to have a positive divisor. *)
Section Preserved.

Variable P : World -> Prop.
Hypothesis P_errno : forall w e, P w -> P (set_errno e w).
Hypothesis P_opens : forall w v, P w -> P (set_opens v w).
Hypothesis P_mkdir : forall w p, P w -> P (snd (mkdir w p)).
Hypothesis P_fopen_w : forall w p, P w -> P (snd (fopen_w w p)).
Hypothesis P_fwrite : forall w p data, P w -> P (snd (fwrite w p data)).
Hypothesis P_progress : forall w op path pos total,
  0 < total -> P w -> P (snd (fsShowProgress w op path pos total)).

Lemma fopen_r_keeps w p r w' : P w -> fopen_r w p = (r, w') -> P w'.
Proof.
  unfold fopen_r. intros HP H.
  destruct (lookup (w_fs w) (canon p)) as [[d|names]|];
    injection H as <- <-; auto.
Qed.

Lemma opendir_keeps w p r w' : P w -> opendir w p = (r, w') -> P w'.
Proof.
  unfold opendir. intros HP H.
  destruct (lookup (w_fs w) (canon p)) as [[d|names]|];
    injection H as <- <-; auto.
Qed.

Lemma fsIsDirectory_keeps w p r w' : P w -> fsIsDirectory w p = (r, w') -> P w'.
Proof.
  unfold fsIsDirectory. intros HP H.
  destruct (opendir w p) as [[names|] w1] eqn:E;
    injection H as <- <-; eapply opendir_keeps; eassumption.
Qed.

Lemma fsExists_keeps w p r w' : P w -> fsExists w p = (r, w') -> P w'.
Proof.
  unfold fsExists. intros HP H.
  destruct (fopen_r w p) as [[d|] w1] eqn:E.
  - injection H as <- <-. eapply fopen_r_keeps; eassumption.
  - eapply fsIsDirectory_keeps; [|exact H]. eapply fopen_r_keeps; eassumption.
Qed.

Lemma fsGetFileSize_keeps w p r w' : P w -> fsGetFileSize w p = (r, w') -> P w'.
Proof.
  unfold fsGetFileSize, stat. intros HP H.
  destruct (lookup (w_fs w) (canon p)) as [[d|names]|];
    injection H as <- <-; auto.
Qed.

Lemma fsGetDirectoryContents_keeps w p r w' :
  P w -> fsGetDirectoryContents w p = (r, w') -> P w'.
Proof.
  unfold fsGetDirectoryContents. intros HP H.
  destruct (opendir w _) as [[names|] w1] eqn:E;
    injection H as <- <-; eapply opendir_keeps; eassumption.
Qed.

Lemma mkdir_keeps w p r w' : P w -> mkdir w p = (r, w') -> P w'.
Proof. intros HP H. replace w' with (snd (mkdir w p)) by now rewrite H. auto. Qed.

Lemma fopen_w_keeps w p r w' : P w -> fopen_w w p = (r, w') -> P w'.
Proof. intros HP H. replace w' with (snd (fopen_w w p)) by now rewrite H. auto. Qed.

Lemma fwrite_keeps w p data r w' : P w -> fwrite w p data = (r, w') -> P w'.
Proof. intros HP H. replace w' with (snd (fwrite w p data)) by now rewrite H. auto. Qed.

Lemma progress_keeps w op path pos total r w' :
  0 < total -> P w -> fsShowProgress w op path pos total = (r, w') -> P w'.
Proof.
  intros Ht HP H.
  replace w' with (snd (fsShowProgress w op path pos total)) by now rewrite H.
  auto.
Qed.

(** A chunk that was read is not empty only if the buffer is not, and the
    buffer is as long as the total unless that is above 4 MiB. *)
Lemma chunk_total_positive fp rpos total :
  Z.of_nat (List.length
    (fread_at fp rpos (if total <? CTRX_BUFSIZ then total else CTRX_BUFSIZ))) > 0 ->
  0 < total.
Proof.
  fold (blen (fread_at fp rpos (if total <? CTRX_BUFSIZ then total else CTRX_BUFSIZ))).
  rewrite blen_fread_at. unfold CTRX_BUFSIZ.
  destruct (Z.ltb_spec total (4 * 1024 * 1024)); lia.
Qed.

Lemma copy_loop_keeps turns : forall w path dest sp fp rpos pos total r w',
  P w ->
  copy_loop turns w path dest sp fp rpos
    (if total <? CTRX_BUFSIZ then total else CTRX_BUFSIZ) pos total = (r, w') ->
  P w'.
Proof.
  induction turns as [|n IH]; intros w path dest sp fp rpos pos total r w' HP H;
    cbn [copy_loop] in H.
  - injection H as <- <-. exact HP.
  - cbv zeta in H.
    destruct (_ >? 0) eqn:Hsize in H.
    + apply Z.gtb_lt in Hsize. apply Z.lt_gt, chunk_total_positive in Hsize.
      destruct (fwrite w dest _) as [written w1] eqn:Ew in H.
      apply fwrite_keeps in Ew; [|exact HP].
      destruct sp.
      * destruct (fsShowProgress w1 _ _ _ _) as [go w2] eqn:Ep in H.
        apply progress_keeps in Ep; [|exact Hsize|exact Ew].
        destruct go; cbn [negb] in H.
        -- eapply IH; eassumption.
        -- injection H as <- <-. auto.
      * cbn [negb] in H. eapply IH; eassumption.
    + injection H as <- <-. exact HP.
Qed.

Lemma copy_children_keeps copy dest sp contents : forall w r w',
  (forall w path dest sp r w', P w -> copy w path dest sp = (r, w') -> P w') ->
  P w -> copy_children copy dest sp contents w = (r, w') -> P w'.
Proof.
  induction contents as [|it rest IHc]; intros w r w' Hcopy HP H;
    cbn [copy_children] in H.
  - injection H as <- <-. exact HP.
  - destruct (copy w (fi_path it) _ sp) as [[[|]|] w1] eqn:E1 in H.
    + eapply IHc; [exact Hcopy| |exact H]. eapply Hcopy; eassumption.
    + injection H as <- <-. eapply Hcopy; eassumption.
    + injection H as <- <-. eapply Hcopy; eassumption.
Qed.

Lemma fsPathCopy_keeps depth : forall w path dest sp r w',
  P w -> fsPathCopy depth w path dest sp = (r, w') -> P w'.
Proof.
  induction depth as [|d IH]; intros w path dest sp r w' HP H;
    cbn [fsPathCopy] in H.
  - injection H as <- <-. exact HP.
  - destruct (fsExists w dest) as [found w1] eqn:E1.
    apply fsExists_keeps in E1; [|exact HP].
    destruct found; [injection H as <- <-; auto|].
    assert (Hgo : exists go w2,
              (if sp then fsShowProgress w1 "Copying" path 0 1 else (true, w1))
                = (go, w2) /\ P w2).
    { destruct sp.
      - destruct (fsShowProgress w1 "Copying" path 0 1) as [go w2] eqn:Ep.
        exists go, w2. split; [reflexivity|].
        eapply progress_keeps; [| |exact Ep]; [lia|exact E1].
      - exists true, w1. split; [reflexivity | exact E1]. }
    destruct Hgo as (go & w2 & Hgo & HP2). rewrite Hgo in H. clear Hgo.
    destruct go; cbn [negb] in H; [|injection H as <- <-; auto].
    destruct (fsIsDirectory w2 path) as [isDir w3] eqn:E3.
    apply fsIsDirectory_keeps in E3; [|exact HP2].
    destruct isDir.
    + destruct (negb (is_npos _)) in H; [injection H as <- <-; auto|].
      destruct (mkdir w3 dest) as [rc w4] eqn:E4.
      apply mkdir_keeps in E4; [|exact E3].
      destruct (negb (rc =? 0)); [injection H as <- <-; auto|].
      assert (Hgo : exists go w5,
                (if sp then fsShowProgress w4 "Copying" path 1 2 else (true, w4))
                  = (go, w5) /\ P w5).
      { destruct sp.
        - destruct (fsShowProgress w4 "Copying" path 1 2) as [go w5] eqn:Ep.
          exists go, w5. split; [reflexivity|].
          eapply progress_keeps; [| |exact Ep]; [lia|exact E4].
        - exists true, w4. split; [reflexivity | exact E4]. }
      destruct Hgo as (go & w5 & Hgo & HP5). rewrite Hgo in H. clear Hgo.
      destruct go; cbn [negb] in H; [|injection H as <- <-; auto].
      destruct (fsGetDirectoryContents w5 path) as [contents w6] eqn:E6.
      apply fsGetDirectoryContents_keeps in E6; [|exact HP5].
      eapply copy_children_keeps; [|exact E6|exact H].
      intros; eapply IH; eassumption.
    + destruct (fsGetFileSize w3 path) as [total w4] eqn:E4.
      apply fsGetFileSize_keeps in E4; [|exact E3].
      destruct (fopen_r w4 path) as [fp w5] eqn:E5.
      apply fopen_r_keeps in E5; [|exact E4].
      destruct (fopen_w w5 dest) as [fd w6] eqn:E6.
      apply fopen_w_keeps in E6; [|exact E5].
      destruct fp as [fp|]; [|injection H as <- <-; exact E6].
      destruct (fd && malloc w4 _); [|injection H as <- <-; exact E6].
      destruct (copy_loop _ _ _ _ _ _ _ _ _ _) as [[ret pos] w7] eqn:E7 in H.
      injection H as <- <-.
      eapply copy_loop_keeps; [exact E6|].
      instantiate (1 := (ret, pos)). exact E7.
Qed.

Lemma write_loop_keeps turns : forall w path buffer sp size count l_bufsiz pos r w',
  P w -> (sp = true -> 0 < size) ->
  write_loop turns w path buffer sp size count l_bufsiz pos = (r, w') -> P w'.
Proof.
  induction turns as [|n IH];
    intros w path buffer sp size count l_bufsiz pos r w' HP Hsp H;
    cbn [write_loop] in H.
  - injection H as <- <-. exact HP.
  - destruct (count <? size); [|injection H as <- <-; exact HP].
    cbv zeta in H.
    destruct (fwrite w path _) as [written w1] eqn:Ew in H.
    apply fwrite_keeps in Ew; [|exact HP].
    destruct sp.
    + destruct (fsShowProgress w1 _ _ _ _) as [go w2] eqn:Ep in H.
      apply progress_keeps in Ep; [|auto|exact Ew].
      destruct go; cbn [negb] in H.
      * eapply IH; eassumption.
      * injection H as <- <-. auto.
    + cbn [negb] in H. eapply IH; eassumption.
Qed.

Lemma fsCreateDummyFile_keeps w path size content sp r w' :
  P w -> fsCreateDummyFile w path size content sp = (r, w') -> P w'.
Proof.
  unfold fsCreateDummyFile. intros HP H.
  destruct (fsExists w path) as [found w1] eqn:E1.
  apply fsExists_keeps in E1; [|exact HP].
  destruct found; [injection H as <- <-; auto|].
  cbv zeta in H.
  set (sp' := if size <? CTRX_BUFSIZ then false else sp) in H.
  assert (Hsp : sp' = true -> 0 < size).
  { unfold sp', CTRX_BUFSIZ. destruct (Z.ltb_spec size (4 * 1024 * 1024)); [discriminate | lia]. }
  assert (HP2 : P (if sp' then snd (fsShowProgress w1 "Generating" path 0 1) else w1)).
  { destruct sp'; [apply P_progress; [lia | exact E1] | exact E1]. }
  destruct (fopen_w _ path) as [fp w3] eqn:E3 in H.
  apply fopen_w_keeps in E3; [|exact HP2].
  destruct (fp && malloc _ _); [|injection H as <- <-; exact E3].
  destruct (write_loop _ _ _ _ _ _ _ _ _) as [pos w4] eqn:E4 in H.
  injection H as <- <-.
  eapply write_loop_keeps; [exact E3 | exact Hsp | exact E4].
Qed.

End Preserved.

(** ** The file tree under the platform calls *)

Lemma lookup_update_same fs p n : lookup (update fs p n) p = Some n.
Proof.
  induction fs as [|[k m] rest IH]; cbn.
  - now rewrite String.eqb_refl.
  - destruct (String.eqb k p) eqn:E; cbn; rewrite E; [reflexivity | exact IH].
Qed.

Lemma lookup_update_other fs p n q :
  q <> p -> lookup (update fs p n) q = lookup fs q.
Proof.
  intros Hne. induction fs as [|[k m] rest IH]; cbn.
  - destruct (String.eqb_spec p q); [congruence | reflexivity].
  - destruct (String.eqb_spec k p) as [->|Hk]; cbn.
    + destruct (String.eqb_spec p q); [congruence | reflexivity].
    + destruct (String.eqb_spec k q); [reflexivity | exact IH].
Qed.

Lemma lookup_update_bound fs p n q :
  lookup fs q <> None -> lookup (update fs p n) q <> None.
Proof.
  intros H. destruct (string_dec q p) as [->|Hne].
  - rewrite lookup_update_same. discriminate.
  - now rewrite lookup_update_other.
Qed.

Lemma link_binds w p n w' :
  link w p n = Some w' -> lookup (w_fs w') (canon p) = Some n.
Proof.
  unfold link. destruct (parent_of p) as [dir base].
  destruct (lookup (w_fs w) dir) as [[d|names]|]; try discriminate.
  intros H. injection H as <-. cbn. apply lookup_update_same.
Qed.

Lemma bound_errno q w e : bound q w -> bound q (set_errno e w).
Proof. exact (fun H => H). Qed.

Lemma bound_opens q w v : bound q w -> bound q (set_opens v w).
Proof. exact (fun H => H). Qed.

Lemma bound_link q w p n w' : link w p n = Some w' -> bound q w -> bound q w'.
Proof.
  unfold link, bound. destruct (parent_of p) as [dir base].
  destruct (lookup (w_fs w) dir) as [[d|names]|]; try discriminate.
  intros H Hq. injection H as <-. cbn.
  now apply lookup_update_bound, lookup_update_bound.
Qed.

Lemma bound_mkdir q w p : bound q w -> bound q (snd (mkdir w p)).
Proof.
  intros H. unfold mkdir.
  destruct (lookup (w_fs w) (canon p)); [exact H|].
  destruct (link w p (NDir [])) eqn:E; [|exact H].
  eapply bound_link; eassumption.
Qed.

Lemma bound_fopen_w q w p : bound q w -> bound q (snd (fopen_w w p)).
Proof.
  intros H. unfold fopen_w.
  destruct (lookup (w_fs w) (canon p)) as [[d|names]|]; [| exact H |].
  - cbn. unfold bound. cbn. now apply lookup_update_bound.
  - destruct (link w p (NFile empty_file)) eqn:E; [|exact H].
    cbn. apply bound_opens. eapply bound_link; eassumption.
Qed.

Lemma bound_fwrite q w p data : bound q w -> bound q (snd (fwrite w p data)).
Proof.
  intros H. unfold fwrite.
  destruct (lookup (w_fs w) (canon p)) as [[d|names]|]; try exact H.
  cbn. unfold bound. cbn. now apply lookup_update_bound.
Qed.

(** ** fsShowProgress *)

Lemma fsShowProgress_fs w op path pos total :
  w_fs (snd (fsShowProgress w op path pos total)) = w_fs w.
Proof.
  unfold fsShowProgress, hid_poll_pressed_B. cbn.
  destruct (negb _); cbn; destruct (w_pad w); reflexivity.
Qed.

Lemma fsShowProgress_go w op path pos total :
  fst (fsShowProgress w op path pos total) = negb (hd false (w_pad w)).
Proof.
  unfold fsShowProgress, hid_poll_pressed_B. cbn.
  destruct (negb _); cbn; destruct (w_pad w); reflexivity.
Qed.

Lemma fsShowProgress_calls w op path pos total :
  w_calls (snd (fsShowProgress w op path pos total)) = w_calls w ++ [(pos, total)].
Proof.
  unfold fsShowProgress, hid_poll_pressed_B. cbn.
  destruct (negb _); cbn; destruct (w_pad w); reflexivity.
Qed.

Lemma bound_progress q w op path pos total :
  0 < total -> bound q w -> bound q (snd (fsShowProgress w op path pos total)).
Proof. intros _ H. unfold bound. now rewrite fsShowProgress_fs. Qed.

(** ** The log of the calls of fsShowProgress *)

Lemma mkdir_calls w p : w_calls (snd (mkdir w p)) = w_calls w.
Proof.
  unfold mkdir, link. destruct (lookup (w_fs w) (canon p)); [reflexivity|].
  destruct (parent_of p) as [dir base].
  destruct (lookup (w_fs w) dir) as [[d|names]|]; reflexivity.
Qed.

Lemma fopen_w_calls w p : w_calls (snd (fopen_w w p)) = w_calls w.
Proof.
  unfold fopen_w, link. destruct (lookup (w_fs w) (canon p)) as [[d|names]|];
    try reflexivity.
  destruct (parent_of p) as [dir base].
  destruct (lookup (w_fs w) dir) as [[d|names]|]; reflexivity.
Qed.

Lemma fwrite_calls w p data : w_calls (snd (fwrite w p data)) = w_calls w.
Proof.
  unfold fwrite. destruct (lookup (w_fs w) (canon p)) as [[d|names]|]; reflexivity.
Qed.

(** C10.  No call of [fsShowProgress] divides by zero.  If the calls made
    so far had a positive [totalSize], so have all the calls made up to the
    end of a copy (whatever its depth budget, also when it is cut short) and
    up to the end of a dummy-file generation: the ticks before the start
    pass 1 and 2, a chunk of the copy is reported only after a read of at
    least one byte, which needs a buffer and so a total that is not zero,
    and the generator reports only for sizes of 4 MiB and more. *)
Theorem progress_divisor_is_positive :
  forall w : World,
    calls_positive w ->
    (forall depth path dest showProgress,
       calls_positive (snd (fsPathCopy depth w path dest showProgress)))
    /\
    (forall path size content showProgress,
       calls_positive (snd (fsCreateDummyFile w path size content showProgress))).
Proof.
  intros w Hw.
  assert (Hprog : forall w op path pos total,
            0 < total -> calls_positive w ->
            calls_positive (snd (fsShowProgress w op path pos total))).
  { intros w0 op path pos total Ht H0. unfold calls_positive.
    rewrite fsShowProgress_calls. apply Forall_app. split; [exact H0|].
    constructor; [exact Ht | constructor]. }
  split.
  - intros depth path dest sp.
    destruct (fsPathCopy depth w path dest sp) as [r w'] eqn:E. cbn [snd].
    refine (fsPathCopy_keeps calls_positive _ _ _ _ _ Hprog depth w path dest sp
              r w' Hw E); intros; unfold calls_positive;
      rewrite ?mkdir_calls, ?fopen_w_calls, ?fwrite_calls; assumption.
  - intros path size content sp.
    destruct (fsCreateDummyFile w path size content sp) as [r w'] eqn:E. cbn [snd].
    refine (fsCreateDummyFile_keeps calls_positive _ _ _ _ Hprog w path size content
              sp r w' Hw E); intros; unfold calls_positive;
      rewrite ?fopen_w_calls, ?fwrite_calls; assumption.
Qed.

Lemma progress_divisor_is_positive_witness :
  calls_positive (snd (fsPathCopy 3 (sample []) "/d" "/e" true))
  /\ calls_positive (snd (fsCreateDummyFile (sample []) "/x" 5 256 true)).
Proof.
  assert (H0 : calls_positive (sample [])) by constructor.
  split.
  - apply (proj1 (progress_divisor_is_positive (sample []) H0)).
  - apply (proj2 (progress_divisor_is_positive (sample []) H0)).
Defined.

(** ** std::string::find *)

Lemma prefix_spec (a b : string) :
  String.prefix a b = true <-> exists v, b = (a ++ v)%string.
Proof.
  revert b. induction a as [|c a IH]; intros [|c' b]; cbn.
  - split; [intros _; exists EmptyString; reflexivity | reflexivity].
  - split; [intros _; exists (String c' b); reflexivity | reflexivity].
  - split; [discriminate | intros [v Hv]; discriminate].
  - destruct (Ascii.ascii_dec c c') as [->|Hne].
    + rewrite IH. split; intros [v Hv]; exists v; [now rewrite Hv | now injection Hv].
    + split; [discriminate | intros [v Hv]; injection Hv; congruence].
Qed.

Lemma find_unfold needle hay :
  find needle hay =
    if String.prefix needle hay then Some 0%nat
    else match hay with
         | EmptyString => None
         | String _ rest => option_map S (find needle rest)
         end.
Proof. destruct hay; reflexivity. Qed.

Lemma find_spec (needle hay : string) :
  is_npos (find needle hay) = false <-> contains needle hay.
Proof.
  split.
  - induction hay as [|c hay IH]; rewrite find_unfold;
      destruct (String.prefix needle _) eqn:E;
      try (intros _; apply prefix_spec in E as [v Hv];
           exists EmptyString, v; exact Hv).
    + discriminate.
    + destruct (find needle hay) eqn:F; [|discriminate].
      intros _. destruct (IH eq_refl) as (u & v & Hv).
      exists (String c u), v. cbn. now rewrite Hv.
  - intros (u & v & ->). induction u as [|c u IH]; rewrite find_unfold.
    + replace (String.prefix needle ("" ++ needle ++ v)) with true; [reflexivity|].
      symmetry. apply prefix_spec. exists v. reflexivity.
    + destruct (String.prefix needle _); [reflexivity|]. cbn [append].
      destruct (find needle (u ++ needle ++ v)); [reflexivity | discriminate].
Qed.

(** ** The first steps of a copy *)

Lemma fsExists_unbound w p :
  lookup (w_fs w) (canon p) = None -> fsExists w p = (false, set_errno ENOENT w).
Proof.
  intros H. unfold fsExists, fopen_r, fsIsDirectory, opendir.
  rewrite H. cbn [w_fs set_errno]. rewrite H. reflexivity.
Qed.

Lemma fsIsDirectory_dir w p names :
  lookup (w_fs w) (canon p) = Some (NDir names) -> fsIsDirectory w p = (true, w).
Proof. intros H. unfold fsIsDirectory, opendir. now rewrite H. Qed.

Lemma mkdir_unbound w p :
  lookup (w_fs w) (canon p) = None ->
  mkdir w p = (-1, set_errno ENOENT w)
  \/ exists w', mkdir w p = (0, w') /\ bound p w'.
Proof.
  intros H. unfold mkdir. rewrite H.
  destruct (link w p (NDir [])) as [w'|] eqn:E; [right | left; reflexivity].
  exists w'. split; [reflexivity|]. unfold bound.
  rewrite (link_binds _ _ _ _ E). discriminate.
Qed.

Lemma string_app_assoc (a b c : string) :
  ((a ++ b) ++ c = a ++ (b ++ c))%string.
Proof. induction a as [|x a IH]; cbn; [reflexivity | now rewrite IH]. Qed.

Lemma hasSlash_ends s : hasSlash s = true -> exists d, s = (d ++ "/")%string.
Proof.
  unfold hasSlash. intros H. apply andb_prop in H as [_ H].
  induction s as [|a r IH]; [discriminate|].
  destruct r as [|b r'].
  - cbn in H. destruct (Ascii.eqb_spec a "/"); [|discriminate].
    subst. exists EmptyString. reflexivity.
  - cbn [String.length] in H, IH.
    rewrite Nat.sub_succ, Nat.sub_0_r in H, IH. cbn [String.get] in H.
    destruct (IH H) as [d Hd]. exists (String a d). cbn. now rewrite <- Hd.
Qed.

Lemma hasSlash_app_slash d : hasSlash (d ++ "/") = true.
Proof.
  unfold hasSlash.
  assert (H : forall s, String.length (s ++ "/") = S (String.length s)
                        /\ String.get (String.length s) (s ++ "/") = Some "/"%char).
  { induction s as [|a s [IH1 IH2]]; cbn; [split; reflexivity|].
    rewrite IH1. split; [reflexivity | exact IH2]. }
  destruct (H d) as [H1 H2]. rewrite H1. cbn [Nat.eqb negb andb].
  rewrite Nat.sub_succ, Nat.sub_0_r, H2. now rewrite Ascii.eqb_refl.
Qed.

Lemma hasSlash_iff s : hasSlash s = true <-> ends_in_slash s.
Proof.
  split; [apply hasSlash_ends|]. intros [d ->]. apply hasSlash_app_slash.
Qed.

Lemma hasSlash_false s : ~ ends_in_slash s -> hasSlash s = false.
Proof.
  intros H. destruct (hasSlash s) eqn:E; [|reflexivity].
  apply hasSlash_iff in E. contradiction.
Qed.

(** ** Names and what the guard sees of them *)

Lemma string_length_app (a b : string) :
  String.length (a ++ b) = (String.length a + String.length b)%nat.
Proof. induction a as [|c a IH]; cbn; [reflexivity | now rewrite IH]. Qed.

(** A prefix no longer than [d] of a string that starts with [d] is a
    prefix of [d]. *)
Lemma app_prefix_of (x : string) : forall y d e : string,
  (x ++ y = d ++ e)%string -> (String.length x <= String.length d)%nat ->
  exists t, d = (x ++ t)%string.
Proof.
  induction x as [|c x IH]; intros y d e H Hlen; [now exists d|].
  destruct d as [|c' d]; [cbn in Hlen; lia|].
  cbn in H. injection H as <- H. cbn in Hlen.
  destruct (IH y d e H ltac:(lia)) as [t ->]. now exists t.
Qed.

(** The guard of a child fires only if the guard of its directory would
    have. *)
Lemma contains_child (p d name : string) :
  contains ((p ++ "/" ++ name) ++ "/") (d ++ "/" ++ name) ->
  contains (p ++ "/") d.
Proof.
  intros (u & v & H).
  assert (H' : ((u ++ p ++ "/") ++ (name ++ "/" ++ v) = d ++ ("/" ++ name))%string).
  { rewrite H. now rewrite !string_app_assoc. }
  apply app_prefix_of in H' as [t Ht].
  - exists u, t. rewrite Ht. now rewrite !string_app_assoc.
  - apply (f_equal String.length) in H'.
    repeat (rewrite ?string_length_app in H'; cbn [String.length] in H').
    rewrite !string_length_app. cbn [String.length]. lia.
Qed.

Lemma app_ends_in_slash (s : string) : forall t d : string,
  (s ++ t = d ++ "/")%string -> t <> EmptyString -> ends_in_slash t.
Proof.
  induction s as [|c s IH]; intros t d H Ht; [now exists d|].
  destruct d as [|c' d].
  - cbn in H. injection H as _ H. destruct s; [|discriminate].
    cbn in H. contradiction.
  - cbn in H. injection H as _ H. eapply IH; eassumption.
Qed.

Lemma good_name_no_trailing_slash name : good_name name -> ~ ends_in_slash name.
Proof.
  intros [_ Hno] [d Hd]. apply Hno. exists d, EmptyString. exact Hd.
Qed.

(** The path of an entry with a good name does not end in a slash. *)
Lemma child_no_trailing_slash (p name : string) :
  good_name name -> ~ ends_in_slash (p ++ "/" ++ name).
Proof.
  intros Hg [d Hd]. apply (good_name_no_trailing_slash name Hg).
  destruct name as [|c name]; [now destruct Hg|].
  apply (app_ends_in_slash (p ++ "/") (String c name) d); [|discriminate].
  now rewrite string_app_assoc.
Qed.

Lemma rsplit_spec s :
  match rsplit s with
  | Some (d, b) => s = (d ++ "/" ++ b)%string /\ ~ contains "/" b
  | None => ~ contains "/" s
  end.
Proof.
  induction s as [|c s IH]; cbn [rsplit].
  - intros (u & v & H). destruct u; discriminate.
  - destruct (rsplit s) as [[d b]|].
    + destruct IH as [-> Hb]. split; [reflexivity | exact Hb].
    + destruct (Ascii.eqb_spec c "/") as [->|Hc].
      * split; [reflexivity | exact IH].
      * intros (u & v & H). destruct u as [|c' u].
        -- cbn in H. injection H as H _. contradiction.
        -- cbn in H. injection H as _ H. apply IH. now exists u, v.
Qed.

Lemma canon_no_trailing_slash s : ~ ends_in_slash (canon s).
Proof.
  induction s as [|c s IH]; cbn [canon].
  - intros [d H]. destruct d; discriminate.
  - destruct (canon s) as [|x cs] eqn:E.
    + destruct (Ascii.eqb_spec c "/") as [->|Hc].
      * intros [d H]. destruct d; discriminate.
      * intros [d H]. destruct d as [|c' d]; cbn in H.
        -- injection H as H. contradiction.
        -- injection H as _ H. destruct d; discriminate.
    + intros [d H]. destruct d as [|c' d]; cbn in H; [discriminate|].
      injection H as _ H. apply IH. now exists d.
Qed.

(** The name [link] enters in a directory is a good one, when the path is
    not that of the directory itself. *)
Lemma base_good_name p :
  fst (parent_of p) <> canon p -> good_name (snd (parent_of p)).
Proof.
  unfold parent_of. pose proof (rsplit_spec (canon p)) as H.
  pose proof (canon_no_trailing_slash p) as Hc.
  destruct (rsplit (canon p)) as [[d b]|]; cbn [fst snd].
  - intros _. destruct H as [H Hb]. split; [|exact Hb].
    intros ->. apply Hc. exists d. exact H.
  - intros Hne. split; [congruence | exact H].
Qed.

Lemma named_plainly_link w p n w' :
  link w p n = Some w' ->
  lookup (w_fs w) (canon p) = None ->
  (forall names, n = NDir names -> Forall good_name names) ->
  named_plainly w -> named_plainly w'.
Proof.
  unfold link. pose proof (base_good_name p) as Hbase.
  destruct (parent_of p) as [dir base]. cbn [fst snd] in Hbase.
  destruct (lookup (w_fs w) dir) as [[d|names]|] eqn:Hdir; try discriminate.
  intros H Hp Hn Hw. injection H as <-.
  intros key names' Hk. cbn [w_fs set_fs] in Hk.
  destruct (string_dec key (canon p)) as [->|Hkp].
  - rewrite lookup_update_same in Hk. injection Hk as Hk. now apply Hn.
  - rewrite lookup_update_other in Hk by exact Hkp.
    destruct (string_dec key dir) as [->|Hkd].
    + rewrite lookup_update_same in Hk. injection Hk as <-.
      apply Forall_app. split; [exact (Hw dir names Hdir)|].
      constructor; [|constructor]. apply Hbase. congruence.
    + rewrite lookup_update_other in Hk by exact Hkd. exact (Hw key names' Hk).
Qed.

Lemma named_plainly_fs w w' : w_fs w' = w_fs w -> named_plainly w -> named_plainly w'.
Proof. intros H Hw key names. rewrite H. apply Hw. Qed.

Lemma named_plainly_mkdir w p : named_plainly w -> named_plainly (snd (mkdir w p)).
Proof.
  intros H. unfold mkdir.
  destruct (lookup (w_fs w) (canon p)) eqn:Hp; [exact H|].
  destruct (link w p (NDir [])) as [w0|] eqn:E; [|exact H].
  eapply named_plainly_link; [exact E | exact Hp | | exact H].
  intros names Hn. injection Hn as <-. constructor.
Qed.

Lemma named_plainly_file w k d :
  named_plainly w -> named_plainly (set_fs (update (w_fs w) k (NFile d)) w).
Proof.
  intros H key names Hk. cbn [w_fs set_fs] in Hk.
  destruct (string_dec key k) as [->|Hne].
  - rewrite lookup_update_same in Hk. discriminate.
  - rewrite lookup_update_other in Hk by exact Hne. exact (H key names Hk).
Qed.

Lemma named_plainly_fopen_w w p : named_plainly w -> named_plainly (snd (fopen_w w p)).
Proof.
  intros H. unfold fopen_w.
  destruct (lookup (w_fs w) (canon p)) as [[d|names]|] eqn:Hp; [| exact H |].
  - apply (named_plainly_file w (canon p) empty_file H).
  - destruct (link w p (NFile empty_file)) as [w0|] eqn:E; [|exact H].
    cbn [snd]. apply (named_plainly_fs w0); [reflexivity|].
    eapply named_plainly_link; [exact E | exact Hp | | exact H].
    intros names Hn. discriminate.
Qed.

Lemma named_plainly_fwrite w p data :
  named_plainly w -> named_plainly (snd (fwrite w p data)).
Proof.
  intros H. unfold fwrite.
  destruct (lookup (w_fs w) (canon p)) as [[d|names]|]; try exact H.
  cbn [snd]. exact (named_plainly_file w (canon p) _ H).
Qed.

Lemma named_plainly_progress w op path pos total :
  0 < total -> named_plainly w ->
  named_plainly (snd (fsShowProgress w op path pos total)).
Proof. intros _. apply named_plainly_fs, fsShowProgress_fs. Qed.

Lemma named_plainly_copy depth w path dest sp r w' :
  named_plainly w -> fsPathCopy depth w path dest sp = (r, w') -> named_plainly w'.
Proof.
  apply (fsPathCopy_keeps named_plainly).
  - intros w0 e H. exact H.
  - intros w0 v H. exact H.
  - apply named_plainly_mkdir.
  - apply named_plainly_fopen_w.
  - apply named_plainly_fwrite.
  - apply named_plainly_progress.
Qed.

(** ** Where [errno] can become [ENOTSUP] *)

Lemma fsShowProgress_errno w op path pos total :
  w_errno (snd (fsShowProgress w op path pos total)) = w_errno w.
Proof.
  unfold fsShowProgress, hid_poll_pressed_B. cbn.
  destruct (negb _); cbn; destruct (w_pad w); reflexivity.
Qed.

Lemma fwrite_errno w p data : w_errno (snd (fwrite w p data)) = w_errno w.
Proof.
  unfold fwrite. destruct (lookup (w_fs w) (canon p)) as [[d|names]|]; reflexivity.
Qed.

Lemma fsGetFileSize_errno w p :
  w_errno w <> ENOTSUP -> w_errno (snd (fsGetFileSize w p)) <> ENOTSUP.
Proof.
  unfold fsGetFileSize, stat.
  destruct (lookup (w_fs w) (canon p)) as [[d|names]|]; cbn; auto; discriminate.
Qed.

Lemma fopen_r_errno w p :
  w_errno w <> ENOTSUP -> w_errno (snd (fopen_r w p)) <> ENOTSUP.
Proof.
  unfold fopen_r.
  destruct (lookup (w_fs w) (canon p)) as [[d|names]|]; cbn; auto; discriminate.
Qed.

Lemma fopen_w_errno w p :
  w_errno w <> ENOTSUP -> w_errno (snd (fopen_w w p)) <> ENOTSUP.
Proof.
  unfold fopen_w, link.
  destruct (lookup (w_fs w) (canon p)) as [[d|names]|]; cbn; auto;
    try discriminate.
  destruct (parent_of p) as [dir base].
  destruct (lookup (w_fs w) dir) as [[d|names]|]; cbn; auto; discriminate.
Qed.

Lemma copy_loop_errno turns : forall w path dest sp fp rpos l_bufsiz pos total,
  w_errno w <> ENOTSUP ->
  w_errno (snd (copy_loop turns w path dest sp fp rpos l_bufsiz pos total))
  <> ENOTSUP.
Proof.
  induction turns as [|n IH]; intros w path dest sp fp rpos l pos total H;
    cbn [copy_loop]; [exact H|].
  cbv zeta. destruct (_ >? 0); [|exact H].
  pose proof (fwrite_errno w dest (fread_at fp rpos l)) as Hw.
  destruct (fwrite w dest _) as [written w1]. cbn [snd] in Hw.
  assert (Ht : forall go w2,
            (if sp then fsShowProgress w1 "Copying" path (u64 (pos + written)) total
             else (true, w1)) = (go, w2) -> w_errno w2 = w_errno w1).
  { intros go w2 E. destruct sp; [|now injection E as _ <-].
    replace w2 with (snd (fsShowProgress w1 "Copying" path (u64 (pos + written))
                            total)) by now rewrite E.
    apply fsShowProgress_errno. }
  destruct (if sp then _ else _) as [go w2]. specialize (Ht go w2 eq_refl).
  destruct go; cbn [negb]; [|cbn; discriminate].
  apply IH. now rewrite Ht, Hw.
Qed.

Lemma mkdir_fails_errno w p :
  fst (mkdir w p) <> 0 -> w_errno (snd (mkdir w p)) <> ENOTSUP.
Proof.
  unfold mkdir. destruct (lookup (w_fs w) (canon p)); [cbn; discriminate|].
  destruct (link w p (NDir [])); cbn; [intros H; now destruct H | discriminate].
Qed.

(** Only the guard sets [ENOTSUP], and the guard of an entry fires only if
    that of its directory would have: a copy whose source is spelled
    without a trailing slash, in a tree of good names, ends in false with
    [ENOTSUP] only if [dest] contains [path + "/"]. *)
Lemma refused_only_by_the_guard depth : forall w path dest sp w',
  named_plainly w -> ~ ends_in_slash path ->
  fsPathCopy depth w path dest sp = (Some false, w') ->
  w_errno w' = ENOTSUP ->
  contains (path ++ "/") dest.
Proof.
  induction depth as [|n IH]; intros w path dest sp w' Hw Hp H Herr;
    cbn [fsPathCopy] in H; [discriminate|].
  destruct (fsExists w dest) as [found w1] eqn:E1.
  assert (Hfs1 : w_fs w1 = w_fs w).
  { replace w1 with (snd (fsExists w dest)) by now rewrite E1.
    unfold fsExists, fopen_r, fsIsDirectory, opendir.
    destruct (lookup (w_fs w) (canon dest)) as [[d|names]|] eqn:E;
      cbn [w_fs set_errno]; rewrite ?E; reflexivity. }
  destruct found; [injection H as <-; discriminate Herr|].
  assert (Hgo : exists go w2,
            (if sp then fsShowProgress w1 "Copying" path 0 1 else (true, w1))
              = (go, w2) /\ w_fs w2 = w_fs w1).
  { destruct sp.
    - eexists. eexists. split; [apply surjective_pairing | apply fsShowProgress_fs].
    - exists true, w1. split; reflexivity. }
  destruct Hgo as (go & w2 & Hgo & Hfs2). rewrite Hgo in H. clear Hgo.
  destruct go; cbn [negb] in H; [|injection H as <-; discriminate Herr].
  destruct (fsIsDirectory w2 path) as [isDir w3] eqn:E3.
  destruct isDir.
  - assert (Hw3 : w3 = w2).
    { unfold fsIsDirectory, opendir in E3.
      destruct (lookup (w_fs w2) (canon path)) as [[d|names]|]; congruence. }
    subst w3.
    destruct (is_npos (find (path ++ "/") dest)) eqn:Hfind; cbn [negb] in H;
      [|now apply find_spec].
    pose proof (mkdir_fails_errno w2 dest) as Hmk.
    pose proof (named_plainly_mkdir w2 dest) as Hw4.
    destruct (mkdir w2 dest) as [rc w4]. cbn [fst snd] in Hmk, Hw4.
    destruct (Z.eqb_spec rc 0) as [->|Hrc]; cbn [negb] in H;
      [|injection H as <-; now destruct (Hmk Hrc)].
    assert (Hgo : exists go w5,
              (if sp then fsShowProgress w4 "Copying" path 1 2 else (true, w4))
                = (go, w5) /\ w_fs w5 = w_fs w4).
    { destruct sp.
      - eexists. eexists. split; [apply surjective_pairing | apply fsShowProgress_fs].
      - exists true, w4. split; reflexivity. }
    destruct Hgo as (go & w5 & Hgo & Hfs5). rewrite Hgo in H. clear Hgo.
    destruct go; cbn [negb] in H; [|injection H as <-; discriminate Herr].
    assert (Hw5 : named_plainly w5).
    { apply (named_plainly_fs w4 w5 Hfs5), Hw4.
      apply (named_plainly_fs w w2); [congruence | exact Hw]. }
    unfold fsGetDirectoryContents, opendir in H.
    rewrite (hasSlash_false path Hp) in H.
    destruct (lookup (w_fs w5) (canon (path ++ "/"))) as [[d|names]|] eqn:El;
      try discriminate.
    pose proof (Hw5 _ _ El) as Hnames. clear El.
    revert H Hw5. generalize w5. clear - IH Hp Hnames Herr.
    induction names as [|name rest IHr]; intros w5 H Hw5; cbn [map copy_children] in H;
      [discriminate|].
    apply Forall_cons_iff in Hnames as [Hname Hrest]. cbn [fi_path fi_name] in H.
    destruct (fsPathCopy n w5 ((path ++ "/") ++ name) (dest ++ "/" ++ name) sp)
      as [[[|]|] w6] eqn:Ec.
    + apply (IHr Hrest w6 H). eapply named_plainly_copy; eassumption.
    + injection H as <-. apply (contains_child path dest name).
      rewrite string_app_assoc in Ec.
      apply (IH w5 _ _ sp w6 Hw5 (child_no_trailing_slash path name Hname) Ec Herr).
    + discriminate.
  - exfalso.
    assert (H3 : w_errno w3 <> ENOTSUP).
    { unfold fsIsDirectory, opendir in E3.
      destruct (lookup (w_fs w2) (canon path)) as [[d|names]|];
        try discriminate; injection E3 as <-; cbn; discriminate. }
    pose proof (fsGetFileSize_errno w3 path H3) as H4.
    destruct (fsGetFileSize w3 path) as [total w4]. cbn [snd] in H4.
    cbv zeta in H.
    pose proof (fopen_r_errno w4 path H4) as H5.
    destruct (fopen_r w4 path) as [fp w5]. cbn [snd] in H5.
    pose proof (fopen_w_errno w5 dest H5) as H6.
    destruct (fopen_w w5 dest) as [fd w6]. cbn [snd] in H6.
    destruct fp as [fp|]; [|discriminate].
    destruct (fd && malloc w4 _); [|discriminate].
    match type of H with
    | context [copy_loop ?t ?a ?b ?c ?e ?g ?h ?i ?j ?k] =>
        pose proof (copy_loop_errno t a b c e g h i j k H6) as H7;
        destruct (copy_loop t a b c e g h i j k) as [[ret pos] w7]
    end.
    cbn [snd] in H7. injection H as _ <-. contradiction.
Qed.

(** The two conditions on a given tree and path, by computation. *)
Lemma good_nameb_spec name : good_nameb name = true -> good_name name.
Proof.
  unfold good_nameb. intros H. apply andb_prop in H as [Hne Hno]. split.
  - intros ->. discriminate Hne.
  - intros Hc. apply find_spec in Hc. congruence.
Qed.

Lemma named_plainly_check w : named_plainlyb (w_fs w) = true -> named_plainly w.
Proof.
  unfold named_plainly, named_plainlyb. induction (w_fs w) as [|[k n] rest IH];
    intros H key names Hk; cbn [lookup] in Hk; [discriminate|].
  cbn [forallb snd] in H. apply andb_prop in H as [Hn Hrest].
  destruct (String.eqb k key); [|exact (IH Hrest key names Hk)].
  injection Hk as ->. apply Forall_forall. intros name Hin.
  apply good_nameb_spec. rewrite forallb_forall in Hn. now apply Hn.
Qed.

Lemma no_trailing_slash_check s : hasSlash s = false -> ~ ends_in_slash s.
Proof. intros H Hs. apply hasSlash_iff in Hs. congruence. Qed.

(** C4, as the code has it.  Let [src] be a directory, spelled without a
    trailing slash, in a tree whose directories list names that are not
    empty and have no slash; let [dest] name nothing yet, and let B not be
    pressed at the first progress tick when progress is shown.  Then the
    copy ends in false with [errno = ENOTSUP] exactly when [dest] contains
    [src + "/"] at any position, as a prefix or further inside; and then
    the file tree is untouched. *)
Theorem copy_refused_iff_dest_contains_src :
  forall (depth : nat) (w : World) (src dest : string) (showProgress : bool)
         (names : list string) (r : option bool) (w' : World),
    lookup (w_fs w) (canon src) = Some (NDir names) ->
    ~ ends_in_slash src ->
    named_plainly w ->
    lookup (w_fs w) (canon dest) = None ->
    (showProgress = true -> hd false (w_pad w) = false) ->
    fsPathCopy (S depth) w src dest showProgress = (r, w') ->
    ((r = Some false /\ w_errno w' = ENOTSUP) <-> contains (src ++ "/") dest)
    /\ (contains (src ++ "/") dest -> w_fs w' = w_fs w).
Proof.
  intros depth w src dest sp names r w' Hsrc Hslash Hnames Hdest Hpad H.
  assert (Hfwd : r = Some false /\ w_errno w' = ENOTSUP ->
                 contains (src ++ "/") dest).
  { intros [-> Herr].
    exact (refused_only_by_the_guard (S depth) w src dest sp w' Hnames Hslash H Herr). }
  cbn [fsPathCopy] in H.
  rewrite (fsExists_unbound w dest Hdest) in H.
  set (w1 := set_errno ENOENT w) in H.
  assert (Hgo : exists w2,
            (if sp then fsShowProgress w1 "Copying" src 0 1 else (true, w1))
              = (true, w2) /\ w_fs w2 = w_fs w).
  { destruct sp.
    - exists (snd (fsShowProgress w1 "Copying" src 0 1)). split.
      + rewrite (surjective_pairing (fsShowProgress w1 "Copying" src 0 1)).
        rewrite fsShowProgress_go. unfold w1. cbn [w_pad set_errno].
        now rewrite (Hpad eq_refl).
      + now rewrite fsShowProgress_fs.
    - exists w1. split; reflexivity. }
  destruct Hgo as (w2 & Hgo & Hfs2). rewrite Hgo in H. clear Hgo. cbn [negb] in H.
  rewrite (fsIsDirectory_dir w2 src names) in H by (rewrite Hfs2; exact Hsrc).
  destruct (is_npos (find (src ++ "/") dest)) eqn:Hfind; cbn [negb] in H.
  - (* the guard lets the copy through *)
    assert (Hno : ~ contains (src ++ "/") dest).
    { intros Hc. apply find_spec in Hc. congruence. }
    split; [split; [exact Hfwd | intros Hc; contradiction]
           | intros Hc; contradiction].
  - (* the guard fires *)
    injection H as <- <-.
    split; [split; [exact Hfwd | intros _; split; reflexivity]
           | intros _; exact Hfs2].
Qed.

Lemma copy_refused_iff_dest_contains_src_witness :
  ((Some false = Some false
    /\ w_errno (snd (fsPathCopy 3 (sample []) "/d" "/x/d/y" true)) = ENOTSUP)
   <-> contains ("/d" ++ "/") "/x/d/y")
  /\ (contains ("/d" ++ "/") "/x/d/y" ->
      w_fs (snd (fsPathCopy 3 (sample []) "/d" "/x/d/y" true)) = w_fs (sample [])).
Proof.
  apply (copy_refused_iff_dest_contains_src 2 (sample []) "/d" "/x/d/y" true
           ["."; ".."; "b.txt"; "A"; "a.txt"; "B"]%string (Some false)
           (snd (fsPathCopy 3 (sample []) "/d" "/x/d/y" true))).
  - reflexivity.
  - apply no_trailing_slash_check. reflexivity.
  - apply named_plainly_check. reflexivity.
  - reflexivity.
  - reflexivity.
  - reflexivity.
Defined.

(** C4 as stated fails in both directions: [/x/d/y] does not start with
    [/d/], yet the copy of the directory [/d] to it is refused with
    [ENOTSUP]; [/d/A] starts with [/d/], yet the copy to it fails with
    [EEXIST], because that test comes first. *)
Lemma copy_guard_is_not_a_prefix_test :
  (fst (fsIsDirectory (sample []) "/d") = true
   /\ String.prefix ("/d" ++ "/") "/x/d/y" = false
   /\ fst (fsPathCopy 3 (sample []) "/d" "/x/d/y" false) = Some false
   /\ w_errno (snd (fsPathCopy 3 (sample []) "/d" "/x/d/y" false)) = ENOTSUP)
  /\
  (String.prefix ("/d" ++ "/") "/d/A" = true
   /\ fst (fsPathCopy 3 (sample []) "/d" "/d/A" false) = Some false
   /\ w_errno (snd (fsPathCopy 3 (sample []) "/d" "/d/A" false)) = EEXIST).
Proof. vm_compute. repeat split. Qed.

(** Why the source is taken without a trailing slash.  The guard looks for
    [path + "/"]: for the directory [/d] given as [/d/] that is [/d//],
    which [/d/x] does not contain.  The copy gets past the guard, creates
    [/d/x] and copies the entries of [/d] into it, until it reaches the
    entry [x] itself: the copy of [/d/x] to [/d/x/x] is the one the guard
    refuses.  The call ends in false with [ENOTSUP] and a changed tree. *)
Lemma source_with_trailing_slash_passes_the_guard :
  is_npos (find ("/d/" ++ "/") "/d/x") = true
  /\ fst (fsPathCopy 5 (plain_sample []) "/d/" "/d/x" false) = Some false
  /\ w_errno (snd (fsPathCopy 5 (plain_sample []) "/d/" "/d/x" false)) = ENOTSUP
  /\ option_map file_bytes
       (file_at (snd (fsPathCopy 5 (plain_sample []) "/d/" "/d/x" false))
          "/d/x/b.txt")
     = Some [1; 2; 3]
  /\ fst (fsPathCopy 5 (plain_sample []) "/d" "/d/x" false) = Some false
  /\ w_fs (snd (fsPathCopy 5 (plain_sample []) "/d" "/d/x" false))
     = w_fs (plain_sample []).
Proof. vm_compute. repeat split. Qed.

(** ** fsGetFileSize *)

Lemma fsGetFileSize_file w p d :
  lookup (w_fs w) (canon p) = Some (NFile d) ->
  fsGetFileSize w p = (u32 (f_size d), w).
Proof. intros H. unfold fsGetFileSize, stat. now rewrite H. Qed.

Lemma fsGetFileSize_missing w p :
  lookup (w_fs w) (canon p) = None ->
  fsGetFileSize w p = (u32 (w_junk w), set_errno ENOENT w).
Proof. intros H. unfold fsGetFileSize, stat. now rewrite H. Qed.

(** C5, where [stat] fails.  For a path that names nothing [stat] leaves
    [st] as it was, and the function returns whatever the uninitialised
    [st.st_size] held, here 7, not 0. *)
Theorem fsGetFileSize_of_missing_path_is_not_zero :
  lookup (w_fs (sample [])) (canon "/nope") = None
  /\ w_junk (sample []) = 7
  /\ fst (fsGetFileSize (sample []) "/nope") = 7.
Proof. repeat split. Qed.

(** ** Earlier history is carried along *)

Section History.

Variable s : list Shown.
Variable c : list (Z * Z).
Variable o : list string.

Let H := with_history s c o.

Lemma fopen_r_history w p :
  fopen_r (H w) p = (fst (fopen_r w p), H (snd (fopen_r w p))).
Proof.
  unfold fopen_r, H, with_history. cbn.
  destruct (lookup (w_fs w) (canon p)) as [[d|names]|]; cbn; try reflexivity.
  unfold set_opens, set_screen, set_calls; cbn. now rewrite app_assoc.
Qed.

Lemma opendir_history w p :
  opendir (H w) p = (fst (opendir w p), H (snd (opendir w p))).
Proof.
  unfold opendir, H, with_history. cbn.
  destruct (lookup (w_fs w) (canon p)) as [[d|names]|]; reflexivity.
Qed.

Lemma fsIsDirectory_history w p :
  fsIsDirectory (H w) p = (fst (fsIsDirectory w p), H (snd (fsIsDirectory w p))).
Proof.
  unfold fsIsDirectory. rewrite opendir_history.
  destruct (opendir w p) as [[names|] w1]; reflexivity.
Qed.

Lemma fsExists_history w p :
  fsExists (H w) p = (fst (fsExists w p), H (snd (fsExists w p))).
Proof.
  unfold fsExists. rewrite fopen_r_history.
  destruct (fopen_r w p) as [[d|] w1]; cbn [fst snd]; [reflexivity|].
  apply fsIsDirectory_history.
Qed.

Lemma fsGetFileSize_history w p :
  fsGetFileSize (H w) p = (fst (fsGetFileSize w p), H (snd (fsGetFileSize w p))).
Proof.
  unfold fsGetFileSize, stat, H, with_history. cbn.
  destruct (lookup (w_fs w) (canon p)) as [[d|names]|]; reflexivity.
Qed.

Lemma fsGetDirectoryContents_history w p :
  fsGetDirectoryContents (H w) p =
    (fst (fsGetDirectoryContents w p), H (snd (fsGetDirectoryContents w p))).
Proof.
  unfold fsGetDirectoryContents. rewrite opendir_history.
  destruct (opendir w _) as [[names|] w1]; reflexivity.
Qed.

Lemma mkdir_history w p :
  mkdir (H w) p = (fst (mkdir w p), H (snd (mkdir w p))).
Proof.
  unfold mkdir, link, H, with_history. cbn.
  destruct (lookup (w_fs w) (canon p)); [reflexivity|].
  destruct (parent_of p) as [dir base].
  destruct (lookup (w_fs w) dir) as [[d|names]|]; reflexivity.
Qed.

Lemma fopen_w_history w p :
  fopen_w (H w) p = (fst (fopen_w w p), H (snd (fopen_w w p))).
Proof.
  unfold fopen_w, link, H, with_history. cbn.
  destruct (lookup (w_fs w) (canon p)) as [[d|names]|]; cbn; try reflexivity.
  - unfold set_opens, set_screen, set_calls, set_fs; cbn. now rewrite app_assoc.
  - destruct (parent_of p) as [dir base].
    destruct (lookup (w_fs w) dir) as [[d|names]|]; cbn; try reflexivity.
    unfold set_opens, set_screen, set_calls, set_fs; cbn. now rewrite app_assoc.
Qed.

Lemma fwrite_history w p data :
  fwrite (H w) p data = (fst (fwrite w p data), H (snd (fwrite w p data))).
Proof.
  unfold fwrite, H, with_history. cbn.
  destruct (lookup (w_fs w) (canon p)) as [[d|names]|]; reflexivity.
Qed.

Lemma malloc_history w n : malloc (H w) n = malloc w n.
Proof. reflexivity. Qed.

Lemma fsShowProgress_history w op path pos total :
  fsShowProgress (H w) op path pos total =
    (fst (fsShowProgress w op path pos total),
     H (snd (fsShowProgress w op path pos total))).
Proof.
  unfold fsShowProgress. cbv zeta.
  generalize (u32 (u64 (pos * 100) / total)). intros progress.
  unfold hid_poll_pressed_B, H, with_history.
  cbn [w_prevProgress w_pad w_screen w_calls w_opens
       set_calls set_screen set_opens set_prevProgress set_pad].
  destruct (negb (w_prevProgress w =? progress));
    cbn [w_prevProgress w_pad w_screen w_calls w_opens
         set_calls set_screen set_opens set_prevProgress set_pad];
    destruct (w_pad w);
    cbn [fst snd w_fs w_free w_heap w_errno w_junk
         w_prevProgress w_pad w_screen w_calls w_opens
         set_calls set_screen set_opens set_prevProgress set_pad];
    rewrite <- ?app_assoc; reflexivity.
Qed.

Lemma set_errno_history e w : set_errno e (H w) = H (set_errno e w).
Proof. reflexivity. Qed.

End History.

Section HistoryOfOperations.

Variable s : list Shown.
Variable c : list (Z * Z).
Variable o : list string.

Let H := with_history s c o.

Lemma copy_loop_history turns : forall w path dest sp fp rpos l_bufsiz pos total,
  copy_loop turns (H w) path dest sp fp rpos l_bufsiz pos total =
    let '(ret, pos', w') :=
      copy_loop turns w path dest sp fp rpos l_bufsiz pos total in
    (ret, pos', H w').
Proof.
  induction turns as [|n IH]; intros; cbn [copy_loop]; [reflexivity|].
  cbv zeta. destruct (_ >? 0); [|reflexivity].
  unfold H. rewrite fwrite_history. fold H.
  destruct (fwrite w dest _) as [written w1]. cbn [fst snd].
  destruct sp.
  - unfold H. rewrite fsShowProgress_history. fold H.
    destruct (fsShowProgress w1 _ _ _ _) as [go w2]. cbn [fst snd].
    destruct go; cbn [negb]; [apply IH | reflexivity].
  - cbn [negb]. apply IH.
Qed.

Lemma copy_children_history copy dest sp contents : forall w,
  (forall w path dest sp,
     copy (H w) path dest sp = (fst (copy w path dest sp), H (snd (copy w path dest sp)))) ->
  copy_children copy dest sp contents (H w) =
    (fst (copy_children copy dest sp contents w),
     H (snd (copy_children copy dest sp contents w))).
Proof.
  induction contents as [|it rest IHc]; intros w Hcopy; cbn [copy_children];
    [reflexivity|].
  rewrite Hcopy.
  destruct (copy w (fi_path it) _ sp) as [[[|]|] w1]; cbn [fst snd];
    [apply IHc; exact Hcopy | reflexivity | reflexivity].
Qed.

Lemma fsPathCopy_history depth : forall w path dest sp,
  fsPathCopy depth (H w) path dest sp =
    (fst (fsPathCopy depth w path dest sp),
     H (snd (fsPathCopy depth w path dest sp))).
Proof.
  induction depth as [|d IH]; intros; cbn [fsPathCopy]; [reflexivity|].
  unfold H. rewrite fsExists_history. fold H.
  destruct (fsExists w dest) as [found w1]. cbn [fst snd].
  destruct found; [reflexivity|].
  assert (Hgo : (if sp then fsShowProgress (H w1) "Copying" path 0 1
                 else (true, H w1)) =
                (fst (if sp then fsShowProgress w1 "Copying" path 0 1 else (true, w1)),
                 H (snd (if sp then fsShowProgress w1 "Copying" path 0 1
                         else (true, w1))))).
  { destruct sp; [apply fsShowProgress_history | reflexivity]. }
  rewrite Hgo. clear Hgo.
  destruct (if sp then fsShowProgress w1 "Copying" path 0 1 else (true, w1))
    as [go w2]. cbn [fst snd].
  destruct go; cbn [negb]; [|reflexivity].
  unfold H. rewrite fsIsDirectory_history. fold H.
  destruct (fsIsDirectory w2 path) as [isDir w3]. cbn [fst snd].
  destruct isDir.
  - destruct (negb (is_npos _)); [reflexivity|].
    unfold H. rewrite mkdir_history. fold H.
    destruct (mkdir w3 dest) as [rc w4]. cbn [fst snd].
    destruct (negb (rc =? 0)); [reflexivity|].
    assert (Hgo : (if sp then fsShowProgress (H w4) "Copying" path 1 2
                   else (true, H w4)) =
                  (fst (if sp then fsShowProgress w4 "Copying" path 1 2 else (true, w4)),
                   H (snd (if sp then fsShowProgress w4 "Copying" path 1 2
                           else (true, w4))))).
    { destruct sp; [apply fsShowProgress_history | reflexivity]. }
    rewrite Hgo. clear Hgo.
    destruct (if sp then fsShowProgress w4 "Copying" path 1 2 else (true, w4))
      as [go w5]. cbn [fst snd].
    destruct go; cbn [negb]; [|reflexivity].
    unfold H. rewrite fsGetDirectoryContents_history. fold H.
    destruct (fsGetDirectoryContents w5 path) as [contents w6]. cbn [fst snd].
    rewrite copy_children_history by exact IH.
    destruct (copy_children _ _ _ _ w6); reflexivity.
  - unfold H. rewrite fsGetFileSize_history. fold H.
    destruct (fsGetFileSize w3 path) as [total w4]. cbn [fst snd].
    unfold H. rewrite fopen_r_history. fold H.
    destruct (fopen_r w4 path) as [fp w5]. cbn [fst snd].
    unfold H. rewrite fopen_w_history. fold H.
    destruct (fopen_w w5 dest) as [fd w6]. cbn [fst snd].
    destruct fp as [fp|]; [|reflexivity].
    change (malloc (H w4)) with (malloc w4).
    destruct (fd && malloc w4 _); [|reflexivity].
    rewrite copy_loop_history.
    destruct (copy_loop _ w6 _ _ _ _ _ _ _ _) as [[ret pos] w7]. reflexivity.
Qed.

Lemma write_loop_history turns : forall w path buffer sp size count l_bufsiz pos,
  write_loop turns (H w) path buffer sp size count l_bufsiz pos =
    (fst (write_loop turns w path buffer sp size count l_bufsiz pos),
     H (snd (write_loop turns w path buffer sp size count l_bufsiz pos))).
Proof.
  induction turns as [|n IH]; intros; cbn [write_loop]; [reflexivity|].
  destruct (count <? size); [|reflexivity].
  cbv zeta. unfold H. rewrite fwrite_history. fold H.
  destruct (fwrite w path _) as [written w1]. cbn [fst snd].
  destruct sp.
  - unfold H. rewrite fsShowProgress_history. fold H.
    destruct (fsShowProgress w1 _ _ _ _) as [go w2]. cbn [fst snd].
    destruct go; cbn [negb]; [apply IH | reflexivity].
  - cbn [negb]. apply IH.
Qed.

Lemma fsCreateDummyFile_history w path size content sp :
  fsCreateDummyFile (H w) path size content sp =
    (fst (fsCreateDummyFile w path size content sp),
     H (snd (fsCreateDummyFile w path size content sp))).
Proof.
  unfold fsCreateDummyFile.
  unfold H. rewrite fsExists_history. fold H.
  destruct (fsExists w path) as [found w1]. cbn [fst snd].
  destruct found; [reflexivity|].
  cbv zeta.
  set (sp' := if size <? CTRX_BUFSIZ then false else sp).
  assert (Hw2 : (if sp' then snd (fsShowProgress (H w1) "Generating" path 0 1)
                 else H w1) =
                H (if sp' then snd (fsShowProgress w1 "Generating" path 0 1) else w1)).
  { destruct sp'; [|reflexivity]. unfold H. now rewrite fsShowProgress_history. }
  rewrite Hw2. clear Hw2.
  set (w2 := if sp' then snd (fsShowProgress w1 "Generating" path 0 1) else w1).
  change (malloc (H w2)) with (malloc w2).
  unfold H. rewrite fopen_w_history. fold H.
  destruct (fopen_w w2 path) as [fp w3]. cbn [fst snd].
  destruct (fp && malloc w2 _); [|reflexivity].
  rewrite write_loop_history.
  destruct (write_loop _ w3 _ _ _ _ _ _ _) as [pos w4]. reflexivity.
Qed.

End HistoryOfOperations.

Lemma with_history_blank w :
  with_history (w_screen w) (w_calls w) (w_opens w) (blank w) = w.
Proof.
  destruct w. unfold with_history, blank, set_screen, set_calls, set_opens. cbn.
  now rewrite !app_nil_r.
Qed.

Lemma reports_between_history s c o w w' :
  reports_between (with_history s c o w) (with_history s c o w')
    = reports_between w w'.
Proof.
  unfold reports_between, with_history. cbn.
  rewrite length_app, skipn_app, skipn_all2 by lia. cbn [app].
  f_equal. lia.
Qed.

(** ** What an operation does not look at *)

Lemma fsGetFileSize_fs w p : w_fs (snd (fsGetFileSize w p)) = w_fs w.
Proof.
  unfold fsGetFileSize, stat.
  destruct (lookup (w_fs w) (canon p)) as [[d|names]|]; reflexivity.
Qed.

Lemma fopen_r_fs w p : w_fs (snd (fopen_r w p)) = w_fs w.
Proof.
  unfold fopen_r.
  destruct (lookup (w_fs w) (canon p)) as [[d|names]|]; reflexivity.
Qed.

Ltac same_fields :=
  match goal with
  | H : alike ?w1 ?w2 |- _ =>
      destruct H as ((?Hfs & ?Hfree & ?Hheap & ?Hpad & ?Hprev)
                     & ?Hscreen & ?Hcalls & ?Hopens);
      destruct w1 as [fs1 free1 heap1 errno1 junk1 prev1 pad1 screen1 calls1 opens1];
      destruct w2 as [fs2 free2 heap2 errno2 junk2 prev2 pad2 screen2 calls2 opens2];
      cbn [w_fs w_free w_heap w_pad w_prevProgress w_screen w_calls w_opens] in *;
      subst
  end.

Ltac alike_done := repeat split; reflexivity.

Lemma alike_errno w1 w2 e1 e2 :
  alike w1 w2 -> alike (set_errno e1 w1) (set_errno e2 w2).
Proof. intros H. exact H. Qed.

Lemma fopen_r_alike w1 w2 p :
  alike w1 w2 ->
  fst (fopen_r w1 p) = fst (fopen_r w2 p)
  /\ alike (snd (fopen_r w1 p)) (snd (fopen_r w2 p)).
Proof.
  intros H. same_fields. unfold fopen_r. cbn [w_fs].
  destruct (lookup fs2 (canon p)) as [[d|names]|]; alike_done.
Qed.

Lemma fsIsDirectory_alike w1 w2 p :
  alike w1 w2 ->
  fst (fsIsDirectory w1 p) = fst (fsIsDirectory w2 p)
  /\ alike (snd (fsIsDirectory w1 p)) (snd (fsIsDirectory w2 p)).
Proof.
  intros H. same_fields. unfold fsIsDirectory, opendir. cbn [w_fs].
  destruct (lookup fs2 (canon p)) as [[d|names]|]; alike_done.
Qed.

Lemma fsExists_alike w1 w2 p :
  alike w1 w2 ->
  fst (fsExists w1 p) = fst (fsExists w2 p)
  /\ alike (snd (fsExists w1 p)) (snd (fsExists w2 p)).
Proof.
  intros H. same_fields. unfold fsExists, fopen_r, fsIsDirectory, opendir.
  cbn [w_fs].
  destruct (lookup fs2 (canon p)) as [[d|names]|] eqn:E; cbn [w_fs set_errno];
    rewrite ?E; alike_done.
Qed.

(** The size is the same wherever [stat] fills it in; for a path that
    names nothing it is the stale slot, which may differ. *)
Lemma fsGetFileSize_alike w1 w2 p :
  alike w1 w2 ->
  (lookup (w_fs w1) (canon p) <> None ->
   fst (fsGetFileSize w1 p) = fst (fsGetFileSize w2 p))
  /\ alike (snd (fsGetFileSize w1 p)) (snd (fsGetFileSize w2 p)).
Proof.
  intros H. same_fields. unfold fsGetFileSize, stat. cbn [w_fs w_junk].
  destruct (lookup fs2 (canon p)) as [[d|names]|]; cbn [fst snd];
    split; try reflexivity; try alike_done.
  intros Hn. now destruct Hn.
Qed.

Lemma fsGetDirectoryContents_alike w1 w2 p :
  alike w1 w2 ->
  fst (fsGetDirectoryContents w1 p) = fst (fsGetDirectoryContents w2 p)
  /\ alike (snd (fsGetDirectoryContents w1 p)) (snd (fsGetDirectoryContents w2 p)).
Proof.
  intros H. same_fields. unfold fsGetDirectoryContents, opendir. cbn [w_fs].
  destruct (lookup fs2 (canon _)) as [[d|names]|]; alike_done.
Qed.

Lemma mkdir_alike w1 w2 p :
  alike w1 w2 ->
  fst (mkdir w1 p) = fst (mkdir w2 p)
  /\ alike (snd (mkdir w1 p)) (snd (mkdir w2 p)).
Proof.
  intros H. same_fields. unfold mkdir, link. cbn [w_fs].
  destruct (lookup fs2 (canon p)) as [n|]; [alike_done|].
  destruct (parent_of p) as [dir base].
  destruct (lookup fs2 dir) as [[d|names]|]; alike_done.
Qed.

Lemma fopen_w_alike w1 w2 p :
  alike w1 w2 ->
  fst (fopen_w w1 p) = fst (fopen_w w2 p)
  /\ alike (snd (fopen_w w1 p)) (snd (fopen_w w2 p)).
Proof.
  intros H. same_fields. unfold fopen_w, link. cbn [w_fs w_opens].
  destruct (lookup fs2 (canon p)) as [[d|names]|]; try alike_done.
  destruct (parent_of p) as [dir base].
  destruct (lookup fs2 dir) as [[d|names]|]; alike_done.
Qed.

Lemma fwrite_alike w1 w2 p data :
  alike w1 w2 ->
  fst (fwrite w1 p data) = fst (fwrite w2 p data)
  /\ alike (snd (fwrite w1 p data)) (snd (fwrite w2 p data)).
Proof.
  intros H. same_fields. unfold fwrite. cbn [w_fs w_free].
  destruct (lookup fs2 (canon p)) as [[d|names]|]; alike_done.
Qed.

Lemma malloc_alike w1 w2 n : alike w1 w2 -> malloc w1 n = malloc w2 n.
Proof. intros ((_ & _ & Hheap & _) & _). unfold malloc. now rewrite Hheap. Qed.

Lemma fsShowProgress_alike w1 w2 op path pos total :
  alike w1 w2 ->
  fst (fsShowProgress w1 op path pos total) = fst (fsShowProgress w2 op path pos total)
  /\ alike (snd (fsShowProgress w1 op path pos total))
           (snd (fsShowProgress w2 op path pos total)).
Proof.
  intros H. same_fields. unfold fsShowProgress, hid_poll_pressed_B. cbv zeta.
  generalize (u32 (u64 (pos * 100) / total)). intros progress.
  cbn [w_prevProgress w_pad w_screen w_calls set_calls set_screen set_prevProgress].
  destruct (negb (prev2 =? progress)), pad2; alike_done.
Qed.

Lemma tick_alike w1 w2 (sp : bool) op path pos total :
  alike w1 w2 ->
  fst (if sp then fsShowProgress w1 op path pos total else (true, w1))
  = fst (if sp then fsShowProgress w2 op path pos total else (true, w2))
  /\ alike (snd (if sp then fsShowProgress w1 op path pos total else (true, w1)))
           (snd (if sp then fsShowProgress w2 op path pos total else (true, w2))).
Proof.
  intros H. destruct sp; [now apply fsShowProgress_alike | now split].
Qed.

(** Take two runs of a step apart: the results are the same and the worlds
    after it are alike. *)
Ltac step_alike lem :=
  let Hr := fresh "Hr" in
  let Ha := fresh "Ha" in
  destruct lem as [Hr Ha];
  match type of Hr with
  | fst ?x = fst ?y =>
      let r1 := fresh "r" in
      let r2 := fresh "r" in
      let v1 := fresh "w1" in
      let v2 := fresh "w2" in
      destruct x as [r1 v1]; destruct y as [r2 v2];
      cbn [fst snd] in Hr, Ha; subst r2
  end.

Lemma copy_loop_alike turns : forall w1 w2 path dest sp fp rpos l_bufsiz pos total,
  alike w1 w2 ->
  fst (copy_loop turns w1 path dest sp fp rpos l_bufsiz pos total)
  = fst (copy_loop turns w2 path dest sp fp rpos l_bufsiz pos total)
  /\ alike (snd (copy_loop turns w1 path dest sp fp rpos l_bufsiz pos total))
           (snd (copy_loop turns w2 path dest sp fp rpos l_bufsiz pos total)).
Proof.
  induction turns as [|n IH]; intros w1 w2 path dest sp fp rpos l pos total H;
    cbn [copy_loop]; [now split|].
  cbv zeta. destruct (_ >? 0); [|now split].
  step_alike (fwrite_alike w1 w2 dest (fread_at fp rpos l) H).
  step_alike (tick_alike w0 w3 sp "Copying" path (u64 (pos + r)) total Ha).
  destruct r0; cbn [negb]; [now apply IH|].
  split; [reflexivity | exact Ha0].
Qed.

Lemma copy_children_alike copy dest sp contents : forall w1 w2,
  (forall w1 w2 path dest sp, alike w1 w2 ->
     fst (copy w1 path dest sp) = fst (copy w2 path dest sp)
     /\ alike (snd (copy w1 path dest sp)) (snd (copy w2 path dest sp))) ->
  alike w1 w2 ->
  fst (copy_children copy dest sp contents w1)
  = fst (copy_children copy dest sp contents w2)
  /\ alike (snd (copy_children copy dest sp contents w1))
           (snd (copy_children copy dest sp contents w2)).
Proof.
  induction contents as [|it rest IH]; intros w1 w2 Hcopy H; cbn [copy_children];
    [now split|].
  step_alike (Hcopy w1 w2 (fi_path it) (dest ++ "/" ++ fi_name it)%string sp H).
  destruct r as [[|]|]; [now apply IH | now split | now split].
Qed.

Lemma fsPathCopy_alike depth : forall w1 w2 path dest sp,
  alike w1 w2 ->
  fst (fsPathCopy depth w1 path dest sp) = fst (fsPathCopy depth w2 path dest sp)
  /\ alike (snd (fsPathCopy depth w1 path dest sp))
           (snd (fsPathCopy depth w2 path dest sp)).
Proof.
  induction depth as [|n IH]; intros w1 w2 path dest sp H; cbn [fsPathCopy];
    [now split|].
  step_alike (fsExists_alike w1 w2 dest H).
  destruct r; [now split|].
  step_alike (tick_alike w0 w3 sp "Copying" path 0 1 Ha).
  destruct r; cbn [negb]; [|now split].
  step_alike (fsIsDirectory_alike w4 w5 path Ha0).
  destruct r.
  - destruct (negb (is_npos _)); [now split|].
    step_alike (mkdir_alike w6 w7 dest Ha1).
    destruct (negb (r =? 0)); [now split|].
    step_alike (tick_alike w8 w9 sp "Copying" path 1 2 Ha2).
    destruct r0; cbn [negb]; [|now split].
    step_alike (fsGetDirectoryContents_alike w10 w11 path Ha3).
    now apply copy_children_alike.
  - destruct (fsGetFileSize_alike w6 w7 path Ha1) as [Htotal Ha2].
    pose proof (fsGetFileSize_fs w6 path) as Hfs6.
    destruct (fsGetFileSize w6 path) as [total1 w8].
    destruct (fsGetFileSize w7 path) as [total2 w9].
    cbn [fst snd] in Htotal, Ha2, Hfs6. cbv zeta.
    pose proof (fopen_r_fs w8 path) as Hfs8.
    assert (Hmiss : fst (fopen_r w8 path) <> None -> total1 = total2).
    { intros Hfp. apply Htotal. intros Hnone. apply Hfp.
      unfold fopen_r. now rewrite Hfs6, Hnone. }
    step_alike (fopen_r_alike w8 w9 path Ha2). cbn [fst] in Hmiss.
    step_alike (fopen_w_alike w10 w11 dest Ha3).
    destruct r as [fp|]; [|now split].
    rewrite <- (Hmiss ltac:(discriminate)).
    rewrite <- (malloc_alike w8 w9 _ Ha2).
    destruct (r0 && malloc w8 _); [|now split].
    match goal with
    | |- context [copy_loop ?t w12 ?a ?b ?c ?d ?e ?f ?g ?h] =>
        destruct (copy_loop_alike t w12 w13 a b c d e f g h Ha4) as [Hl Hal];
        destruct (copy_loop t w12 a b c d e f g h) as [[ret1 pos1] wa];
        destruct (copy_loop t w13 a b c d e f g h) as [[ret2 pos2] wb]
    end.
    cbn [fst snd] in *. injection Hl as <- <-. now split.
Qed.

Lemma write_loop_alike turns : forall w1 w2 path buffer sp size count l_bufsiz pos,
  alike w1 w2 ->
  fst (write_loop turns w1 path buffer sp size count l_bufsiz pos)
  = fst (write_loop turns w2 path buffer sp size count l_bufsiz pos)
  /\ alike (snd (write_loop turns w1 path buffer sp size count l_bufsiz pos))
           (snd (write_loop turns w2 path buffer sp size count l_bufsiz pos)).
Proof.
  induction turns as [|n IH]; intros w1 w2 path buffer sp size count l pos H;
    cbn [write_loop]; [now split|].
  destruct (count <? size); [|now split]. cbv zeta.
  set (l' := if size - count <? l then size - count else l).
  step_alike (fwrite_alike w1 w2 path (firstn (Z.to_nat l') buffer) H).
  step_alike (tick_alike w0 w3 sp "Generating" path (u64 (pos + r)) size Ha).
  destruct r0; cbn [negb]; [now apply IH|].
  split; [reflexivity | exact Ha0].
Qed.

Lemma fsCreateDummyFile_alike w1 w2 path size content sp :
  alike w1 w2 ->
  fst (fsCreateDummyFile w1 path size content sp)
  = fst (fsCreateDummyFile w2 path size content sp)
  /\ alike (snd (fsCreateDummyFile w1 path size content sp))
           (snd (fsCreateDummyFile w2 path size content sp)).
Proof.
  intros H. unfold fsCreateDummyFile.
  step_alike (fsExists_alike w1 w2 path H).
  destruct r; [now split|]. cbv zeta.
  set (sp' := if size <? CTRX_BUFSIZ then false else sp).
  assert (Ha2 : alike
            (if sp' then snd (fsShowProgress w0 "Generating" path 0 1) else w0)
            (if sp' then snd (fsShowProgress w3 "Generating" path 0 1) else w3)).
  { destruct sp'; [|exact Ha]. now apply fsShowProgress_alike. }
  set (wa := if sp' then snd (fsShowProgress w0 "Generating" path 0 1) else w0) in *.
  set (wb := if sp' then snd (fsShowProgress w3 "Generating" path 0 1) else w3) in *.
  rewrite <- (malloc_alike wa wb _ Ha2).
  step_alike (fopen_w_alike wa wb path Ha2).
  destruct (r && malloc wa _); [|now split].
  match goal with
  | |- context [write_loop ?t w4 ?a ?b ?c ?d ?e ?f ?g] =>
      destruct (write_loop_alike t w4 w5 a b c d e f g Ha0) as [Hl Hal];
      destruct (write_loop t w4 a b c d e f g) as [pos1 wc];
      destruct (write_loop t w5 a b c d e f g) as [pos2 wd]
  end.
  cbn [fst snd] in *. subst pos2. now split.
Qed.

Lemma same_inputs_blank w1 w2 :
  same_inputs w1 w2 -> alike (blank w1) (blank w2).
Proof. intros H. split; [exact H | repeat split]. Qed.

Lemma reports_from_blank w w' :
  reports_between (blank w) w' = w_screen w'.
Proof. reflexivity. Qed.

(** C7, as the code has it.  The percentage last reported lives in one
    variable of the process ([static u32 prevProgress]), not in the call.
    What a copy or a dummy-file generation returns and which reports it
    displays is determined by its arguments, by what it finds to work on
    (the file tree, the room on the volume and on the heap, the answers of
    the pad) and by the value of [prevProgress] left by earlier calls.  Of
    the earlier history nothing else counts: two worlds that agree on
    these, whatever [errno], the stale stack slot of fsGetFileSize, the
    screen and the logs hold, give the same result and the same
    reports. *)
Theorem reports_depend_on_prevProgress_not_on_history :
  forall w1 w2 : World,
    same_inputs w1 w2 ->
    (forall depth path dest showProgress,
       fst (fsPathCopy depth w1 path dest showProgress)
         = fst (fsPathCopy depth w2 path dest showProgress)
       /\ reports_between w1 (snd (fsPathCopy depth w1 path dest showProgress))
          = reports_between w2 (snd (fsPathCopy depth w2 path dest showProgress)))
    /\
    (forall path size content showProgress,
       fst (fsCreateDummyFile w1 path size content showProgress)
         = fst (fsCreateDummyFile w2 path size content showProgress)
       /\ reports_between w1 (snd (fsCreateDummyFile w1 path size content showProgress))
          = reports_between w2 (snd (fsCreateDummyFile w2 path size content showProgress))).
Proof.
  intros w1 w2 Hsame. apply same_inputs_blank in Hsame.
  rewrite <- (with_history_blank w1), <- (with_history_blank w2).
  split; intros.
  - rewrite !fsPathCopy_history. cbn [fst snd].
    rewrite !reports_between_history, !reports_from_blank.
    destruct (fsPathCopy_alike depth _ _ path dest showProgress Hsame)
      as [Hr (_ & Hs & _)].
    now split.
  - rewrite !fsCreateDummyFile_history. cbn [fst snd].
    rewrite !reports_between_history, !reports_from_blank.
    destruct (fsCreateDummyFile_alike _ _ path size content showProgress Hsame)
      as [Hr (_ & Hs & _)].
    now split.
Qed.

Lemma reports_depend_on_prevProgress_not_on_history_witness :
  fst (fsPathCopy 3 (sample []) "/f.bin" "/g.bin" true)
    = fst (fsPathCopy 3
             (set_errno EEXIST
                (with_history [earlier_report] [(5, 7)] ["/old"%string]
                   (boot sample_fs 1000 1000 99 [])))
             "/f.bin" "/g.bin" true)
  /\ reports_between (sample [])
       (snd (fsPathCopy 3 (sample []) "/f.bin" "/g.bin" true))
     = reports_between
         (set_errno EEXIST
            (with_history [earlier_report] [(5, 7)] ["/old"%string]
               (boot sample_fs 1000 1000 99 [])))
         (snd (fsPathCopy 3
                 (set_errno EEXIST
                    (with_history [earlier_report] [(5, 7)] ["/old"%string]
                       (boot sample_fs 1000 1000 99 [])))
                 "/f.bin" "/g.bin" true)).
Proof.
  refine (proj1 (reports_depend_on_prevProgress_not_on_history (sample [])
                   (set_errno EEXIST
                      (with_history [earlier_report] [(5, 7)] ["/old"%string]
                         (boot sample_fs 1000 1000 99 [])))
                   _)
            3%nat "/f.bin"%string "/g.bin"%string true).
  repeat split.
Defined.

(** C7 as stated fails.  The same copy of [/f.bin] to [/g.bin] is made in a
    process that has just started and in one where an earlier copy was
    cancelled at its first tick (which left the tree, the free space and
    the pad as they were, and [prevProgress] at 0): the first displays 0
    and 100, the second only 100. *)
Lemma progress_reports_depend_on_earlier_calls :
  let earlier := snd (fsPathCopy 3 (sample [true]) "/f.bin" "/g.bin" true) in
  w_fs earlier = w_fs (sample [])
  /\ w_free earlier = w_free (sample [])
  /\ w_pad earlier = w_pad (sample [])
  /\ w_prevProgress earlier = 0
  /\ map sh_progress
       (reports_between (sample [])
          (snd (fsPathCopy 3 (sample []) "/f.bin" "/g.bin" true))) = [0; 100]
  /\ map sh_progress
       (reports_between earlier
          (snd (fsPathCopy 3 earlier "/f.bin" "/g.bin" true))) = [100].
Proof. vm_compute. repeat split. Qed.

(** ** Writing a file *)






Lemma f_byte_append d data i :
  0 <= f_size d <= i ->
  f_byte (f_append d data) i = bget data (i - f_size d).
Proof.
  intros H. cbn. destruct (Z.ltb_spec i (f_size d)); [lia | reflexivity].
Qed.

Lemma f_byte_append_old d data i :
  i < f_size d -> f_byte (f_append d data) i = f_byte d i.
Proof.
  intros H. cbn. destruct (Z.ltb_spec i (f_size d)); [reflexivity | lia].
Qed.

(** ** The two fills of the buffer *)









Lemma u64_small x : 0 <= x < 2 ^ 64 -> u64 x = x.
Proof. intros. unfold u64. apply Z.mod_small. lia. Qed.

(** ** The write loop *)

Section WriteLoop.

Variable path : string.
Variable buffer : list Z.
Variable showProgress : bool.
Variables size L0 : Z.
Variable pat : Z -> Z.

Hypothesis size_u64 : 0 <= size < 2 ^ 64.
Hypothesis buffer_len : blen buffer = L0.
Hypothesis buffer_pat : forall j, 0 <= j < L0 -> bget buffer j = pat j.
Hypothesis pat_period : forall c j, (256 | c) -> pat (c + j) = pat j.
Hypothesis L0_pos : 0 < size -> 0 < L0.
Hypothesis L0_chunk : L0 = size \/ (256 | L0).


End WriteLoop.

(** ** fsCreateDummyFile *)








(** ** The turns of the two loops are never used up *)

Lemma write_loop_turns path buffer sp size n : forall m w count l_bufsiz pos,
  0 < l_bufsiz -> 0 <= count -> size < 2 ^ 64 ->
  (Z.to_nat (size - count) < n)%nat -> (Z.to_nat (size - count) < m)%nat ->
  write_loop n w path buffer sp size count l_bufsiz pos
    = write_loop m w path buffer sp size count l_bufsiz pos.
Proof.
  induction n as [|n IH]; intros m w count l pos Hl Hc Hs Hn Hm; [lia|].
  destruct m as [|m]; [lia|]. cbn [write_loop].
  destruct (Z.ltb_spec count size); [|reflexivity]. cbv zeta.
  set (l' := if size - count <? l then size - count else l).
  assert (Hl' : 0 < l' <= size - count)
    by (unfold l'; destruct (Z.ltb_spec (size - count) l); lia).
  destruct (fwrite w path _) as [written w1].
  destruct (if sp then _ else _) as [go w2].
  destruct go; cbn [negb]; [|reflexivity].
  rewrite (u64_small (count + l')) by lia.
  apply IH; lia.
Qed.

Lemma copy_loop_turns path dest sp fp l_bufsiz total n : forall m w rpos pos,
  (Z.to_nat (f_size fp - rpos) < n)%nat -> (Z.to_nat (f_size fp - rpos) < m)%nat ->
  copy_loop n w path dest sp fp rpos l_bufsiz pos total
    = copy_loop m w path dest sp fp rpos l_bufsiz pos total.
Proof.
  induction n as [|n IH]; intros m w rpos pos Hn Hm; [lia|].
  destruct m as [|m]; [lia|]. cbn [copy_loop]. cbv zeta.
  fold (blen (fread_at fp rpos l_bufsiz)).
  pose proof (blen_fread_at fp rpos l_bufsiz) as Hlen.
  destruct (Z.gtb_spec (blen (fread_at fp rpos l_bufsiz)) 0); [|reflexivity].
  destruct (fwrite w dest _) as [written w1].
  destruct (if sp then _ else _) as [go w2].
  destruct go; cbn [negb]; [|reflexivity].
  apply IH; lia.
Qed.

(** ** strcasecmp *)

Lemma tolower_nonneg c : 0 <= tolower c.
Proof. unfold tolower. destruct (_ && _); lia. Qed.

Lemma strcasecmp_cons a r1 b r2 :
  strcasecmp (String a r1) (String b r2) =
    if tolower a =? tolower b
    then if tolower b =? 0 then 0 else strcasecmp r1 r2
    else tolower a - tolower b.
Proof.
  cbn [strcasecmp].
  destruct (Z.eqb_spec (tolower a - tolower b) 0) as [E|E];
    destruct (Z.eqb_spec (tolower a) (tolower b)) as [E'|E']; try lia; cbn [negb orb].
  - destruct (tolower b =? 0); [lia | reflexivity].
  - reflexivity.
Qed.

Lemma strcasecmp_nil_l s : strcasecmp EmptyString s = - c_head s.
Proof. destruct s; reflexivity. Qed.

Lemma strcasecmp_nil_r s : strcasecmp s EmptyString = c_head s.
Proof. destruct s; cbn; lia. Qed.

Ltac cmp_cases :=
  repeat match goal with
    | H : context [Z.eqb ?x ?y] |- _ => destruct (Z.eqb_spec x y)
    | |- context [Z.eqb ?x ?y] => destruct (Z.eqb_spec x y)
    end.

Ltac lower_bounds :=
  repeat match goal with
    | c : ascii |- _ =>
        lazymatch goal with
        | H : 0 <= tolower c |- _ => fail
        | _ => pose proof (tolower_nonneg c)
        end
    end.

Lemma strcasecmp_antisym a : forall b, strcasecmp b a = - strcasecmp a b.
Proof.
  induction a as [|x r1 IH]; intros [|y r2];
    rewrite ?strcasecmp_nil_l, ?strcasecmp_nil_r, ?strcasecmp_cons; try (cbn; lia).
  specialize (IH r2). cmp_cases; lia.
Qed.

Lemma strcasecmp_refl a : strcasecmp a a = 0.
Proof. pose proof (strcasecmp_antisym a a). lia. Qed.

Lemma strcasecmp_lt_trans a : forall b c,
  strcasecmp a b < 0 -> strcasecmp b c < 0 -> strcasecmp a c < 0.
Proof.
  induction a as [|x r1 IH]; intros [|y r2] [|z r3];
    rewrite ?strcasecmp_nil_l, ?strcasecmp_nil_r, ?strcasecmp_cons;
    cbn [c_head];
    lower_bounds; intros Hab Hbc; try lia; try (cmp_cases; lia).
  specialize (IH r2 r3). cmp_cases; lia.
Qed.

Lemma strcasecmp_le_trans a : forall b c,
  strcasecmp a b <= 0 -> strcasecmp b c <= 0 -> strcasecmp a c <= 0.
Proof.
  induction a as [|x r1 IH]; intros [|y r2] [|z r3];
    rewrite ?strcasecmp_nil_l, ?strcasecmp_nil_r, ?strcasecmp_cons;
    cbn [c_head];
    lower_bounds; intros Hab Hbc; try lia; try (cmp_cases; lia).
  specialize (IH r2 r3). cmp_cases; lia.
Qed.

(** ** The comparator *)

Lemma fsAlphabetizeFoldersFiles_strict_weak : strict_weak fsAlphabetizeFoldersFiles.
Proof.
  unfold strict_weak, fsAlphabetizeFoldersFiles. repeat split.
  - intros a. rewrite eqb_reflx, strcasecmp_refl. reflexivity.
  - intros [pa na da] [pb nb db] [pc nc dc]; cbn.
    destruct da, db, dc; cbn; try congruence;
      rewrite !Z.ltb_lt; apply strcasecmp_lt_trans.
  - intros [pa na da] [pb nb db] [pc nc dc]; cbn.
    destruct da, db, dc; cbn; try congruence;
      rewrite !Z.ltb_ge; intros H1 H2;
      rewrite (strcasecmp_antisym nc na);
      rewrite (strcasecmp_antisym nb na) in H1;
      rewrite (strcasecmp_antisym nc nb) in H2;
      pose proof (strcasecmp_le_trans nc nb na); lia.
Qed.

(** An entry that stands before another is not placed after it by the
    comparator: a directory is not preceded by a file, and within a kind the
    names do not decrease, case ignored. *)
Lemma not_after_order a b :
  fsAlphabetizeFoldersFiles b a = false ->
  (fx_isDirectory b = true -> fx_isDirectory a = true)
  /\ (fx_isDirectory a = fx_isDirectory b ->
      strcasecmp (fx_name a) (fx_name b) <= 0).
Proof.
  unfold fsAlphabetizeFoldersFiles. destruct a as [pa na da], b as [pb nb db]; cbn.
  destruct da, db; cbn; rewrite ?Z.ltb_ge; intros H; split; try congruence;
    intros _; rewrite (strcasecmp_antisym nb na); lia.
Qed.

(** ** Insertion sort keeps the promise of std::sort *)

Lemma insert_sorted_perm comp x l : Permutation (insert_sorted comp x l) (x :: l).
Proof.
  induction l as [|y rest IH]; cbn; [reflexivity|].
  destruct (comp x y); [reflexivity|].
  rewrite IH. apply perm_swap.
Qed.

Lemma insert_sorted_sorted comp x l :
  strict_weak comp ->
  StronglySorted (fun a b => comp b a = false) l ->
  StronglySorted (fun a b => comp b a = false) (insert_sorted comp x l).
Proof.
  intros (Hirr & Htr & Hneg) Hs.
  induction Hs as [|y rest Hs IH Hy]; cbn.
  - constructor; constructor.
  - destruct (comp x y) eqn:E.
    + constructor; [constructor; assumption|].
      constructor.
      * destruct (comp y x) eqn:E'; [|reflexivity].
        pose proof (Htr x y x E E') as Hxx. rewrite Hirr in Hxx. discriminate.
      * rewrite Forall_forall in *. intros z Hz.
        destruct (comp z x) eqn:E'; [|reflexivity].
        pose proof (Htr z x y E' E) as Hzy. rewrite (Hy z Hz) in Hzy. discriminate.
    + constructor; [exact IH|].
      rewrite Forall_forall in *. intros z Hz.
      apply (Permutation_in _ (insert_sorted_perm comp x rest)) in Hz.
      destruct Hz as [<- | Hz]; [exact E | now apply Hy].
Qed.

Lemma insertion_sort_sorts : sorts insertion_sort.
Proof.
  intros comp l Hsw. unfold insertion_sort. induction l as [|x l [IHp IHs]]; cbn.
  - split; [reflexivity | constructor].
  - split.
    + rewrite insert_sorted_perm. now constructor.
    + now apply insert_sorted_sorted.
Qed.

(** ** Sorted lists *)

Lemma sorted_before {A : Type} (R : A -> A -> Prop) (a b : A) l1 l2 l3 :
  StronglySorted R (l1 ++ a :: l2 ++ b :: l3) -> R a b.
Proof.
  induction l1 as [|x l1 IH]; cbn; intros Hs.
  - apply StronglySorted_inv in Hs as [_ Hall].
    rewrite Forall_forall in Hall. apply Hall, in_elt.
  - apply StronglySorted_inv in Hs as [Hs _]. exact (IH Hs).
Qed.

(** Two sorted arrangements of the same elements are the same list when no
    two different elements are each allowed before the other. *)
Lemma sorted_perm_unique {A : Type} (R : A -> A -> Prop) (l1 : list A) :
  forall l2,
    (forall x y, In x l1 -> In y l1 -> R x y -> R y x -> x = y) ->
    StronglySorted R l1 -> StronglySorted R l2 -> Permutation l1 l2 ->
    l1 = l2.
Proof.
  induction l1 as [|x l1 IH]; intros l2 Hanti S1 S2 Hp.
  - apply Permutation_nil in Hp. now subst.
  - destruct l2 as [|y l2];
      [apply Permutation_sym, Permutation_nil_cons in Hp; contradiction|].
    apply StronglySorted_inv in S1 as [S1 F1].
    apply StronglySorted_inv in S2 as [S2 F2].
    rewrite Forall_forall in F1, F2.
    assert (Hxy : x = y).
    { assert (Hx : In x (y :: l2)) by (eapply Permutation_in; [exact Hp | now left]).
      assert (Hy : In y (x :: l1))
        by (eapply Permutation_in; [apply Permutation_sym; exact Hp | now left]).
      destruct Hx as [Hx|Hx]; [now symmetry|].
      destruct Hy as [Hy|Hy]; [exact Hy|].
      apply Hanti; [now left | now right | now apply F1 | now apply F2]. }
    subst y. f_equal. apply Permutation_cons_inv in Hp.
    apply IH; try assumption.
    intros a b Ha Hb. apply Hanti; now right.
Qed.

(** ** Reading a directory *)

Lemma fsIsDirectory_probe w p :
  fsIsDirectory w p = (is_dir_in (w_fs w) p, snd (fsIsDirectory w p))
  /\ w_fs (snd (fsIsDirectory w p)) = w_fs w.
Proof.
  unfold fsIsDirectory, opendir, is_dir_in.
  destruct (lookup (w_fs w) (canon p)) as [[d|names]|]; split; reflexivity.
Qed.

Lemma probe_entries_spec dirWithSlash names : forall w,
  fst (probe_entries w dirWithSlash names)
    = map (entry_of (w_fs w) dirWithSlash) (filter not_dots names).
Proof.
  induction names as [|name rest IH]; intros w; cbn [probe_entries filter];
    [reflexivity|].
  unfold not_dots at 1.
  destruct (negb (String.eqb name ".") && negb (String.eqb name "..")); [|apply IH].
  destruct (fsIsDirectory_probe w (dirWithSlash ++ name)) as [Hp Hfs].
  rewrite Hp.
  specialize (IH (snd (fsIsDirectory w (dirWithSlash ++ name)))).
  destruct (probe_entries _ dirWithSlash rest) as [result w'].
  cbn [fst map] in *. rewrite IH, Hfs. reflexivity.
Qed.

Section Listing.

Variable std_sort : Sorter.
Hypothesis std_sort_sorts : sorts std_sort.

Lemma listing_of_directory w directory names :
  lookup (w_fs w) (canon (dir_with_slash directory)) = Some (NDir names) ->
  fst (fsGetDirectoryContentsEx std_sort w directory)
    = std_sort fsAlphabetizeFoldersFiles
        (map (entry_of (w_fs w) (dir_with_slash directory))
           (filter not_dots names)).
Proof.
  intros Hdir. unfold fsGetDirectoryContentsEx. fold (dir_with_slash directory).
  unfold opendir. rewrite Hdir.
  pose proof (probe_entries_spec (dir_with_slash directory) names w) as Hp.
  destruct (probe_entries w (dir_with_slash directory) names) as [result w'].
  cbn [fst] in *. now rewrite Hp.
Qed.

Lemma listing_of_other w directory :
  (forall names,
     lookup (w_fs w) (canon (dir_with_slash directory)) <> Some (NDir names)) ->
  fst (fsGetDirectoryContentsEx std_sort w directory) = [].
Proof.
  intros Hno. unfold fsGetDirectoryContentsEx. fold (dir_with_slash directory).
  unfold opendir.
  destruct (lookup (w_fs w) (canon (dir_with_slash directory))) as [[d|names]|];
    try reflexivity.
  now destruct (Hno names).
Qed.

(** C8.  The order of a listing.  Whatever sort the C++ library provides
    (as long as it sorts), the result of fsGetDirectoryContentsEx has no
    entry named [.] or [..]; it is a rearrangement of the entries of the
    other names the directory stream reports, each with its directory
    flag; of two entries the earlier one is a directory if the later one
    is, and when both are of the same kind the earlier name is not after
    the later one in the order of strcasecmp.  When the other names are
    b.txt, A, a.txt, B with A and B directories, the names come out as
    A, B, a.txt, b.txt. *)
Theorem listing_excludes_dots_and_is_ordered :
  forall (w : World) (directory : string),
    let dir := dir_with_slash directory in
    let result := fst (fsGetDirectoryContentsEx std_sort w directory) in
    (forall e, In e result -> fx_name e <> "."%string /\ fx_name e <> ".."%string)
    /\
    (forall names,
       lookup (w_fs w) (canon dir) = Some (NDir names) ->
       Permutation result (map (entry_of (w_fs w) dir) (filter not_dots names)))
    /\
    (forall a b,
       before a b result ->
       (fx_isDirectory b = true -> fx_isDirectory a = true)
       /\ (fx_isDirectory a = fx_isDirectory b ->
           strcasecmp (fx_name a) (fx_name b) <= 0))
    /\
    (forall names,
       lookup (w_fs w) (canon dir) = Some (NDir names) ->
       filter not_dots names = ["b.txt"; "A"; "a.txt"; "B"]%string ->
       is_dir_in (w_fs w) (dir ++ "A") = true ->
       is_dir_in (w_fs w) (dir ++ "B") = true ->
       is_dir_in (w_fs w) (dir ++ "a.txt") = false ->
       is_dir_in (w_fs w) (dir ++ "b.txt") = false ->
       map fx_name result = ["A"; "B"; "a.txt"; "b.txt"]%string).
Proof.
  intros w directory dir result.
  pose proof fsAlphabetizeFoldersFiles_strict_weak as Hsw.
  assert (Hcases :
            (exists names,
               lookup (w_fs w) (canon dir) = Some (NDir names)
               /\ result = std_sort fsAlphabetizeFoldersFiles
                    (map (entry_of (w_fs w) dir) (filter not_dots names)))
            \/ ((forall names, lookup (w_fs w) (canon dir) <> Some (NDir names))
                /\ result = [])).
  { destruct (lookup (w_fs w) (canon dir)) as [[d|names]|] eqn:E.
    - right. split; [discriminate|].
      apply listing_of_other. fold dir. rewrite E. discriminate.
    - left. exists names. split; [reflexivity|]. now apply listing_of_directory.
    - right. split; [discriminate|].
      apply listing_of_other. fold dir. rewrite E. discriminate. }
  split; [|split; [|split]].
  - intros e He. destruct Hcases as [(names & _ & Hres)|[_ Hres]];
      rewrite Hres in He; [|contradiction].
    destruct (std_sort_sorts fsAlphabetizeFoldersFiles
                (map (entry_of (w_fs w) dir) (filter not_dots names)) Hsw)
      as [Hperm _].
    apply (Permutation_in _ Hperm) in He.
    apply in_map_iff in He as (name & <- & Hin).
    apply filter_In in Hin as [_ Hnot]. unfold not_dots in Hnot.
    apply andb_prop in Hnot as [H1 H2]. cbn [fx_name entry_of].
    split; intros ->; discriminate.
  - intros names Hdir. destruct Hcases as [(names' & Hdir' & Hres)|[Hno _]];
      [|now destruct (Hno names)].
    rewrite Hdir in Hdir'. injection Hdir' as <-. rewrite Hres.
    now apply std_sort_sorts.
  - intros a b (l1 & l2 & l3 & Hab). apply not_after_order.
    destruct Hcases as [(names & _ & Hres)|[_ Hres]].
    + destruct (std_sort_sorts fsAlphabetizeFoldersFiles
                  (map (entry_of (w_fs w) dir) (filter not_dots names)) Hsw)
        as [_ Hsorted].
      rewrite <- Hres, Hab in Hsorted.
      exact (sorted_before _ a b l1 l2 l3 Hsorted).
    + rewrite Hres in Hab. now destruct l1.
  - intros names Hdir Hnames HA HB Ha Hb.
    destruct Hcases as [(names' & Hdir' & Hres)|[Hno _]];
      [|now destruct (Hno names)].
    rewrite Hdir in Hdir'. injection Hdir' as <-.
    rewrite Hnames in Hres. cbn [map] in Hres. unfold entry_of in Hres.
    rewrite HA, HB, Ha, Hb in Hres.
    set (eb := {| fx_path := (dir ++ "b.txt")%string; fx_name := "b.txt";
                  fx_isDirectory := false |}) in Hres.
    set (eA := {| fx_path := (dir ++ "A")%string; fx_name := "A";
                  fx_isDirectory := true |}) in Hres.
    set (ea := {| fx_path := (dir ++ "a.txt")%string; fx_name := "a.txt";
                  fx_isDirectory := false |}) in Hres.
    set (eB := {| fx_path := (dir ++ "B")%string; fx_name := "B";
                  fx_isDirectory := true |}) in Hres.
    destruct (std_sort_sorts fsAlphabetizeFoldersFiles [eb; eA; ea; eB] Hsw)
      as [Hperm Hsorted].
    rewrite <- Hres in Hperm, Hsorted.
    assert (Heq : result = [eA; eB; ea; eb]).
    { apply (sorted_perm_unique
               (fun a b => fsAlphabetizeFoldersFiles b a = false)).
      - intros x y Hx Hy.
        apply (Permutation_in _ Hperm) in Hx, Hy. cbn in Hx, Hy.
        destruct Hx as [<-|[<-|[<-|[<-|[]]]]];
          destruct Hy as [<-|[<-|[<-|[<-|[]]]]];
          try reflexivity; vm_compute; intros; discriminate.
      - exact Hsorted.
      - repeat constructor.
      - rewrite Hperm.
        apply (Permutation_cons_app [eA; eB; ea] []). cbn.
        apply perm_skip, perm_swap. }
    rewrite Heq. reflexivity.
Qed.

End Listing.

Lemma listing_excludes_dots_and_is_ordered_witness :
  map fx_name (fst (fsGetDirectoryContentsEx insertion_sort (sample []) "/d"))
    = ["A"; "B"; "a.txt"; "b.txt"]%string.
Proof.
  apply (proj2 (proj2 (proj2
           (listing_excludes_dots_and_is_ordered insertion_sort insertion_sort_sorts
              (sample []) "/d"%string)))
           ["."; ".."; "b.txt"; "A"; "a.txt"; "B"]%string); reflexivity.
Defined.

(* ================================================================= *)
(** * Further properties *)

(** ** Names and extensions *)

Lemma rfind_none c s : rfind c s = None <-> has_char c s = false.
Proof.
  induction s as [|a r IH]; cbn; [tauto|].
  destruct (rfind c r) as [i|].
  - split; [discriminate|]. intros H. apply orb_false_elim in H as [_ H].
    apply IH in H. discriminate.
  - destruct (Ascii.eqb a c); cbn; [split; discriminate|].
    split; intros _; [now apply IH | reflexivity].
Qed.

(** The last occurrence splits the string: what follows it is what
    [substr] returns, and the character does not occur in it again. *)
Lemma rfind_some c s : forall i,
  rfind c s = Some i ->
  has_char c (substr (i + 1) s) = false
  /\ exists pre, s = (pre ++ String c (substr (i + 1) s))%string.
Proof.
  induction s as [|a r IH]; intros i; cbn [rfind]; [discriminate|].
  destruct (rfind c r) as [j|] eqn:E.
  - intros H. injection H as <-. destruct (IH j eq_refl) as (Hn & pre & Hp).
    cbn [Nat.add substr]. split; [exact Hn|].
    exists (String a pre). cbn. now rewrite <- Hp.
  - destruct (Ascii.eqb_spec a c) as [->|Hne]; [|discriminate].
    intros H. injection H as <-. cbn [Nat.add substr].
    split; [now apply rfind_none|]. exists EmptyString. reflexivity.
Qed.

Lemma has_char_app c a b : has_char c (a ++ b) = has_char c a || has_char c b.
Proof. induction a as [|x a IH]; cbn; [reflexivity|]. now rewrite IH, orb_assoc. Qed.

Lemma rfind_app_last c pre post :
  has_char c post = false ->
  exists i, rfind c (pre ++ String c post) = Some i
            /\ substr (i + 1) (pre ++ String c post) = post.
Proof.
  intros Hp. induction pre as [|a pre (i & Hi & Hs)]; cbn [append rfind].
  - apply rfind_none in Hp. rewrite Hp, Ascii.eqb_refl.
    exists 0%nat. split; reflexivity.
  - rewrite Hi. exists (S i). split; [reflexivity | exact Hs].
Qed.

(** X1.  fsGetFileName returns the part of the path after its last slash:
    the result has no slash, and the path is the result itself when it has
    no slash and some directory part, a slash and the result otherwise. *)
Theorem fsGetFileName_splits :
  forall path : string,
    has_char "/" (fsGetFileName path) = false
    /\ exists dir,
         path = if has_char "/" path
                then (dir ++ "/" ++ fsGetFileName path)%string
                else fsGetFileName path.
Proof.
  intros path. unfold fsGetFileName.
  destruct (rfind "/" path) as [i|] eqn:E.
  - destruct (rfind_some _ _ _ E) as (Hn & pre & Hp). split; [exact Hn|].
    exists pre.
    replace (has_char "/" path) with true; [exact Hp|].
    symmetry. rewrite Hp at 1. rewrite has_char_app. cbn. apply orb_true_r.
  - apply rfind_none in E. split; [exact E|]. exists EmptyString. now rewrite E.
Qed.

(** X2.  fsGetExtension returns the part of the path after its last dot,
    or nothing when there is no dot: the result has no dot, and with a dot
    the path is some stem, a dot and the result.  The dot is looked for in
    the whole path, not in the file name. *)
Theorem fsGetExtension_splits :
  forall path : string,
    has_char "." (fsGetExtension path) = false
    /\ exists stem,
         (if has_char "." path
          then path = (stem ++ "." ++ fsGetExtension path)%string
          else fsGetExtension path = EmptyString).
Proof.
  intros path. unfold fsGetExtension.
  destruct (rfind "." path) as [i|] eqn:E.
  - destruct (rfind_some _ _ _ E) as (Hn & pre & Hp). split; [exact Hn|].
    exists pre.
    replace (has_char "." path) with true; [exact Hp|].
    symmetry. rewrite Hp at 1. rewrite has_char_app. cbn. apply orb_true_r.
  - apply rfind_none in E. split; [reflexivity|]. exists EmptyString. now rewrite E.
Qed.

Lemma fsGetFileName_join dir name :
  has_char "/" name = false -> fsGetFileName (dir ++ "/" ++ name) = name.
Proof.
  intros Hn. unfold fsGetFileName.
  destruct (rfind_app_last "/" dir name Hn) as (i & Hi & Hs).
  cbn [append] in *. now rewrite Hi.
Qed.

Lemma fsGetExtension_join stem ext :
  has_char "." ext = false -> fsGetExtension (stem ++ "." ++ ext) = ext.
Proof.
  intros Hn. unfold fsGetExtension.
  destruct (rfind_app_last "." stem ext Hn) as (i & Hi & Hs).
  cbn [append] in *. now rewrite Hi.
Qed.

(** ** Case-insensitive comparison *)

Lemma strcasecmp_zero_iff a : forall b,
  strcasecmp a b = 0 <-> c_key a = c_key b.
Proof.
  induction a as [|x r1 IH]; intros [|y r2];
    rewrite ?strcasecmp_nil_l, ?strcasecmp_nil_r, ?strcasecmp_cons;
    cbn [c_key c_head]; lower_bounds.
  - tauto.
  - destruct (Z.eqb_spec (tolower y) 0); split; intros H1; try reflexivity;
      try lia; discriminate.
  - destruct (Z.eqb_spec (tolower x) 0); split; intros H1; try reflexivity;
      try lia; discriminate.
  - specialize (IH r2).
    destruct (Z.eqb_spec (tolower x) (tolower y)) as [E|E].
    + rewrite E. destruct (Z.eqb_spec (tolower y) 0); [tauto|].
      rewrite IH. split; [now intros -> | intros H1; now injection H1].
    + destruct (Z.eqb_spec (tolower x) 0), (Z.eqb_spec (tolower y) 0);
        split; intros H1; try lia; try discriminate.
      injection H1. lia.
Qed.

Lemma strcasecmp_eqb_key a b :
  (strcasecmp a b =? 0) = true <-> c_key a = c_key b.
Proof. rewrite Z.eqb_eq. apply strcasecmp_zero_iff. Qed.

(** X3.  fsHasExtension accepts every path for the empty extension, and
    otherwise exactly the paths whose extension equals the given one up to
    the case of ASCII letters (as C strings: up to the first NUL). *)
Theorem fsHasExtension_iff :
  forall path extension : string,
    fsHasExtension path extension = true
    <-> extension = EmptyString
        \/ c_key (fsGetExtension path) = c_key extension.
Proof.
  intros path extension. unfold fsHasExtension.
  destruct extension as [|c r]; cbn [String.length Nat.eqb].
  - split; [now left | reflexivity].
  - rewrite strcasecmp_eqb_key. split; [now right|].
    intros [H|H]; [discriminate | exact H].
Qed.

Lemma any_extension_iff ext extensions :
  any_extension ext extensions = true
  <-> exists e, In e extensions /\ c_key ext = c_key e.
Proof.
  induction extensions as [|e rest IH]; cbn [any_extension].
  - split; [discriminate | intros (e & [] & _)].
  - destruct (strcasecmp ext e =? 0) eqn:E.
    + split; [|reflexivity]. intros _. exists e. split; [now left|].
      now apply strcasecmp_eqb_key.
    + rewrite IH. split.
      * intros (e' & Hin & Hk). exists e'. split; [now right | exact Hk].
      * intros (e' & [<-|Hin] & Hk).
        -- apply strcasecmp_eqb_key in Hk. congruence.
        -- exists e'. split; assumption.
Qed.

(** X4.  fsHasExtensions accepts every path for the empty list, and
    otherwise exactly the paths whose extension equals one of the list up
    to the case of ASCII letters. *)
Theorem fsHasExtensions_iff :
  forall (path : string) (extensions : list string),
    fsHasExtensions path extensions = true
    <-> extensions = []
        \/ exists e, In e extensions /\ c_key (fsGetExtension path) = c_key e.
Proof.
  intros path extensions. unfold fsHasExtensions.
  destruct extensions as [|e rest].
  - split; [now left | reflexivity].
  - rewrite any_extension_iff. split; [now right|].
    intros [H|H]; [discriminate | exact H].
Qed.

(** X5.  On a list that is not empty and has no empty string,
    fsHasExtensions is the disjunction of fsHasExtension over the list.
    An empty string in the list is not the wildcard it is for
    fsHasExtension: it matches only a path without extension. *)
Theorem fsHasExtensions_is_any_fsHasExtension :
  forall (path : string) (extensions : list string),
    extensions <> [] ->
    Forall (fun e => e <> EmptyString) extensions ->
    fsHasExtensions path extensions = existsb (fsHasExtension path) extensions.
Proof.
  intros path extensions Hne Hall.
  destruct extensions as [|e0 rest0]; [congruence|]. clear Hne.
  unfold fsHasExtensions. revert Hall.
  generalize (e0 :: rest0) as l. clear e0 rest0.
  induction l as [|e rest IH]; intros Hall; cbn [any_extension existsb];
    [reflexivity|].
  apply Forall_cons_iff in Hall as [He Hrest].
  unfold fsHasExtension at 1.
  destruct e as [|c r]; [congruence|]. cbn [String.length Nat.eqb].
  destruct (strcasecmp (fsGetExtension path) (String c r) =? 0); cbn [orb];
    [reflexivity | now apply IH].
Qed.

Lemma fsHasExtensions_is_any_fsHasExtension_witness :
  fsHasExtensions "photo.JPG" ["png"; "jpg"]%string
    = existsb (fsHasExtension "photo.JPG") ["png"; "jpg"]%string
  /\ fsHasExtensions "photo.JPG" [EmptyString] = false
  /\ fsHasExtension "photo.JPG" EmptyString = true.
Proof.
  split; [|split; reflexivity].
  apply (fsHasExtensions_is_any_fsHasExtension "photo.JPG" ["png"; "jpg"]%string).
  - discriminate.
  - repeat constructor; discriminate.
Defined.

(** ** The raw listing *)

Lemma dir_with_slash_ends directory :
  exists d, dir_with_slash directory = (d ++ "/")%string.
Proof.
  unfold dir_with_slash. destruct (hasSlash directory) eqn:E.
  - now apply hasSlash_ends.
  - now exists directory.
Qed.

Lemma fsGetDirectoryContents_entries w directory :
  fst (fsGetDirectoryContents w directory) =
    match lookup (w_fs w) (canon (dir_with_slash directory)) with
    | Some (NDir names) =>
        map (fun name => {| fi_path := (dir_with_slash directory ++ name)%string;
                            fi_name := name |}) names
    | _ => []
    end.
Proof.
  unfold fsGetDirectoryContents, opendir. fold (dir_with_slash directory).
  destruct (lookup (w_fs w) (canon (dir_with_slash directory))) as [[d|names]|];
    reflexivity.
Qed.

(** X6.  The entries of a raw listing are consistent with fsGetFileName:
    for every entry that fsGetDirectoryContents returns whose name has no
    slash (as the names of a directory stream have), the file name of its
    path is its name. *)
Theorem fsGetFileName_of_listed_path :
  forall (w : World) (directory : string) (entry : FileInfo),
    In entry (fst (fsGetDirectoryContents w directory)) ->
    has_char "/" (fi_name entry) = false ->
    fsGetFileName (fi_path entry) = fi_name entry.
Proof.
  intros w directory entry Hin Hname.
  rewrite fsGetDirectoryContents_entries in Hin.
  destruct (lookup (w_fs w) (canon (dir_with_slash directory))) as [[d|names]|];
    try contradiction.
  apply in_map_iff in Hin as (name & <- & _). cbn [fi_path fi_name] in *.
  destruct (dir_with_slash_ends directory) as [d ->].
  rewrite string_app_assoc. now apply fsGetFileName_join.
Qed.

Lemma fsGetFileName_of_listed_path_witness :
  fsGetFileName "/d/a.txt" = "a.txt"%string.
Proof.
  apply (fsGetFileName_of_listed_path (sample []) "/d"
           {| fi_path := "/d/a.txt"; fi_name := "a.txt" |}).
  - cbn. tauto.
  - reflexivity.
Defined.

(** ** The data provider at any offsets *)

Lemma u32_add_cases a b :
  0 <= a < 2 ^ 32 -> 0 <= b < 2 ^ 32 ->
  u32 (a + b) = if a + b <? 2 ^ 32 then a + b else a + b - 2 ^ 32.
Proof.
  intros Ha Hb. unfold u32. destruct (Z.ltb_spec (a + b) (2 ^ 32)).
  - apply Z.mod_small. lia.
  - symmetry. apply (Z.mod_unique _ _ 1); lia.
Qed.

(** Whatever the two offsets, wrap-around included, the overlap is at most
    the size of the buffer, so the [memmove], the [memset] and the [fread]
    stay inside it: the buffer keeps its length. *)
Lemma refresh_length f fileSize W o op buf :
  0 <= W < 2 ^ 32 -> 0 <= o < 2 ^ 32 -> 0 <= op < 2 ^ 32 ->
  blen buf = W ->
  blen (fst (refresh f fileSize W o op buf)) = W.
Proof.
  intros HW Ho Hop Hlen. unfold refresh.
  destruct (Z.ltb_spec o op) as [Hlt|Hge].
  - set (overlap := if u32 (o + W) >? op then u32 (u32 (o + W) - op) else 0).
    assert (Hov : 0 <= overlap <= W).
    { unfold overlap. rewrite (u32_add_cases o W) by lia. rewrite Z.gtb_ltb.
      destruct (Z.ltb_spec (o + W) (2 ^ 32)).
      - destruct (Z.ltb_spec op (o + W)); [rewrite u32_small|]; lia.
      - destruct (Z.ltb_spec op (o + W - 2 ^ 32)); lia. }
    clearbody overlap. rewrite (u32_small (W - overlap)) by lia. cbn [fst].
    rewrite blen_fread; rewrite ?blen_memmove; lia.
  - set (overlap := if u32 (op + W) >? o then u32 (u32 (op + W) - o) else 0).
    assert (Hov : 0 <= overlap <= W).
    { unfold overlap. rewrite (u32_add_cases op W) by lia. rewrite Z.gtb_ltb.
      destruct (Z.ltb_spec (op + W) (2 ^ 32)).
      - destruct (Z.ltb_spec o (op + W)); [rewrite u32_small|]; lia.
      - destruct (Z.ltb_spec o (op + W - 2 ^ 32)); lia. }
    clearbody overlap. rewrite (u32_small (W - overlap)) by lia. cbn [fst].
    assert (Hm : blen (memmove buf 0 (W - overlap) overlap) = W)
      by (rewrite blen_memmove; lia).
    destruct (u32 (o + W) >? fileSize).
    + rewrite blen_fread; rewrite ?blen_memset; lia.
    + rewrite blen_fread; lia.
Qed.

Section AnyOffsets.

Context {C : Type}.
Variable onLoop : C -> Z -> C * Z * bool.
Variable onUpdate : C -> list Z -> C * bool.
Variable f : FileData.
Variables fileSize W : Z.
Hypothesis W_u32 : 0 <= W < 2 ^ 32.
Hypothesis fileSize_u32 : 0 <= fileSize < 2 ^ 32.

Let sound (s : Stream) : Prop :=
  0 <= s_offset s < 2 ^ 32 /\ 0 <= s_offsetPrev s < 2 ^ 32
  /\ blen (s_buffer s) = W.

Let fits (x : Z * list Z) : Prop := 0 <= fst x <= fileSize /\ blen (snd x) = W.

Lemma iteration_fits c s r c' s' evs :
  sound s ->
  iteration onLoop onUpdate f fileSize W c s = (r, c', s', evs) ->
  sound s' /\ Forall fits (delivered evs).
Proof.
  intros (Ho & Hop & Hlen) Hit.
  destruct (Z.ltb_spec fileSize (s_offset s)) as [Hgt|Hle].
  - rewrite iteration_clamp in Hit by exact Hgt.
    injection Hit as <- <- <- <-.
    split; [repeat split; cbn; lia | constructor].
  - destruct (Z.eq_dec (s_offset s) (s_offsetPrev s)) as [He|Hne].
    + rewrite iteration_idle in Hit by assumption.
      destruct (onLoop c (s_offset s)) as [[c1 o1] d1].
      injection Hit as <- <- <- <-.
      split; [|constructor].
      pose proof (u32_range o1). repeat split; cbn; lia.
    + rewrite iteration_update in Hit by assumption.
      pose proof (refresh_length f fileSize W (s_offset s) (s_offsetPrev s)
                    (s_buffer s) W_u32 Ho Hop Hlen) as Hl.
      pose proof (delivered_refresh f fileSize W (s_offset s) (s_offsetPrev s)
                    (s_buffer s)) as Hd.
      destruct (refresh f fileSize W (s_offset s) (s_offsetPrev s) (s_buffer s))
        as [buffer rd].
      cbn [fst snd] in *.
      destruct (onUpdate c buffer) as [c1 d1].
      injection Hit as <- <- <- <-.
      split; [repeat split; cbn; lia|].
      rewrite Hd. constructor; [|constructor]. split; cbn; lia.
Qed.

Lemma provider_loop_fits running : forall c s r c' evs,
  sound s ->
  provider_loop onLoop onUpdate f fileSize W running c s = (r, c', evs) ->
  Forall fits (delivered evs).
Proof.
  induction running as [|n IH]; intros c s r c' evs Hs Hrun; cbn in Hrun.
  - injection Hrun as <- <- <-. constructor.
  - destruct (iteration onLoop onUpdate f fileSize W c s)
      as [[[r1 c1] s1] ev1] eqn:Hit.
    apply iteration_fits in Hit as (Hs1 & Hev1); [|exact Hs].
    destruct r1.
    + injection Hrun as <- <- <-. exact Hev1.
    + destruct (provider_loop onLoop onUpdate f fileSize W n c1 s1)
        as [[r2 c2] ev2] eqn:Hrest.
      injection Hrun as <- <- <-. rewrite delivered_app.
      apply Forall_app. split; [exact Hev1 | eapply IH; eassumption].
Qed.

End AnyOffsets.

(** X7.  Every buffer the provider hands to onUpdate has exactly [buffSize]
    bytes and is handed over at an offset that is at most the file size,
    for every client and every 32-bit initial offset and buffer size, also
    where [offset + buffSize] wraps around: the copies and reads of the
    refresh never leave the buffer. *)
Theorem delivered_buffers_fit :
  forall (C : Type) (w : World) (path : string) (f : FileData)
         (offset buffSize : Z)
         (onLoop : option (C -> Z -> C * Z * bool))
         (onUpdate : option (C -> list Z -> C * bool))
         (c : C) (running : nat) (o : Z) (data : list Z),
    lookup (w_fs w) (canon path) = Some (NFile f) ->
    0 <= offset < 2 ^ 32 -> 0 <= buffSize < 2 ^ 32 ->
    In (o, data)
       (delivered (snd (fsDataProvider w path offset buffSize onLoop onUpdate
                          c running))) ->
    0 <= o <= u32 (f_size f) /\ blen data = buffSize.
Proof.
  intros C w path f offset W onLoop onUpdate c running o data Hf Ho HW Hin.
  destruct onLoop as [onLoop|], onUpdate as [onUpdate|];
    try (cbn in Hin; contradiction).
  rewrite (fsDataProvider_on_file w path f) in Hin by exact Hf.
  cbv zeta in Hin.
  destruct (Z.leb_spec W (w_heap w)); [|cbn in Hin; contradiction].
  destruct (provider_loop _ _ _ _ _ _ _ _) as [[r1 c1] ev1] eqn:Hloop in Hin.
  cbn [snd] in Hin.
  pose proof (u32_range (f_size f)) as HS.
  eapply (provider_loop_fits onLoop onUpdate f (u32 (f_size f)) W HW HS) in Hloop.
  - rewrite Forall_forall in Hloop. exact (Hloop (o, data) Hin).
  - cbn [s_offset s_offsetPrev s_buffer].
    rewrite u32_minus_one, blen_repeat. lia.
Qed.

Lemma delivered_buffers_fit_witness :
  0 <= 2 ^ 32 - 11 <= u32 (f_size (pattern_file (2 ^ 32 - 1)))
  /\ blen [113; 114; 115; 116; 117; 118; 119; 120; 121; 122;
           113; 114; 115; 116; 117; 118] = 16.
Proof.
  apply (delivered_buffers_fit (list Z)
           (one_file "big" (pattern_file (2 ^ 32 - 1))) "/big"
           (pattern_file (2 ^ 32 - 1)) (2 ^ 32 - 21) 16
           (Some seek_onLoop) (Some watch_onUpdate) [2 ^ 32 - 11] 4%nat).
  - reflexivity.
  - split; [discriminate | reflexivity].
  - split; [discriminate | reflexivity].
  - vm_compute. right. left. reflexivity.
Defined.

Lemma delivered_windows evs f W o data :
  Forall (ev_window f W) evs -> In (o, data) (delivered evs) ->
  data = window f o W.
Proof.
  induction evs as [|e evs IH]; intros Hall Hin; [contradiction|].
  apply Forall_cons_iff in Hall as [He Hall].
  unfold delivered in Hin. cbn [flat_map] in Hin. apply in_app_or in Hin.
  destruct Hin as [Hin|Hin]; [|now apply IH].
  destruct e; try contradiction.
  destruct Hin as [Hin|[]]. injection Hin as <- <-. exact He.
Qed.

(** X8.  The window invariant.  As long as [fileSize + buffSize] stays
    below [2^32], every buffer handed to onUpdate is the window of the file
    at the offset it was filled for, zero from the end of the file on:
    for every client, every initial offset and every sequence of seeks. *)
Theorem delivered_buffers_are_windows :
  forall (C : Type) (w : World) (path : string) (f : FileData)
         (offset buffSize : Z)
         (onLoop : option (C -> Z -> C * Z * bool))
         (onUpdate : option (C -> list Z -> C * bool))
         (c : C) (running : nat) (o : Z) (data : list Z),
    lookup (w_fs w) (canon path) = Some (NFile f) ->
    0 <= f_size f -> 0 <= buffSize -> f_size f + buffSize < 2 ^ 32 ->
    0 <= offset ->
    In (o, data)
       (delivered (snd (fsDataProvider w path offset buffSize onLoop onUpdate
                          c running))) ->
    data = window f o buffSize.
Proof.
  intros C w path f offset W onLoop onUpdate c running o data Hf HS HW Hno Ho Hin.
  destruct (fsDataProvider w path offset W onLoop onUpdate c running)
    as [[[r c'] w'] evs] eqn:Hrun.
  cbn [snd] in Hin.
  eapply delivered_windows; [|exact Hin].
  eapply provider_window_invariant; eassumption.
Qed.

Lemma delivered_buffers_are_windows_witness :
  [16; 17; 18; 19; 20; 0; 0; 0] = window (file_of_list (seqZ 1 20)) 15 8.
Proof.
  apply (delivered_buffers_are_windows (list Z)
           (one_file "f" (file_of_list (seqZ 1 20))) "/f"
           (file_of_list (seqZ 1 20)) 0 8
           (Some seek_onLoop) (Some watch_onUpdate) [5; 15] 6%nat).
  - reflexivity.
  - vm_compute. discriminate.
  - discriminate.
  - reflexivity.
  - discriminate.
  - vm_compute. right. right. left. reflexivity.
Defined.

(** X9.  Starting past the end.  When the initial offset is above the file
    size (and [fileSize + buffSize < 2^32]) the first turn clamps it and
    the second fills the window at the end of the file: the first thing
    the client sees is a buffer of [buffSize] zero bytes at offset
    [fileSize]; nothing is read from the file for it. *)
Theorem start_past_end_delivers_zeroes :
  forall (C : Type) (w : World) (path : string) (f : FileData)
         (offset buffSize : Z)
         (onLoop : C -> Z -> C * Z * bool) (onUpdate : C -> list Z -> C * bool)
         (c : C) (running : nat),
    lookup (w_fs w) (canon path) = Some (NFile f) ->
    0 <= f_size f -> 0 <= buffSize <= w_heap w ->
    f_size f + buffSize < 2 ^ 32 ->
    f_size f < offset < 2 ^ 32 ->
    (2 <= running)%nat ->
    exists rest,
      snd (fsDataProvider w path offset buffSize (Some onLoop) (Some onUpdate)
             c running)
      = EvRead (f_size f) buffSize
          :: EvUpdate (f_size f) (repeat 0 (Z.to_nat buffSize)) :: rest
      /\ fread_at f (f_size f) buffSize = [].
Proof.
  intros C w path f offset W onLoop onUpdate c running Hf HS HW Hno Ho Hrun.
  rewrite (fsDataProvider_on_file w path f) by exact Hf. cbv zeta.
  replace (W <=? w_heap w) with true by (symmetry; apply Z.leb_le; lia).
  rewrite u32_small by lia.
  do 2 (destruct running as [|running]; [lia|]). clear Hrun.
  cbn [provider_loop].
  rewrite iteration_clamp by (cbn; lia). cbn [s_offset s_offsetPrev s_buffer].
  rewrite iteration_update by (cbn; rewrite ?u32_minus_one; lia).
  cbn [s_offset s_offsetPrev s_buffer].
  assert (Hw := refresh_window f W (f_size f) (u32 (-1)) (repeat 0 (Z.to_nat W))
                  (proj1 HW) ltac:(lia) ltac:(lia)
                  ltac:(rewrite u32_minus_one; lia)
                  (or_introl (conj eq_refl eq_refl))).
  assert (Hrd : snd (refresh f (f_size f) W (f_size f) (u32 (-1))
                       (repeat 0 (Z.to_nat W))) = EvRead (f_size f) W).
  { unfold refresh. rewrite u32_minus_one.
    replace (f_size f <? 2 ^ 32 - 1) with true by (symmetry; apply Z.ltb_lt; lia).
    rewrite (u32_small (f_size f + W)) by lia.
    replace (f_size f + W >? 2 ^ 32 - 1) with false
      by (symmetry; rewrite Z.gtb_ltb; apply Z.ltb_ge; lia).
    cbn [snd]. now rewrite Z.sub_0_r, u32_small by lia. }
  destruct (refresh f (f_size f) W (f_size f) (u32 (-1)) (repeat 0 (Z.to_nat W)))
    as [buffer rd].
  cbn [fst snd] in Hw, Hrd. subst buffer rd.
  rewrite window_past_end by lia.
  assert (Hnone : fread_at f (f_size f) W = []).
  { unfold fread_at. rewrite Z.sub_diag.
    replace (Z.min W 0) with 0 by lia. reflexivity. }
  destruct (onUpdate c (repeat 0 (Z.to_nat W))) as [c1 d1].
  destruct d1.
  - eexists. split; [reflexivity | exact Hnone].
  - destruct (provider_loop _ _ _ _ _ _ _ _) as [[r2 c2] ev2].
    eexists. split; [reflexivity | exact Hnone].
Qed.

Lemma start_past_end_delivers_zeroes_witness :
  exists rest,
    snd (fsDataProvider (one_file "f" (file_of_list (seqZ 1 20))) "/f" 30 8
           (Some seek_onLoop) (Some watch_onUpdate) [] 3%nat)
    = EvRead (f_size (file_of_list (seqZ 1 20))) 8
        :: EvUpdate (f_size (file_of_list (seqZ 1 20))) (repeat 0 (Z.to_nat 8))
        :: rest
    /\ fread_at (file_of_list (seqZ 1 20))
         (f_size (file_of_list (seqZ 1 20))) 8 = [].
Proof.
  apply (start_past_end_delivers_zeroes (list Z)
           (one_file "f" (file_of_list (seqZ 1 20))) "/f"
           (file_of_list (seqZ 1 20)) 30 8 seek_onLoop watch_onUpdate [] 3%nat).
  - reflexivity.
  - vm_compute. discriminate.
  - vm_compute. split; discriminate.
  - vm_compute. reflexivity.
  - vm_compute. split; reflexivity.
  - apply le_S, le_n.
Defined.

(** ** Queries *)

Lemma fsIsDirectory_fs w p : w_fs (snd (fsIsDirectory w p)) = w_fs w.
Proof. apply fsIsDirectory_probe. Qed.

Lemma fsIsDirectory_is_dir w p : fst (fsIsDirectory w p) = is_dir_in (w_fs w) p.
Proof. destruct (fsIsDirectory_probe w p) as [H _]. now rewrite H. Qed.

Lemma fsExists_spec w p :
  fst (fsExists w p) = match node_at w p with Some _ => true | None => false end
  /\ w_fs (snd (fsExists w p)) = w_fs w.
Proof.
  unfold fsExists, fopen_r, fsIsDirectory, opendir, node_at.
  destruct (lookup (w_fs w) (canon p)) as [[d|names]|] eqn:E; cbn [w_fs set_errno];
    rewrite ?E; split; reflexivity.
Qed.

Lemma fsIsDirectory_same w p : same_inputs (snd (fsIsDirectory w p)) w.
Proof.
  unfold fsIsDirectory, opendir.
  destruct (lookup (w_fs w) (canon p)) as [[d|names]|]; repeat split.
Qed.

Lemma fsExists_same w p : same_inputs (snd (fsExists w p)) w.
Proof.
  unfold fsExists, fopen_r, fsIsDirectory, opendir.
  destruct (lookup (w_fs w) (canon p)) as [[d|names]|] eqn:E; cbn [w_fs set_errno];
    rewrite ?E; repeat split.
Qed.

Lemma fsIsDirectory_of_tree w1 w2 p :
  w_fs w1 = w_fs w2 -> fst (fsIsDirectory w1 p) = fst (fsIsDirectory w2 p).
Proof. intros H. now rewrite !fsIsDirectory_is_dir, H. Qed.

Lemma fsExists_of_tree w1 w2 p :
  w_fs w1 = w_fs w2 -> fst (fsExists w1 p) = fst (fsExists w2 p).
Proof.
  intros H. destruct (fsExists_spec w1 p) as [H1 _], (fsExists_spec w2 p) as [H2 _].
  rewrite H1, H2. unfold node_at. now rewrite H.
Qed.

(** X10.  The two queries are queries.  Whatever fsIsDirectory accepts,
    fsExists accepts.  Neither changes what an operation works on: the
    file tree, the room on the volume and on the heap, the pad and
    [prevProgress] are as before (only [errno] and the log of opened
    streams may differ).  And each answers the same when asked again, also
    after the other. *)
Theorem fsExists_and_fsIsDirectory_are_queries :
  forall (w : World) (path : string),
    (fst (fsIsDirectory w path) = true -> fst (fsExists w path) = true)
    /\ same_inputs (snd (fsExists w path)) w
    /\ same_inputs (snd (fsIsDirectory w path)) w
    /\ fst (fsExists (snd (fsExists w path)) path) = fst (fsExists w path)
    /\ fst (fsIsDirectory (snd (fsIsDirectory w path)) path)
       = fst (fsIsDirectory w path)
    /\ fst (fsIsDirectory (snd (fsExists w path)) path)
       = fst (fsIsDirectory w path)
    /\ fst (fsExists (snd (fsIsDirectory w path)) path) = fst (fsExists w path).
Proof.
  intros w path.
  split.
  { destruct (fsExists_spec w path) as [He _].
    rewrite He, fsIsDirectory_is_dir. unfold is_dir_in, node_at.
    destruct (lookup (w_fs w) (canon path)) as [[d|names]|];
      intros H; try reflexivity; discriminate. }
  split; [apply fsExists_same|]. split; [apply fsIsDirectory_same|].
  pose proof (fsExists_same w path) as (He & _).
  pose proof (fsIsDirectory_same w path) as (Hd & _).
  split; [now apply fsExists_of_tree|].
  split; [now apply fsIsDirectory_of_tree|].
  split; [now apply fsIsDirectory_of_tree | now apply fsExists_of_tree].
Qed.

Lemma fsExists_and_fsIsDirectory_are_queries_witness :
  fst (fsExists (sample []) "/d") = true.
Proof.
  apply (proj1 (fsExists_and_fsIsDirectory_are_queries (sample []) "/d")).
  reflexivity.
Defined.

(** ** Listings *)

Lemma probe_entries_fs dirWithSlash names : forall w,
  w_fs (snd (probe_entries w dirWithSlash names)) = w_fs w.
Proof.
  induction names as [|name rest IH]; intros w; cbn [probe_entries];
    [reflexivity|].
  destruct (negb (String.eqb name ".") && negb (String.eqb name "..")); [|apply IH].
  pose proof (fsIsDirectory_fs w (dirWithSlash ++ name)) as Hfs.
  destruct (fsIsDirectory w (dirWithSlash ++ name)) as [b w1]. cbn [snd] in Hfs.
  specialize (IH w1).
  destruct (probe_entries w1 dirWithSlash rest) as [result w2]. cbn [snd] in *.
  congruence.
Qed.

Lemma fsGetDirectoryContentsEx_fs std_sort w directory :
  w_fs (snd (fsGetDirectoryContentsEx std_sort w directory)) = w_fs w.
Proof.
  unfold fsGetDirectoryContentsEx, opendir.
  destruct (lookup (w_fs w) (canon _)) as [[d|names]|]; try reflexivity.
  pose proof (probe_entries_fs
                (if hasSlash directory then directory else (directory ++ "/")%string)
                names w) as Hfs.
  destruct (probe_entries w _ names) as [result w1]. exact Hfs.
Qed.

Lemma fsGetDirectoryContentsEx_of_tree std_sort w directory :
  fst (fsGetDirectoryContentsEx std_sort w directory) =
    match lookup (w_fs w) (canon (dir_with_slash directory)) with
    | Some (NDir names) =>
        std_sort fsAlphabetizeFoldersFiles
          (map (entry_of (w_fs w) (dir_with_slash directory))
               (filter not_dots names))
    | _ => []
    end.
Proof.
  unfold fsGetDirectoryContentsEx, opendir. fold (dir_with_slash directory).
  destruct (lookup (w_fs w) (canon (dir_with_slash directory))) as [[d|names]|];
    try reflexivity.
  pose proof (probe_entries_spec (dir_with_slash directory) names w) as Hp.
  destruct (probe_entries w (dir_with_slash directory) names) as [result w1].
  cbn [fst] in *. now rewrite Hp.
Qed.

(** X11.  A listing is stable.  fsGetDirectoryContentsEx leaves the file
    tree as it is, and its result depends on the file tree only: asked
    again right after, or in any world with the same tree (whatever errno,
    the screen or the pad are), it returns the same list. *)
Theorem listing_is_stable :
  forall (std_sort : Sorter) (w w2 : World) (directory : string),
    w_fs (snd (fsGetDirectoryContentsEx std_sort w directory)) = w_fs w
    /\ fst (fsGetDirectoryContentsEx std_sort
              (snd (fsGetDirectoryContentsEx std_sort w directory)) directory)
       = fst (fsGetDirectoryContentsEx std_sort w directory)
    /\ (w_fs w2 = w_fs w ->
        fst (fsGetDirectoryContentsEx std_sort w2 directory)
        = fst (fsGetDirectoryContentsEx std_sort w directory)).
Proof.
  intros std_sort w w2 directory.
  split; [apply fsGetDirectoryContentsEx_fs|].
  split.
  - rewrite !fsGetDirectoryContentsEx_of_tree, fsGetDirectoryContentsEx_fs.
    reflexivity.
  - intros Hfs. rewrite !fsGetDirectoryContentsEx_of_tree, Hfs. reflexivity.
Qed.

Lemma listing_is_stable_witness :
  fst (fsGetDirectoryContentsEx insertion_sort (set_errno EEXIST (sample [true]))
         "/d")
  = fst (fsGetDirectoryContentsEx insertion_sort (sample []) "/d").
Proof.
  apply (proj2 (proj2 (listing_is_stable insertion_sort (sample [])
                         (set_errno EEXIST (sample [true])) "/d"))).
  reflexivity.
Defined.

(** X12.  The sorted listing and the raw one agree.  The names
    fsGetDirectoryContentsEx returns are, in some order, the names
    fsGetDirectoryContents returns without [.] and [..]; the raw listing
    has them in the order of the directory stream, and the path of an
    entry is the directory followed by the name when the directory ends
    in a slash, and the directory, one slash and the name when it does
    not. *)
Theorem sorted_listing_rearranges_raw_listing :
  forall (std_sort : Sorter) (w : World) (directory : string),
    sorts std_sort ->
    Permutation
      (map fx_name (fst (fsGetDirectoryContentsEx std_sort w directory)))
      (filter not_dots (map fi_name (fst (fsGetDirectoryContents w directory))))
    /\ Forall (fun e =>
                 (ends_in_slash directory
                  /\ fi_path e = (directory ++ fi_name e)%string)
                 \/ (~ ends_in_slash directory
                     /\ fi_path e = (directory ++ "/" ++ fi_name e)%string))
         (fst (fsGetDirectoryContents w directory)).
Proof.
  intros std_sort w directory Hsort.
  rewrite fsGetDirectoryContentsEx_of_tree, fsGetDirectoryContents_entries.
  destruct (lookup (w_fs w) (canon (dir_with_slash directory))) as [[d|names]|];
    try (split; [reflexivity | constructor]).
  split.
  - rewrite map_map. cbn [fi_name]. rewrite map_id.
    destruct (Hsort fsAlphabetizeFoldersFiles
                (map (entry_of (w_fs w) (dir_with_slash directory))
                     (filter not_dots names))
                fsAlphabetizeFoldersFiles_strict_weak) as [Hperm _].
    rewrite Hperm, map_map. cbn [fx_name entry_of]. now rewrite map_id.
  - apply Forall_forall. intros e He.
    apply in_map_iff in He as (name & <- & _). cbn [fi_path fi_name].
    unfold dir_with_slash. destruct (hasSlash directory) eqn:E.
    + left. split; [now apply hasSlash_iff | reflexivity].
    + right. split; [apply no_trailing_slash_check, E|].
      now rewrite string_app_assoc.
Qed.

Lemma sorted_listing_rearranges_raw_listing_witness :
  Permutation
    (map fx_name (fst (fsGetDirectoryContentsEx insertion_sort (sample []) "/d")))
    (filter not_dots (map fi_name (fst (fsGetDirectoryContents (sample []) "/d")))).
Proof.
  apply (proj1 (sorted_listing_rearranges_raw_listing insertion_sort (sample [])
                  "/d" insertion_sort_sorts)).
Defined.

(** ** Copying a regular file *)

Lemma fsShowProgress_world w op path pos total :
  fst (fsShowProgress w op path pos total) = negb (hd false (w_pad w))
  /\ w_fs (snd (fsShowProgress w op path pos total)) = w_fs w
  /\ w_free (snd (fsShowProgress w op path pos total)) = w_free w
  /\ w_heap (snd (fsShowProgress w op path pos total)) = w_heap w
  /\ w_pad (snd (fsShowProgress w op path pos total)) = tl (w_pad w).
Proof.
  unfold fsShowProgress, hid_poll_pressed_B. cbv zeta.
  generalize (u32 (u64 (pos * 100) / total)). intros progress.
  destruct w as [fs free heap errno junk prev pad screen calls opens].
  cbn [w_prevProgress w_pad w_fs w_free w_heap w_screen w_calls
       set_calls set_screen set_prevProgress].
  destruct (negb (prev =? progress)), pad;
    cbn [fst snd w_fs w_free w_heap w_pad w_prevProgress hd tl
         set_pad set_screen set_prevProgress set_calls];
    repeat split; reflexivity.
Qed.

(** With B never pressed a tick lets the operation go on and changes
    neither the tree nor the room left. *)
Lemma quiet_tick w sp op path pos total :
  (sp = true -> Forall (eq false) (w_pad w)) ->
  exists w',
    (if sp then fsShowProgress w op path pos total else (true, w)) = (true, w')
    /\ w_fs w' = w_fs w /\ w_free w' = w_free w /\ w_heap w' = w_heap w
    /\ (sp = true -> Forall (eq false) (w_pad w')).
Proof.
  intros Hpad. destruct sp.
  - destruct (fsShowProgress_world w op path pos total) as (Hgo & Hfs & Hfr & Hh & Hp).
    exists (snd (fsShowProgress w op path pos total)).
    split; [|repeat split; try assumption].
    + rewrite (surjective_pairing (fsShowProgress w op path pos total)), Hgo.
      f_equal. specialize (Hpad eq_refl).
      destruct (w_pad w) as [|b rest]; [reflexivity|].
      apply Forall_cons_iff in Hpad as [<- _]. reflexivity.
    + intros _. rewrite Hp. specialize (Hpad eq_refl).
      destruct (w_pad w) as [|b rest]; [constructor|].
      now apply Forall_cons_iff in Hpad as [_ Hrest].
  - exists w. repeat split. intros H. discriminate.
Qed.

Lemma fopen_w_creates w p names :
  lookup (w_fs w) (canon p) = None ->
  lookup (w_fs w) (fst (parent_of p)) = Some (NDir names) ->
  exists w',
    fopen_w w p = (true, w')
    /\ lookup (w_fs w') (canon p) = Some (NFile empty_file)
    /\ (forall q, q <> canon p -> q <> fst (parent_of p) ->
                  lookup (w_fs w') q = lookup (w_fs w) q)
    /\ w_free w' = w_free w /\ w_pad w' = w_pad w.
Proof.
  intros Hfree Hdir. unfold fopen_w, link. rewrite Hfree.
  destruct (parent_of p) as [dir base]. cbn [fst] in *. rewrite Hdir.
  eexists. split; [reflexivity|]. cbn.
  split; [apply lookup_update_same|].
  split; [|split; reflexivity].
  intros q Hq Hd. now rewrite !lookup_update_other.
Qed.

Lemma firstn_whole (data : list Z) : firstn (Z.to_nat (blen data)) data = data.
Proof. unfold blen. rewrite Nat2Z.id. apply firstn_all. Qed.

Lemma fwrite_whole w p data d :
  lookup (w_fs w) (canon p) = Some (NFile d) ->
  blen data <= w_free w ->
  exists w',
    fwrite w p data = (blen data, w')
    /\ lookup (w_fs w') (canon p) = Some (NFile (f_append d data))
    /\ (forall q, q <> canon p -> lookup (w_fs w') q = lookup (w_fs w) q)
    /\ w_free w' = w_free w - blen data /\ w_pad w' = w_pad w.
Proof.
  intros Hd Hroom. pose proof (blen_nonneg data) as Hn.
  unfold fwrite. rewrite Hd. fold (blen data).
  replace (Z.max 0 (Z.min (blen data) (w_free w))) with (blen data) by lia.
  rewrite firstn_whole. eexists. split; [reflexivity|]. cbn.
  split; [apply lookup_update_same|].
  split; [|split; reflexivity].
  intros q Hq. now rewrite lookup_update_other.
Qed.

Section CopyLoop.

Variables src dest : string.
Variable sp : bool.
Variable f : FileData.
Variable l_bufsiz : Z.
Hypothesis size_u64 : 0 <= f_size f < 2 ^ 64.
Hypothesis l_bufsiz_pos : 0 < f_size f -> 0 < l_bufsiz.

(** With room on the volume and B never pressed, the loop appends the rest
    of the source to the destination and touches nothing else. *)
Lemma copy_loop_copies turns : forall w rpos d,
  (Z.to_nat (f_size f - rpos) < turns)%nat ->
  0 <= rpos <= f_size f ->
  lookup (w_fs w) (canon dest) = Some (NFile d) ->
  f_size d = rpos ->
  (forall i, 0 <= i < rpos -> f_byte d i = f_byte f i) ->
  f_size f - rpos <= w_free w ->
  (sp = true -> Forall (eq false) (w_pad w)) ->
  exists w' d',
    copy_loop turns w src dest sp f rpos l_bufsiz rpos (f_size f)
      = (true, f_size f, w')
    /\ lookup (w_fs w') (canon dest) = Some (NFile d')
    /\ f_size d' = f_size f
    /\ (forall i, 0 <= i < f_size f -> f_byte d' i = f_byte f i)
    /\ (forall q, q <> canon dest -> lookup (w_fs w') q = lookup (w_fs w) q).
Proof.
  induction turns as [|n IH]; intros w rpos d Hn Hr Hd Hsz Hbytes Hroom Hpad;
    [lia|].
  cbn [copy_loop]. cbv zeta.
  fold (blen (fread_at f rpos l_bufsiz)).
  pose proof (blen_fread_at f rpos l_bufsiz) as Hlen.
  destruct (Z.gtb_spec (blen (fread_at f rpos l_bufsiz)) 0) as [Hpos|Hzero].
  - set (data := fread_at f rpos l_bufsiz) in *.
    assert (Hdl : 0 < blen data <= f_size f - rpos) by lia.
    destruct (fwrite_whole w dest data d Hd) as (w1 & Hw & Hd1 & Hoth1 & Hfree1 & Hpad1);
      [lia|].
    rewrite Hw. rewrite (u64_small (rpos + blen data)) by lia.
    destruct (quiet_tick w1 sp "Copying" src (rpos + blen data) (f_size f))
      as (w2 & Hgo & Hfs2 & Hfree2 & _ & Hpad2);
      [now rewrite Hpad1|].
    rewrite Hgo. cbn [negb].
    destruct (IH w2 (rpos + blen data) (f_append d data)) as (w' & d' & Hrun & Hd' & Hs' & Hb' & Hoth');
      try lia.
    + rewrite Hfs2. exact Hd1.
    + cbn. fold (blen data). lia.
    + intros i Hi. destruct (Z.ltb_spec i rpos).
      * rewrite f_byte_append_old by lia. apply Hbytes. lia.
      * rewrite f_byte_append by lia. rewrite Hsz.
        unfold data. rewrite bget_fread_at by lia. f_equal. lia.
    + exact Hpad2.
    + exists w', d'. repeat split; try assumption.
      intros q Hq. rewrite (Hoth' q Hq), Hfs2. now apply Hoth1.
  - assert (Hend : rpos = f_size f).
    { destruct (Z.eq_dec rpos (f_size f)) as [|Hne]; [assumption|].
      assert (0 < f_size f) by lia. specialize (l_bufsiz_pos H). lia. }
    exists w, d. subst rpos. rewrite Hend at 2.
    repeat split; try assumption; try reflexivity;
      try (intros i Hi; apply Hbytes; lia).
    now rewrite <- Hend.
Qed.

End CopyLoop.

Lemma fsIsDirectory_file w p d :
  lookup (w_fs w) (canon p) = Some (NFile d) ->
  fsIsDirectory w p = (false, set_errno ENOTDIR w).
Proof. intros H. unfold fsIsDirectory, opendir. now rewrite H. Qed.

Lemma fsIsDirectory_missing w p :
  lookup (w_fs w) (canon p) = None ->
  fsIsDirectory w p = (false, set_errno ENOENT w).
Proof. intros H. unfold fsIsDirectory, opendir. now rewrite H. Qed.

Lemma fopen_r_file w p d :
  lookup (w_fs w) (canon p) = Some (NFile d) ->
  fopen_r w p = (Some d, set_opens (w_opens w ++ [p]) w).
Proof. intros H. unfold fopen_r. now rewrite H. Qed.

Lemma fopen_r_missing w p :
  lookup (w_fs w) (canon p) = None -> fopen_r w p = (None, set_errno ENOENT w).
Proof. intros H. unfold fopen_r. now rewrite H. Qed.

(** X13.  Copying a regular file.  Let the source be a regular file below
    4 GiB, the destination a free path in an existing directory, with room
    for the file on the volume and for the buffer on the heap, and B never
    pressed.  Then fsPathCopy returns true, the destination is a file of
    the same size with the same byte at every position, and the source is
    as it was. *)
Theorem copy_of_file_is_identical :
  forall (depth : nat) (w : World) (src dest : string) (showProgress : bool)
         (f : FileData) (names : list string),
    lookup (w_fs w) (canon src) = Some (NFile f) ->
    0 <= f_size f < 2 ^ 32 ->
    lookup (w_fs w) (canon dest) = None ->
    lookup (w_fs w) (fst (parent_of dest)) = Some (NDir names) ->
    f_size f <= w_free w ->
    Z.min (f_size f) CTRX_BUFSIZ <= w_heap w ->
    (showProgress = true -> Forall (eq false) (w_pad w)) ->
    exists w' d,
      fsPathCopy (S depth) w src dest showProgress = (Some true, w')
      /\ file_at w' dest = Some d
      /\ f_size d = f_size f
      /\ (forall i, 0 <= i < f_size f -> f_byte d i = f_byte f i)
      /\ file_at w' src = Some f.
Proof.
  intros depth w src dest sp f names Hsrc Hsize Hdest Hdir Hroom Hheap Hpad.
  assert (Hne : canon src <> canon dest) by congruence.
  assert (Hnd : canon src <> fst (parent_of dest)) by congruence.
  cbn [fsPathCopy].
  rewrite (fsExists_unbound w dest Hdest).
  destruct (quiet_tick (set_errno ENOENT w) sp "Copying" src 0 1 Hpad)
    as (w2 & Hgo & Hfs2 & Hfree2 & Hheap2 & Hpad2).
  rewrite Hgo. cbn [negb]. cbn [w_fs w_free w_heap set_errno] in Hfs2, Hfree2, Hheap2.
  rewrite (fsIsDirectory_file w2 src f) by (rewrite Hfs2; exact Hsrc).
  rewrite (fsGetFileSize_file _ src f) by (cbn [w_fs set_errno]; rewrite Hfs2; exact Hsrc).
  rewrite (u32_small (f_size f)) by lia.
  rewrite (fopen_r_file _ src f) by (cbn [w_fs set_errno]; rewrite Hfs2; exact Hsrc).
  set (w5 := set_opens _ (set_errno ENOTDIR w2)).
  destruct (fopen_w_creates w5 dest names) as (w6 & Ho & Hd6 & Hoth6 & Hfree6 & Hpad6);
    [unfold w5; cbn [w_fs set_errno set_opens]; rewrite Hfs2; assumption..|].
  rewrite Ho.
  set (l := if f_size f <? CTRX_BUFSIZ then f_size f else CTRX_BUFSIZ).
  assert (Hl : l = Z.min (f_size f) CTRX_BUFSIZ)
    by (unfold l; destruct (Z.ltb_spec (f_size f) CTRX_BUFSIZ); lia).
  replace (malloc (set_errno ENOTDIR w2) l) with true
    by (symmetry; unfold malloc; cbn [w_heap set_errno]; apply Z.leb_le; lia).
  cbn [andb].
  destruct (copy_loop_copies src dest sp f l ltac:(lia)
              ltac:(unfold CTRX_BUFSIZ in *; lia)
              (S (Z.to_nat (f_size f))) w6 0 empty_file)
    as (w7 & d7 & Hrun & Hd7 & Hs7 & Hb7 & Hoth7); try (cbn; lia); try assumption.
  - rewrite Hfree6. unfold w5. cbn [w_free set_errno set_opens]. lia.
  - intros Hs. rewrite Hpad6. unfold w5. cbn [w_pad set_errno set_opens]. auto.
  - rewrite Hrun. rewrite Z.eqb_refl. cbn [andb].
    exists w7, d7. unfold file_at.
    rewrite Hd7, (Hoth7 _ Hne), (Hoth6 _ Hne Hnd).
    unfold w5. cbn [w_fs set_errno set_opens]. rewrite Hfs2, Hsrc.
    repeat split; assumption.
Qed.

Lemma copy_of_file_is_identical_witness :
  exists w' d,
    fsPathCopy 1 (sample []) "/f.bin" "/d/copy.bin" true = (Some true, w')
    /\ file_at w' "/d/copy.bin" = Some d
    /\ f_size d = f_size (file_of_list (seqZ 1 20))
    /\ (forall i, 0 <= i < f_size (file_of_list (seqZ 1 20)) ->
                  f_byte d i = f_byte (file_of_list (seqZ 1 20)) i)
    /\ file_at w' "/f.bin" = Some (file_of_list (seqZ 1 20)).
Proof.
  apply (copy_of_file_is_identical 0 (sample []) "/f.bin" "/d/copy.bin" true
           (file_of_list (seqZ 1 20))
           ["."; ".."; "b.txt"; "A"; "a.txt"; "B"]%string).
  - reflexivity.
  - vm_compute. split; [discriminate | reflexivity].
  - reflexivity.
  - reflexivity.
  - vm_compute. discriminate.
  - vm_compute. discriminate.
  - intros _. constructor.
Defined.

(** X14.  A copy that cannot start still reports success.  When the source
    names nothing, or is a regular file whose buffer cannot be allocated,
    and the destination is a free path in an existing directory (B not
    pressed at the first tick), fsPathCopy returns true and leaves an empty
    file at the destination: [ret] is initialised to true and only the
    body guarded by the three pointers can change it. *)
Theorem copy_reports_success_without_copying :
  forall (depth : nat) (w : World) (src dest : string) (showProgress : bool)
         (names : list string),
    lookup (w_fs w) (canon dest) = None ->
    lookup (w_fs w) (fst (parent_of dest)) = Some (NDir names) ->
    (showProgress = true -> Forall (eq false) (w_pad w)) ->
    lookup (w_fs w) (canon src) = None
    \/ (exists f, lookup (w_fs w) (canon src) = Some (NFile f)
                  /\ w_heap w < Z.min (u32 (f_size f)) CTRX_BUFSIZ) ->
    exists w',
      fsPathCopy (S depth) w src dest showProgress = (Some true, w')
      /\ file_at w' dest = Some empty_file.
Proof.
  intros depth w src dest sp names Hdest Hdir Hpad Hsrc.
  cbn [fsPathCopy].
  rewrite (fsExists_unbound w dest Hdest).
  destruct (quiet_tick (set_errno ENOENT w) sp "Copying" src 0 1 Hpad)
    as (w2 & Hgo & Hfs2 & Hfree2 & Hheap2 & Hpad2).
  rewrite Hgo. cbn [negb]. cbn [w_fs w_free w_heap set_errno] in Hfs2, Hfree2, Hheap2.
  destruct Hsrc as [Hsrc | (f & Hsrc & Hheap)].
  - rewrite (fsIsDirectory_missing w2 src) by (rewrite Hfs2; exact Hsrc).
    rewrite (fsGetFileSize_missing _ src)
      by (cbn [w_fs set_errno]; rewrite Hfs2; exact Hsrc).
    rewrite (fopen_r_missing _ src)
      by (cbn [w_fs set_errno]; rewrite Hfs2; exact Hsrc).
    set (w5 := set_errno ENOENT (set_errno ENOENT (set_errno ENOENT w2))).
    destruct (fopen_w_creates w5 dest names) as (w6 & Ho & Hd6 & _);
      [unfold w5; cbn [w_fs set_errno]; rewrite Hfs2; assumption..|].
    rewrite Ho. exists w6. split; [reflexivity|].
    unfold file_at. now rewrite Hd6.
  - rewrite (fsIsDirectory_file w2 src f) by (rewrite Hfs2; exact Hsrc).
    rewrite (fsGetFileSize_file _ src f)
      by (cbn [w_fs set_errno]; rewrite Hfs2; exact Hsrc).
    rewrite (fopen_r_file _ src f)
      by (cbn [w_fs set_errno]; rewrite Hfs2; exact Hsrc).
    set (w5 := set_opens _ (set_errno ENOTDIR w2)).
    destruct (fopen_w_creates w5 dest names) as (w6 & Ho & Hd6 & _);
      [unfold w5; cbn [w_fs set_errno set_opens]; rewrite Hfs2; assumption..|].
    rewrite Ho.
    set (l := if u32 (f_size f) <? CTRX_BUFSIZ then u32 (f_size f) else CTRX_BUFSIZ).
    replace (malloc (set_errno ENOTDIR w2) l) with false.
    + cbn [andb]. exists w6. split; [reflexivity|].
      unfold file_at. now rewrite Hd6.
    + symmetry. unfold malloc. cbn [w_heap set_errno]. apply Z.leb_gt.
      unfold l. destruct (Z.ltb_spec (u32 (f_size f)) CTRX_BUFSIZ); lia.
Qed.

Lemma copy_reports_success_without_copying_witness :
  exists w',
    fsPathCopy 1 (sample []) "/nope" "/copy" false = (Some true, w')
    /\ file_at w' "/copy" = Some empty_file.
Proof.
  apply (copy_reports_success_without_copying 0 (sample []) "/nope" "/copy" false
           ["d"; "f.bin"]%string).
  - reflexivity.
  - reflexivity.
  - discriminate.
  - left. reflexivity.
Defined.

(** ** What a copy leaves alone *)

Lemma fsExists_bound w p :
  bound p w ->
  exists w', fsExists w p = (true, w') /\ w_fs w' = w_fs w.
Proof.
  intros Hb. destruct (fsExists_spec w p) as [Hf Hfs].
  destruct (fsExists w p) as [found w'] eqn:E. cbn [fst snd] in *.
  unfold node_at in Hf. unfold bound in Hb.
  destruct (lookup (w_fs w) (canon p)); [|congruence].
  exists w'. now subst found.
Qed.

Lemma fsExists_false w p w' :
  fsExists w p = (false, w') ->
  lookup (w_fs w) (canon p) = None /\ w_fs w' = w_fs w.
Proof.
  intros E. destruct (fsExists_spec w p) as [Hf Hfs]. rewrite E in Hf, Hfs.
  cbn [fst snd] in *. unfold node_at in Hf.
  destruct (lookup (w_fs w) (canon p)); [discriminate | now split].
Qed.

(** X15.  Nothing is created over a name that is taken.  When the
    destination names a file or a directory, fsPathCopy, fsCreateDir and
    fsCreateDummyFile return false with errno EEXIST, fsPathRename returns
    false, and none of them changes the tree. *)
Theorem taken_name_is_never_replaced :
  forall (depth : nat) (w : World) (src dest : string) (showProgress : bool)
         (size content : Z),
    bound dest w ->
    (exists w', fsPathCopy (S depth) w src dest showProgress = (Some false, w')
                /\ w_errno w' = EEXIST /\ w_fs w' = w_fs w)
    /\ (exists w', fsCreateDir w dest = (false, w')
                   /\ w_errno w' = EEXIST /\ w_fs w' = w_fs w)
    /\ (exists w', fsCreateDummyFile w dest size content showProgress = (false, w')
                   /\ w_errno w' = EEXIST /\ w_fs w' = w_fs w)
    /\ (exists w', fsPathRename w src dest = (false, w') /\ w_fs w' = w_fs w).
Proof.
  intros depth w src dest sp size content Hb.
  destruct (fsExists_bound w dest Hb) as (w1 & E & Hfs).
  split; [|split; [|split]].
  - cbn [fsPathCopy]. rewrite E. eexists. split; [reflexivity|]. now split.
  - unfold fsCreateDir. rewrite E. eexists. split; [reflexivity|]. now split.
  - unfold fsCreateDummyFile. rewrite E. eexists. split; [reflexivity|]. now split.
  - unfold fsPathRename.
    destruct (negb (is_npos (find (src ++ "/") dest))).
    + eexists. split; reflexivity.
    + rewrite E. eexists. split; [reflexivity | exact Hfs].
Qed.

Lemma taken_name_is_never_replaced_witness :
  exists w', fsPathCopy 1 (sample []) "/f.bin" "/d/a.txt" false = (Some false, w')
             /\ w_errno w' = EEXIST /\ w_fs w' = w_fs (sample []).
Proof.
  apply (taken_name_is_never_replaced 0 (sample []) "/f.bin" "/d/a.txt" false 0 0).
  vm_compute. discriminate.
Defined.

Lemma fsGetDirectoryContents_fs w p : w_fs (snd (fsGetDirectoryContents w p)) = w_fs w.
Proof.
  unfold fsGetDirectoryContents, opendir.
  destruct (lookup (w_fs w) (canon _)) as [[d|names]|]; reflexivity.
Qed.

Lemma tick_fs w (sp : bool) op path pos total :
  w_fs (snd (if sp then fsShowProgress w op path pos total else (true, w))) = w_fs w.
Proof. destruct sp; [apply fsShowProgress_fs | reflexivity]. Qed.

Lemma fwrite_other w p data q :
  q <> canon p -> lookup (w_fs (snd (fwrite w p data))) q = lookup (w_fs w) q.
Proof.
  intros Hq. unfold fwrite.
  destruct (lookup (w_fs w) (canon p)) as [[d|names]|]; try reflexivity.
  cbn. now apply lookup_update_other.
Qed.

Lemma copy_loop_other q turns : forall w path dest sp fp rpos l_bufsiz pos total,
  q <> canon dest ->
  lookup (w_fs (snd (copy_loop turns w path dest sp fp rpos l_bufsiz pos total))) q
  = lookup (w_fs w) q.
Proof.
  induction turns as [|n IH]; intros w path dest sp fp rpos l pos total Hq;
    cbn [copy_loop]; [reflexivity|].
  cbv zeta. destruct (_ >? 0); [|reflexivity].
  pose proof (fwrite_other w dest (fread_at fp rpos l) q Hq) as Hw.
  destruct (fwrite w dest _) as [written w1]. cbn [snd] in Hw.
  pose proof (tick_fs w1 sp "Copying" path (u64 (pos + written)) total) as Ht.
  destruct (if sp then _ else _) as [go w2]. cbn [snd] in Ht.
  destruct go; cbn [negb].
  - rewrite IH by exact Hq. now rewrite Ht.
  - cbn. now rewrite Ht.
Qed.

Lemma write_loop_other q turns : forall w path buffer sp size count l_bufsiz pos,
  q <> canon path ->
  lookup (w_fs (snd (write_loop turns w path buffer sp size count l_bufsiz pos))) q
  = lookup (w_fs w) q.
Proof.
  induction turns as [|n IH]; intros w path buffer sp size count l pos Hq;
    cbn [write_loop]; [reflexivity|].
  destruct (count <? size); [|reflexivity]. cbv zeta.
  set (l' := if size - count <? l then size - count else l).
  pose proof (fwrite_other w path (firstn (Z.to_nat l') buffer) q Hq) as Hw.
  destruct (fwrite w path _) as [written w1]. cbn [snd] in Hw.
  pose proof (tick_fs w1 sp "Generating" path (u64 (pos + written)) size) as Ht.
  destruct (if sp then _ else _) as [go w2]. cbn [snd] in Ht.
  destruct go; cbn [negb].
  - rewrite IH by exact Hq. now rewrite Ht.
  - cbn. now rewrite Ht.
Qed.

Section KeepsFile.

Variable q : string.
Variable d : FileData.

Lemma link_keeps_file w p n w' :
  link w p n = Some w' -> lookup (w_fs w) (canon p) = None -> file_is q d w -> file_is q d w'.
Proof.
  unfold link, file_is. destruct (parent_of p) as [dir base].
  destruct (lookup (w_fs w) dir) as [[f|names]|] eqn:Hdir; try discriminate.
  intros H Hp Hq. injection H as <-. cbn.
  rewrite !lookup_update_other; [assumption | congruence | congruence].
Qed.

Lemma mkdir_keeps_file w p : file_is q d w -> file_is q d (snd (mkdir w p)).
Proof.
  intros H. unfold mkdir.
  destruct (lookup (w_fs w) (canon p)) eqn:Hp; [exact H|].
  destruct (link w p (NDir [])) eqn:E; [|exact H].
  eapply link_keeps_file; eassumption.
Qed.

Lemma fopen_w_keeps_file w p :
  lookup (w_fs w) (canon p) = None -> file_is q d w -> file_is q d (snd (fopen_w w p)).
Proof.
  intros Hp H. unfold fopen_w. rewrite Hp.
  destruct (link w p (NFile empty_file)) eqn:E; [|exact H].
  change (file_is q d w0). eapply link_keeps_file; eassumption.
Qed.

Lemma fsPathCopy_keeps_file depth : forall w path dest sp,
  file_is q d w -> file_is q d (snd (fsPathCopy depth w path dest sp)).
Proof.
  induction depth as [|n IH]; intros w path dest sp H; cbn [fsPathCopy];
    [exact H|].
  destruct (fsExists w dest) as [[|] w1] eqn:E1.
  { destruct (fsExists_spec w dest) as [_ Hfs]. rewrite E1 in Hfs.
    unfold file_is. cbn. cbn in Hfs. now rewrite Hfs. }
  apply fsExists_false in E1 as [Hdest Hfs1].
  pose proof (tick_fs w1 sp "Copying" path 0 1) as Ht.
  destruct (if sp then _ else _) as [go w2]. cbn [snd] in Ht.
  assert (H2 : file_is q d w2) by (unfold file_is; now rewrite Ht, Hfs1).
  assert (Hd2 : lookup (w_fs w2) (canon dest) = None) by now rewrite Ht, Hfs1.
  destruct go; cbn [negb]; [|exact H2].
  pose proof (fsIsDirectory_fs w2 path) as Hfs3.
  destruct (fsIsDirectory w2 path) as [isDir w3]. cbn [snd] in Hfs3.
  assert (H3 : file_is q d w3) by (unfold file_is; now rewrite Hfs3).
  assert (Hd3 : lookup (w_fs w3) (canon dest) = None) by now rewrite Hfs3.
  destruct isDir.
  - destruct (negb (is_npos _)); [exact H3|].
    pose proof (mkdir_keeps_file w3 dest H3) as H4.
    destruct (mkdir w3 dest) as [rc w4]. cbn [snd] in H4.
    destruct (negb (rc =? 0)); [exact H4|].
    pose proof (tick_fs w4 sp "Copying" path 1 2) as Ht5.
    destruct (if sp then _ else _) as [go w5]. cbn [snd] in Ht5.
    assert (H5 : file_is q d w5) by (unfold file_is; now rewrite Ht5).
    destruct go; cbn [negb]; [|exact H5].
    pose proof (fsGetDirectoryContents_fs w5 path) as Hfs6.
    destruct (fsGetDirectoryContents w5 path) as [contents w6]. cbn [snd] in Hfs6.
    assert (H6 : file_is q d w6) by (unfold file_is; now rewrite Hfs6).
    destruct (copy_children _ dest sp contents w6) as [r w7] eqn:E7. cbn [snd].
    eapply (copy_children_keeps (file_is q d)); [|exact H6|exact E7].
    intros wa pa da spa ra wa' Ha Hc.
    replace wa' with (snd (fsPathCopy n wa pa da spa)) by now rewrite Hc.
    now apply IH.
  - pose proof (fsGetFileSize_fs w3 path) as Hfs4.
    destruct (fsGetFileSize w3 path) as [total w4]. cbn [snd] in Hfs4.
    cbv zeta.
    pose proof (fopen_r_fs w4 path) as Hfs5.
    destruct (fopen_r w4 path) as [fp w5]. cbn [snd] in Hfs5.
    assert (H5 : file_is q d w5) by (unfold file_is; now rewrite Hfs5, Hfs4).
    assert (Hd5 : lookup (w_fs w5) (canon dest) = None) by now rewrite Hfs5, Hfs4.
    pose proof (fopen_w_keeps_file w5 dest Hd5 H5) as H6.
    destruct (fopen_w w5 dest) as [fd w6]. cbn [snd] in H6.
    destruct fp as [fp|]; [|exact H6].
    destruct (fd && malloc w4 _); [|exact H6].
    assert (Hq : q <> canon dest) by (unfold file_is in H; congruence).
    match goal with
    | |- context [copy_loop ?t ?a ?b ?c ?e ?g ?h ?i ?j ?k] =>
        pose proof (copy_loop_other q t a b c e g h i j k Hq) as Hl;
        destruct (copy_loop t a b c e g h i j k) as [[ret pos] w7]
    end.
    cbn [snd] in *. unfold file_is. now rewrite Hl.
Qed.

Lemma fsCreateDummyFile_keeps_file w path size content sp :
  file_is q d w -> file_is q d (snd (fsCreateDummyFile w path size content sp)).
Proof.
  intros H. unfold fsCreateDummyFile.
  destruct (fsExists w path) as [[|] w1] eqn:E1.
  { destruct (fsExists_spec w path) as [_ Hfs]. rewrite E1 in Hfs.
    unfold file_is. cbn. cbn in Hfs. now rewrite Hfs. }
  apply fsExists_false in E1 as [Hdest Hfs1]. cbv zeta.
  set (sp' := if size <? CTRX_BUFSIZ then false else sp).
  set (w2 := if sp' then snd (fsShowProgress w1 "Generating" path 0 1) else w1).
  assert (Hfs2 : w_fs w2 = w_fs w)
    by (unfold w2; destruct sp'; [rewrite fsShowProgress_fs|]; exact Hfs1).
  assert (H2 : file_is q d w2) by (unfold file_is; now rewrite Hfs2).
  assert (Hd2 : lookup (w_fs w2) (canon path) = None) by now rewrite Hfs2.
  pose proof (fopen_w_keeps_file w2 path Hd2 H2) as H3.
  destruct (fopen_w w2 path) as [fp w3]. cbn [snd] in H3.
  destruct (fp && malloc w2 _); [|exact H3].
  assert (Hq : q <> canon path) by (unfold file_is in H; congruence).
  match goal with
  | |- context [write_loop ?t ?a ?b ?c ?e ?g ?h ?i ?j] =>
      pose proof (write_loop_other q t a b c e g h i j Hq) as Hl;
      destruct (write_loop t a b c e g h i j) as [pos w4]
  end.
  cbn [snd] in *. unfold file_is. now rewrite Hl.
Qed.

End KeepsFile.

Section KeepsDirectory.

Variable q : string.

Lemma update_keeps_dir fs p n :
  (exists names, lookup fs q = Some (NDir names)) ->
  (q = p -> exists names, n = NDir names) ->
  exists names, lookup (update fs p n) q = Some (NDir names).
Proof.
  intros H Hn. destruct (string_dec q p) as [->|Hne].
  - destruct (Hn eq_refl) as [names ->]. exists names. apply lookup_update_same.
  - now rewrite lookup_update_other.
Qed.

Lemma link_keeps_dir w p n w' :
  link w p n = Some w' -> lookup (w_fs w) (canon p) = None -> dir_is q w -> dir_is q w'.
Proof.
  unfold link, dir_is. destruct (parent_of p) as [dir base].
  destruct (lookup (w_fs w) dir) as [[f|names]|] eqn:Hdir; try discriminate.
  intros H Hp Hq. injection H as <-. cbn.
  apply update_keeps_dir; [apply update_keeps_dir|].
  - exact Hq.
  - intros _. now eexists.
  - intros ->. destruct Hq as [names' Hq]. congruence.
Qed.

Lemma is_dir_errno w e : dir_is q w -> dir_is q (set_errno e w).
Proof. exact (fun H => H). Qed.

Lemma is_dir_opens w v : dir_is q w -> dir_is q (set_opens v w).
Proof. exact (fun H => H). Qed.

Lemma is_dir_mkdir w p : dir_is q w -> dir_is q (snd (mkdir w p)).
Proof.
  intros H. unfold mkdir.
  destruct (lookup (w_fs w) (canon p)) eqn:Hp; [exact H|].
  destruct (link w p (NDir [])) eqn:E; [|exact H].
  eapply link_keeps_dir; eassumption.
Qed.

Lemma is_dir_fopen_w w p : dir_is q w -> dir_is q (snd (fopen_w w p)).
Proof.
  intros H. unfold fopen_w.
  destruct (lookup (w_fs w) (canon p)) as [[f|names]|] eqn:Hp; [|exact H|].
  - cbn. apply update_keeps_dir; [exact H|].
    intros ->. destruct H as [names H]. congruence.
  - destruct (link w p (NFile empty_file)) as [w0|] eqn:E; [|exact H].
    change (dir_is q w0). eapply link_keeps_dir; eassumption.
Qed.

Lemma is_dir_fwrite w p data : dir_is q w -> dir_is q (snd (fwrite w p data)).
Proof.
  intros H. unfold fwrite.
  destruct (lookup (w_fs w) (canon p)) as [[f|names]|] eqn:Hp; try exact H.
  cbn. apply update_keeps_dir; [exact H|].
  intros ->. destruct H as [names H]. congruence.
Qed.

Lemma is_dir_progress w op path pos total :
  0 < total -> dir_is q w -> dir_is q (snd (fsShowProgress w op path pos total)).
Proof. intros _ H. unfold dir_is. now rewrite fsShowProgress_fs. Qed.

Lemma fsPathCopy_keeps_dir depth w path dest sp :
  dir_is q w -> dir_is q (snd (fsPathCopy depth w path dest sp)).
Proof.
  intros H. destruct (fsPathCopy depth w path dest sp) as [r w'] eqn:E.
  refine (fsPathCopy_keeps (dir_is q) is_dir_errno is_dir_opens is_dir_mkdir
            is_dir_fopen_w is_dir_fwrite is_dir_progress depth w path dest sp
            r w' H E).
Qed.

Lemma copy_children_keeps_dir depth dest sp contents w :
  dir_is q w -> dir_is q (snd (copy_children (fsPathCopy depth) dest sp contents w)).
Proof.
  intros H.
  destruct (copy_children (fsPathCopy depth) dest sp contents w) as [r w'] eqn:E.
  eapply (copy_children_keeps (dir_is q)); [|exact H|exact E].
  intros wa pa da spa ra wa' Ha Hc.
  replace wa' with (snd (fsPathCopy depth wa pa da spa)) by now rewrite Hc.
  now apply fsPathCopy_keeps_dir.
Qed.

End KeepsDirectory.

Lemma is_dir_in_iff fs p :
  is_dir_in fs p = true <-> exists names, lookup fs (canon p) = Some (NDir names).
Proof.
  unfold is_dir_in. destruct (lookup fs (canon p)) as [[f|names]|]; split;
    try discriminate; try (intros [names' H]; discriminate); eauto.
Qed.

Lemma file_at_iff w p d :
  file_at w p = Some d <-> lookup (w_fs w) (canon p) = Some (NFile d).
Proof.
  unfold file_at. destruct (lookup (w_fs w) (canon p)) as [[f|names]|]; split;
    congruence.
Qed.

(** X16.  A copy only adds.  Whatever fsPathCopy returns, and wherever it
    stops, a regular file that was there before is there afterwards with
    the same content, and a directory is still a directory. *)
Theorem copy_keeps_files_and_directories :
  forall (depth : nat) (w : World) (path dest : string) (showProgress : bool)
         (q : string),
    (forall d, file_at w q = Some d ->
               file_at (snd (fsPathCopy depth w path dest showProgress)) q = Some d)
    /\ (is_dir_in (w_fs w) q = true ->
        is_dir_in (w_fs (snd (fsPathCopy depth w path dest showProgress))) q = true).
Proof.
  intros depth w path dest sp q. split.
  - intros d H. apply file_at_iff. apply file_at_iff in H.
    now apply fsPathCopy_keeps_file.
  - intros H. apply is_dir_in_iff. apply is_dir_in_iff in H.
    now apply fsPathCopy_keeps_dir.
Qed.

Lemma copy_keeps_files_and_directories_witness :
  file_at (snd (fsPathCopy 3 (sample []) "/d" "/e" false)) "/d/a.txt"
  = Some (file_of_list [4; 5]).
Proof.
  apply (proj1 (copy_keeps_files_and_directories 3 (sample []) "/d" "/e" false
                  "/d/a.txt")).
  reflexivity.
Defined.

(** X17.  fsCreateDummyFile only adds.  Whatever it returns, a regular
    file that was there before is there afterwards with the same
    content. *)
Theorem dummy_file_keeps_other_files :
  forall (w : World) (path : string) (size content : Z) (showProgress : bool)
         (q : string) (d : FileData),
    file_at w q = Some d ->
    file_at (snd (fsCreateDummyFile w path size content showProgress)) q = Some d.
Proof.
  intros w path size content sp q d H.
  apply file_at_iff. apply file_at_iff in H.
  now apply fsCreateDummyFile_keeps_file.
Qed.

Lemma dummy_file_keeps_other_files_witness :
  file_at (snd (fsCreateDummyFile (sample []) "/z.bin" 8 0x0100 false)) "/d/a.txt"
  = Some (file_of_list [4; 5]).
Proof.
  apply (dummy_file_keeps_other_files (sample []) "/z.bin" 8 0x0100 false
           "/d/a.txt" (file_of_list [4; 5])).
  reflexivity.
Defined.

(** X18.  When fsPathCopy returns true for a source that is a directory,
    the destination is a directory. *)
Theorem copied_directory_is_a_directory :
  forall (depth : nat) (w w' : World) (path dest : string) (showProgress : bool),
    is_dir_in (w_fs w) path = true ->
    fsPathCopy depth w path dest showProgress = (Some true, w') ->
    is_dir_in (w_fs w') dest = true.
Proof.
  intros depth w w' path dest sp Hdir H.
  destruct depth as [|n]; cbn [fsPathCopy] in H; [discriminate|].
  destruct (fsExists w dest) as [[|] w1] eqn:E1; [discriminate|].
  apply fsExists_false in E1 as [Hdest Hfs1].
  pose proof (tick_fs w1 sp "Copying" path 0 1) as Ht.
  destruct (if sp then _ else _) as [go w2]. cbn [snd] in Ht.
  destruct go; cbn [negb] in H; [|discriminate].
  apply is_dir_in_iff in Hdir as [names Hdir].
  rewrite (fsIsDirectory_dir w2 path names) in H by now rewrite Ht, Hfs1.
  destruct (negb (is_npos _)); [discriminate|].
  destruct (mkdir w2 dest) as [rc w4] eqn:E4.
  destruct (Z.eqb_spec rc 0) as [->|Hrc]; cbn [negb] in H; [|discriminate].
  assert (H4 : exists names, lookup (w_fs w4) (canon dest) = Some (NDir names)).
  { unfold mkdir in E4. rewrite Ht, Hfs1, Hdest in E4.
    destruct (link w2 dest (NDir [])) as [wl|] eqn:El; [|discriminate].
    injection E4 as <-. exists []. eapply link_binds; eassumption. }
  pose proof (tick_fs w4 sp "Copying" path 1 2) as Ht5.
  destruct (if sp then _ else _) as [go w5]. cbn [snd] in Ht5.
  destruct go; cbn [negb] in H; [|discriminate].
  pose proof (fsGetDirectoryContents_fs w5 path) as Hfs6.
  destruct (fsGetDirectoryContents w5 path) as [contents w6]. cbn [snd] in Hfs6.
  apply is_dir_in_iff.
  replace w' with (snd (copy_children (fsPathCopy n) dest sp contents w6))
    by now rewrite H.
  apply copy_children_keeps_dir. unfold dir_is. now rewrite Hfs6, Ht5.
Qed.

Lemma copied_directory_is_a_directory_witness :
  is_dir_in (w_fs (snd (fsPathCopy 3 (sample []) "/d/A" "/e" false))) "/e" = true.
Proof.
  apply (copied_directory_is_a_directory 3 (sample []) _ "/d/A" "/e" false).
  - reflexivity.
  - vm_compute. reflexivity.
Defined.

(** ** A destination that cannot be opened *)

Lemma fopen_w_no_directory w p :
  lookup (w_fs w) (canon p) = None ->
  (forall names, lookup (w_fs w) (fst (parent_of p)) <> Some (NDir names)) ->
  fopen_w w p = (false, set_errno ENOENT w).
Proof.
  intros Hp Hdir. unfold fopen_w, link. rewrite Hp.
  destruct (parent_of p) as [dir base]. cbn [fst] in Hdir.
  destruct (lookup (w_fs w) dir) as [[d|names]|]; try reflexivity.
  now destruct (Hdir names).
Qed.

(** X21.  A file copy whose destination cannot be created reports success.
    When the source is not a directory and the destination is a free path
    whose directory does not exist (B not pressed at the first tick),
    [fopen(dest, "wb")] fails, the body that copies is skipped, and
    fsPathCopy returns true with the tree as it was. *)
Theorem copy_into_missing_directory_reports_success :
  forall (depth : nat) (w : World) (src dest : string) (showProgress : bool),
    is_dir_in (w_fs w) src = false ->
    lookup (w_fs w) (canon dest) = None ->
    (forall names, lookup (w_fs w) (fst (parent_of dest)) <> Some (NDir names)) ->
    (showProgress = true -> Forall (eq false) (w_pad w)) ->
    exists w',
      fsPathCopy (S depth) w src dest showProgress = (Some true, w')
      /\ w_fs w' = w_fs w.
Proof.
  intros depth w src dest sp Hsrc Hdest Hdir Hpad.
  cbn [fsPathCopy].
  rewrite (fsExists_unbound w dest Hdest).
  destruct (quiet_tick (set_errno ENOENT w) sp "Copying" src 0 1 Hpad)
    as (w2 & Hgo & Hfs2 & _).
  rewrite Hgo. cbn [negb]. cbn [w_fs set_errno] in Hfs2.
  unfold is_dir_in in Hsrc.
  destruct (lookup (w_fs w) (canon src)) as [[f|names]|] eqn:Es; [|discriminate|].
  - rewrite (fsIsDirectory_file w2 src f) by now rewrite Hfs2.
    rewrite (fsGetFileSize_file _ src f) by (cbn [w_fs set_errno]; now rewrite Hfs2).
    rewrite (fopen_r_file _ src f) by (cbn [w_fs set_errno]; now rewrite Hfs2).
    rewrite fopen_w_no_directory
      by (cbn [w_fs set_errno set_opens]; now rewrite Hfs2).
    cbn [andb]. eexists. split; [reflexivity|]. exact Hfs2.
  - rewrite (fsIsDirectory_missing w2 src) by now rewrite Hfs2.
    rewrite (fsGetFileSize_missing _ src) by (cbn [w_fs set_errno]; now rewrite Hfs2).
    rewrite (fopen_r_missing _ src) by (cbn [w_fs set_errno]; now rewrite Hfs2).
    rewrite fopen_w_no_directory by (cbn [w_fs set_errno]; now rewrite Hfs2).
    eexists. split; [reflexivity|]. exact Hfs2.
Qed.

Lemma copy_into_missing_directory_reports_success_witness :
  exists w',
    fsPathCopy 1 (sample []) "/f.bin" "/nowhere/copy" false = (Some true, w')
    /\ w_fs w' = w_fs (sample []).
Proof.
  apply (copy_into_missing_directory_reports_success 0 (sample []) "/f.bin"
           "/nowhere/copy" false).
  - reflexivity.
  - reflexivity.
  - intros names. vm_compute. discriminate.
  - discriminate.
Defined.

(** ** Cancelling a copy *)

Lemma pressed_tick w op path pos total rest :
  w_pad w = true :: rest ->
  exists w',
    fsShowProgress w op path pos total = (false, w')
    /\ w_fs w' = w_fs w /\ w_errno w' = w_errno w.
Proof.
  intros Hpad.
  destruct (fsShowProgress_world w op path pos total) as (Hgo & Hfs & _).
  exists (snd (fsShowProgress w op path pos total)).
  rewrite (surjective_pairing (fsShowProgress w op path pos total)) at 1.
  rewrite Hgo, Hpad. split; [reflexivity|]. split; [exact Hfs|].
  unfold fsShowProgress, hid_poll_pressed_B. cbv zeta.
  generalize (u32 (u64 (pos * 100) / total)). intros progress.
  destruct w as [fs free heap errno junk prev pad screen calls opens].
  cbn [w_pad] in Hpad. subst pad.
  cbn [w_prevProgress w_pad set_calls].
  destruct (negb (prev =? progress)); reflexivity.
Qed.

Lemma released_tick w op path pos total rest :
  w_pad w = false :: rest ->
  exists w',
    fsShowProgress w op path pos total = (true, w')
    /\ w_fs w' = w_fs w /\ w_free w' = w_free w /\ w_heap w' = w_heap w
    /\ w_pad w' = rest.
Proof.
  intros Hpad.
  destruct (fsShowProgress_world w op path pos total) as (Hgo & Hfs & Hfr & Hh & Hp).
  exists (snd (fsShowProgress w op path pos total)).
  rewrite (surjective_pairing (fsShowProgress w op path pos total)) at 1.
  rewrite Hgo, Hp, Hpad. repeat split; assumption.
Qed.

(** X22.  Cancelling with B.  With progress shown and a free destination:
    when B is down at the first poll, fsPathCopy returns false with errno
    ECANCELED and the tree as it was.  When B is down at the second poll
    and the source is a regular file that is not empty, it returns false
    with errno ECANCELED after the first buffer has been written, and the
    destination stays: a file with the first [min(size, 4 MiB)] bytes of
    the source. *)
Theorem cancelled_copy :
  forall (depth : nat) (w : World) (src dest : string) (rest : list bool),
    lookup (w_fs w) (canon dest) = None ->
    (w_pad w = true :: rest ->
     exists w',
       fsPathCopy (S depth) w src dest true = (Some false, w')
       /\ w_errno w' = ECANCELED /\ w_fs w' = w_fs w)
    /\ (forall f names,
          w_pad w = false :: true :: rest ->
          lookup (w_fs w) (canon src) = Some (NFile f) ->
          0 < f_size f < 2 ^ 32 ->
          lookup (w_fs w) (fst (parent_of dest)) = Some (NDir names) ->
          Z.min (f_size f) CTRX_BUFSIZ <= w_free w ->
          Z.min (f_size f) CTRX_BUFSIZ <= w_heap w ->
          exists w' d,
            fsPathCopy (S depth) w src dest true = (Some false, w')
            /\ w_errno w' = ECANCELED
            /\ file_at w' dest = Some d
            /\ f_size d = Z.min (f_size f) CTRX_BUFSIZ
            /\ forall i, 0 <= i < f_size d -> f_byte d i = f_byte f i).
Proof.
  intros depth w src dest rest Hdest. split.
  - intros Hpad. cbn [fsPathCopy].
    rewrite (fsExists_unbound w dest Hdest).
    destruct (pressed_tick (set_errno ENOENT w) "Copying" src 0 1 rest Hpad)
      as (w2 & Hgo & Hfs2 & _).
    rewrite Hgo. cbn [negb]. eexists. split; [reflexivity|]. now split.
  - intros f names Hpad Hsrc Hsize Hdir Hroom Hheap. cbn [fsPathCopy].
    rewrite (fsExists_unbound w dest Hdest).
    destruct (released_tick (set_errno ENOENT w) "Copying" src 0 1 _ Hpad)
      as (w2 & Hgo & Hfs2 & Hfree2 & Hheap2 & Hpad2).
    rewrite Hgo. cbn [negb]. cbn [w_fs w_free w_heap set_errno] in Hfs2, Hfree2, Hheap2.
    rewrite (fsIsDirectory_file w2 src f) by (rewrite Hfs2; exact Hsrc).
    rewrite (fsGetFileSize_file _ src f)
      by (cbn [w_fs set_errno]; rewrite Hfs2; exact Hsrc).
    rewrite (u32_small (f_size f)) by lia.
    rewrite (fopen_r_file _ src f)
      by (cbn [w_fs set_errno]; rewrite Hfs2; exact Hsrc).
    set (w5 := set_opens _ (set_errno ENOTDIR w2)).
    destruct (fopen_w_creates w5 dest names)
      as (w6 & Ho & Hd6 & Hoth6 & Hfree6 & Hpad6);
      [unfold w5; cbn [w_fs set_errno set_opens]; rewrite Hfs2; assumption..|].
    rewrite Ho.
    set (l := if f_size f <? CTRX_BUFSIZ then f_size f else CTRX_BUFSIZ).
    assert (Hl : l = Z.min (f_size f) CTRX_BUFSIZ)
      by (unfold l; destruct (Z.ltb_spec (f_size f) CTRX_BUFSIZ); lia).
    replace (malloc (set_errno ENOTDIR w2) l) with true
      by (symmetry; unfold malloc; cbn [w_heap set_errno]; apply Z.leb_le; lia).
    cbn [andb copy_loop]. cbv zeta.
    fold (blen (fread_at f 0 l)).
    assert (Hlen : blen (fread_at f 0 l) = l)
      by (rewrite blen_fread_at; unfold CTRX_BUFSIZ in *; lia).
    rewrite Hlen.
    replace (l >? 0) with true
      by (symmetry; apply Z.gtb_lt; unfold CTRX_BUFSIZ in *; lia).
    destruct (fwrite_whole w6 dest (fread_at f 0 l) empty_file Hd6)
      as (w7 & Hw & Hd7 & _ & _ & Hpad7).
    { rewrite Hlen, Hfree6. unfold w5. cbn [w_free set_errno set_opens]. lia. }
    rewrite Hw, Hlen.
    destruct (pressed_tick w7 "Copying" src (u64 (0 + l)) (f_size f) rest)
      as (w8 & Hgo8 & Hfs8 & _).
    { rewrite Hpad7, Hpad6. unfold w5. cbn [w_pad set_errno set_opens].
      exact Hpad2. }
    rewrite Hgo8. cbn [negb andb].
    exists (set_errno ECANCELED w8), (f_append empty_file (fread_at f 0 l)).
    split; [reflexivity|]. split; [reflexivity|].
    split; [apply file_at_iff; cbn [w_fs set_errno]; now rewrite Hfs8|].
    cbn [f_size f_append empty_file]. fold (blen (fread_at f 0 l)).
    rewrite Hlen. split; [lia|].
    intros i Hi. cbn [f_byte f_append f_size empty_file].
    replace (i <? 0) with false by (symmetry; apply Z.ltb_ge; lia).
    rewrite Z.sub_0_r. fold (bget (fread_at f 0 l) i).
    rewrite bget_fread_at by lia. reflexivity.
Qed.

Lemma cancelled_copy_witness :
  exists w',
    fsPathCopy 1 (sample [true]) "/f.bin" "/copy" true = (Some false, w')
    /\ w_errno w' = ECANCELED /\ w_fs w' = w_fs (sample [true]).
Proof.
  apply (proj1 (cancelled_copy 0 (sample [true]) "/f.bin" "/copy" []
                  ltac:(reflexivity))).
  reflexivity.
Defined.

(** ** Canonical paths *)

Lemma canon_app_slash p : canon (p ++ "/") = canon p.
Proof. induction p as [|c r IH]; cbn; [reflexivity | now rewrite IH]. Qed.

Lemma canon_dir_with_slash p : canon (dir_with_slash p) = canon p.
Proof.
  unfold dir_with_slash. destruct (hasSlash p); [reflexivity | apply canon_app_slash].
Qed.

Lemma canon_app a b :
  canon (a ++ b) = match canon b with
                   | EmptyString => canon a
                   | cb => (a ++ cb)%string
                   end.
Proof.
  induction a as [|c a IH]; cbn [append canon].
  - destruct (canon b); reflexivity.
  - rewrite IH. destruct (canon b) as [|x cb]; [reflexivity|].
    destruct a; reflexivity.
Qed.

Lemma canon_nil_head c z :
  canon (String c z) = EmptyString -> c = "/"%char /\ canon z = EmptyString.
Proof.
  cbn. destruct (canon z); [|discriminate].
  destruct (Ascii.eqb_spec c "/"); [now split | discriminate].
Qed.

(** A path is its canonical form followed by slashes. *)
Lemma canon_split t :
  exists z, t = (canon t ++ z)%string /\ canon z = EmptyString.
Proof.
  induction t as [|c r (z & Hr & Hz)]; [now exists EmptyString|].
  cbn [canon]. destruct (canon r) as [|x cr] eqn:Ecr.
  - cbn in Hr. subst z. destruct (Ascii.eqb_spec c "/") as [->|Hc].
    + exists (String "/" r). split; [reflexivity|]. cbn. now rewrite Ecr.
    + exists r. split; [reflexivity | exact Ecr].
  - exists z. split; [|exact Hz]. cbn. now rewrite Hr at 1.
Qed.

Lemma slashes_shift z r :
  canon z = EmptyString -> exists v, (z ++ "/" ++ r = "/" ++ v)%string.
Proof.
  destruct z as [|c z]; intros H; [now exists r|].
  apply canon_nil_head in H as [-> _]. now eexists.
Qed.

(** What fsGetDirectoryContents gives as the path of an entry lies below the
    directory. *)
Lemma child_below path name : below path (canon (dir_with_slash path ++ name)).
Proof.
  destruct (dir_with_slash_ends path) as [t Ht].
  pose proof (canon_dir_with_slash path) as Hc.
  rewrite Ht in *. rewrite canon_app_slash in Hc.
  rewrite string_app_assoc, canon_app. unfold below. rewrite <- Hc.
  change ("/" ++ name)%string with (String "/" name). cbn [canon].
  destruct (canon name) as [|x cn].
  - rewrite Ascii.eqb_refl. now left.
  - right. destruct (canon_split t) as (z & Hz & Hzz).
    destruct (slashes_shift z (String x cn) Hzz) as [v Hv].
    exists v. rewrite Hz at 1. rewrite string_app_assoc.
    change (String "/" (String x cn)) with ("/" ++ String x cn)%string.
    now rewrite Hv.
Qed.

Lemma below_trans path c q : below path (canon c) -> below c q -> below path q.
Proof.
  unfold below. intros [Hc | [r Hc]] [Hq | [rest Hq]]; rewrite Hc in Hq.
  - now left.
  - right. now exists rest.
  - right. now exists r.
  - right. exists (r ++ "/" ++ rest)%string. rewrite Hq.
    now rewrite !string_app_assoc.
Qed.

(** ** Taking nodes out *)

Lemma lookup_remove_key_same fs p : lookup (remove_key fs p) p = None.
Proof.
  unfold remove_key. induction fs as [|[k n] rest IH]; cbn; [reflexivity|].
  destruct (String.eqb k p) eqn:E; cbn; [exact IH|]. now rewrite E.
Qed.

Lemma lookup_remove_key_other fs p q :
  q <> p -> lookup (remove_key fs p) q = lookup fs q.
Proof.
  intros Hne. unfold remove_key. induction fs as [|[k n] rest IH]; cbn;
    [reflexivity|].
  destruct (String.eqb_spec k p) as [->|Hk]; cbn.
  - destruct (String.eqb_spec p q); [congruence | exact IH].
  - destruct (String.eqb_spec k q); [reflexivity | exact IH].
Qed.

Lemma unlink_node_gone w path :
  lookup (w_fs (unlink_node w path)) (canon path) = None.
Proof.
  unfold unlink_node. destruct (parent_of path) as [dir base].
  destruct (lookup (remove_key (w_fs w) (canon path)) dir) as [[d|names]|] eqn:E;
    cbn [w_fs set_fs]; try apply lookup_remove_key_same.
  rewrite lookup_update_other; [apply lookup_remove_key_same|].
  intros Heq. subst dir. rewrite lookup_remove_key_same in E. discriminate.
Qed.

Lemma unlink_node_none w path q :
  lookup (w_fs w) q = None -> lookup (w_fs (unlink_node w path)) q = None.
Proof.
  intros H. unfold unlink_node. destruct (parent_of path) as [dir base].
  assert (H1 : lookup (remove_key (w_fs w) (canon path)) q = None).
  { destruct (string_dec q (canon path)) as [->|Hne];
      [apply lookup_remove_key_same | now rewrite lookup_remove_key_other]. }
  destruct (lookup (remove_key (w_fs w) (canon path)) dir) as [[d|names]|] eqn:E;
    cbn [w_fs set_fs]; try exact H1.
  rewrite lookup_update_other; [exact H1 | congruence].
Qed.

Lemma unlink_node_file w path q d :
  q <> canon path ->
  lookup (w_fs w) q = Some (NFile d) ->
  lookup (w_fs (unlink_node w path)) q = Some (NFile d).
Proof.
  intros Hne H. unfold unlink_node. destruct (parent_of path) as [dir base].
  assert (H1 : lookup (remove_key (w_fs w) (canon path)) q = Some (NFile d))
    by now rewrite lookup_remove_key_other.
  destruct (lookup (remove_key (w_fs w) (canon path)) dir) as [[f|names]|] eqn:E;
    cbn [w_fs set_fs]; try exact H1.
  rewrite lookup_update_other; [exact H1 | congruence].
Qed.

Lemma unlink_node_dir w path q :
  q <> canon path ->
  (exists names, lookup (w_fs w) q = Some (NDir names)) ->
  exists names, lookup (w_fs (unlink_node w path)) q = Some (NDir names).
Proof.
  intros Hne H. unfold unlink_node. destruct (parent_of path) as [dir base].
  assert (H1 : exists names,
             lookup (remove_key (w_fs w) (canon path)) q = Some (NDir names))
    by now rewrite lookup_remove_key_other.
  destruct (lookup (remove_key (w_fs w) (canon path)) dir) as [[f|names]|] eqn:E;
    cbn [w_fs set_fs]; try exact H1.
  apply update_keeps_dir; [exact H1|]. intros _. now eexists.
Qed.

Lemma unlink_node_other w path q :
  q <> canon path -> q <> fst (parent_of path) ->
  lookup (w_fs (unlink_node w path)) q = lookup (w_fs w) q.
Proof.
  intros Hne Hd. unfold unlink_node. destruct (parent_of path) as [dir base].
  cbn [fst] in Hd.
  destruct (lookup (remove_key (w_fs w) (canon path)) dir) as [[f|names]|];
    cbn [w_fs set_fs]; rewrite ?lookup_update_other by exact Hd;
    now apply lookup_remove_key_other.
Qed.

Lemma remove_fs w path :
  w_fs (snd (remove w path)) = w_fs w
  \/ (fst (remove w path) = 0 /\
      w_fs (snd (remove w path)) = w_fs (unlink_node w path)).
Proof.
  unfold remove. destruct (lookup (w_fs w) (canon path)) as [[d|names]|];
    [right; split; reflexivity | left; reflexivity..].
Qed.

Lemma rmdir_fs w path :
  w_fs (snd (rmdir w path)) = w_fs w
  \/ (fst (rmdir w path) = 0 /\
      w_fs (snd (rmdir w path)) = w_fs (unlink_node w path)).
Proof.
  unfold rmdir. destruct (lookup (w_fs w) (canon path)) as [[d|names]|];
    try (left; reflexivity).
  destruct (forallb is_dots names); [right; split; reflexivity | left; reflexivity].
Qed.

Lemma remove_fails w path :
  fst (remove w path) <> 0 -> w_fs (snd (remove w path)) = w_fs w.
Proof. destruct (remove_fs w path) as [H | [H _]]; [now intros _ | congruence]. Qed.

Lemma rmdir_fails w path :
  fst (rmdir w path) <> 0 -> w_fs (snd (rmdir w path)) = w_fs w.
Proof. destruct (rmdir_fs w path) as [H | [H _]]; [now intros _ | congruence]. Qed.

(** ** fsPathDelete *)

Section DeleteKeeps.

Variable P : FS -> Prop.
Variable ok : string -> Prop.
Hypothesis P_unlink :
  forall w p, ok p -> P (w_fs w) -> P (w_fs (unlink_node w p)).
Hypothesis ok_child :
  forall path name, ok path -> ok (dir_with_slash path ++ name).

Lemma remove_keeps w p : ok p -> P (w_fs w) -> P (w_fs (snd (remove w p))).
Proof. intros Hp H. destruct (remove_fs w p) as [E | [_ E]]; rewrite E; auto. Qed.

Lemma rmdir_keeps w p : ok p -> P (w_fs w) -> P (w_fs (snd (rmdir w p))).
Proof. intros Hp H. destruct (rmdir_fs w p) as [E | [_ E]]; rewrite E; auto. Qed.

Lemma delete_children_keeps del contents : forall w,
  (forall w p, ok p -> P (w_fs w) -> P (w_fs (snd (del w p)))) ->
  Forall (fun it => ok (fi_path it)) contents ->
  P (w_fs w) -> P (w_fs (snd (delete_children del contents w))).
Proof.
  induction contents as [|it rest IH]; intros w Hdel Hok H; cbn [delete_children];
    [exact H|].
  apply Forall_cons_iff in Hok as [Hit Hrest].
  pose proof (Hdel w (fi_path it) Hit H) as H1.
  destruct (del w (fi_path it)) as [[[|]|] w1]; cbn [snd] in *; auto.
Qed.

Lemma listed_paths_ok w path :
  ok path ->
  Forall (fun it => ok (fi_path it)) (fst (fsGetDirectoryContents w path)).
Proof.
  intros Hp. rewrite fsGetDirectoryContents_entries.
  destruct (lookup (w_fs w) _) as [[d|names]|]; try constructor.
  apply Forall_forall. intros it Hin. apply in_map_iff in Hin as (name & <- & _).
  now apply ok_child.
Qed.

Lemma fsPathDelete_keeps depth : forall w path,
  ok path -> P (w_fs w) -> P (w_fs (snd (fsPathDelete depth w path))).
Proof.
  induction depth as [|n IH]; intros w path Hp H; cbn [fsPathDelete]; [exact H|].
  pose proof (fsIsDirectory_fs w path) as Hfs1.
  destruct (fsIsDirectory w path) as [[|] w1]; cbn [snd] in Hfs1.
  - pose proof (fsGetDirectoryContents_fs w1 path) as Hfs2.
    pose proof (listed_paths_ok w1 path Hp) as Hok.
    destruct (fsGetDirectoryContents w1 path) as [contents w2].
    cbn [fst snd] in Hfs2, Hok.
    assert (H2 : P (w_fs w2)) by now rewrite Hfs2, Hfs1.
    pose proof (delete_children_keeps (fsPathDelete n) contents w2 IH Hok H2) as H3.
    destruct (delete_children (fsPathDelete n) contents w2) as [[[|]|] w3];
      cbn [snd] in *; try exact H3.
    pose proof (rmdir_keeps w3 path Hp H3) as H4.
    now destruct (rmdir w3 path) as [rc w4].
  - assert (H1 : P (w_fs w1)) by now rewrite Hfs1.
    pose proof (remove_keeps w1 path Hp H1) as H2.
    now destruct (remove w1 path) as [rc w2].
Qed.

End DeleteKeeps.

Lemma not_below_child path name q :
  ~ below path q -> ~ below (dir_with_slash path ++ name) q.
Proof.
  intros H Hc. apply H. eapply below_trans; [apply child_below | exact Hc].
Qed.

Lemma not_below_ne path q : ~ below path q -> q <> canon path.
Proof. intros H ->. apply H. now left. Qed.

(** The conditions on a given tree and path, by computation. *)
Lemma entry_nameb_spec name : entry_nameb name = true -> entry_name name.
Proof.
  unfold entry_nameb. intros H.
  apply andb_prop in H as [H Hdd]. apply andb_prop in H as [Hg Hd].
  split; [now apply good_nameb_spec|].
  split; intros ->; discriminate.
Qed.

Lemma lists_no_dots_check w : lists_no_dotsb (w_fs w) = true -> lists_no_dots w.
Proof.
  unfold lists_no_dots, lists_no_dotsb. induction (w_fs w) as [|[k n] rest IH];
    intros H key names Hk; cbn [lookup] in Hk; [discriminate|].
  cbn [forallb snd] in H. apply andb_prop in H as [Hn Hrest].
  destruct (String.eqb k key); [|exact (IH Hrest key names Hk)].
  injection Hk as ->. apply Forall_forall. intros name Hin.
  apply entry_nameb_spec. rewrite forallb_forall in Hn. now apply Hn.
Qed.

Lemma plain_path_check components :
  forallb entry_nameb components = true ->
  plain_path (concat EmptyString (map (String "/") components)).
Proof.
  intros H. exists components. split; [|reflexivity].
  apply Forall_forall. intros name Hin. apply entry_nameb_spec.
  rewrite forallb_forall in H. now apply H.
Qed.

(** X23.  A recursive delete stays inside the tree it is given.  Take a
    tree in which no directory stream reports [.] or [..], and a path made
    of plain names, so that paths are names and nothing else.  Whatever
    fsPathDelete returns, and wherever it stops: a path that named nothing
    names nothing afterwards; and outside [path] and what lies below it,
    every regular file is there with its content and every directory is
    still a directory. *)
Theorem delete_stays_below_its_path :
  forall (depth : nat) (w : World) (path key : string),
    lists_no_dots w ->
    plain_path path ->
    (lookup (w_fs w) key = None ->
     lookup (w_fs (snd (fsPathDelete depth w path))) key = None)
    /\ (~ below path key ->
        (forall d, lookup (w_fs w) key = Some (NFile d) ->
                   lookup (w_fs (snd (fsPathDelete depth w path))) key
                   = Some (NFile d))
        /\ ((exists names, lookup (w_fs w) key = Some (NDir names)) ->
            exists names, lookup (w_fs (snd (fsPathDelete depth w path))) key
                          = Some (NDir names))).
Proof.
  intros depth w path key _ _. split; [|intros Hout; split].
  - apply (fsPathDelete_keeps (fun fs => lookup fs key = None) (fun _ => True));
      [|auto|exact I].
    intros w0 p _. apply unlink_node_none.
  - intros d.
    apply (fsPathDelete_keeps (fun fs => lookup fs key = Some (NFile d))
             (fun p => ~ below p key)); [| |exact Hout].
    + intros w0 p Hp. apply unlink_node_file. now apply not_below_ne.
    + intros p name. apply not_below_child.
  - apply (fsPathDelete_keeps
             (fun fs => exists names, lookup fs key = Some (NDir names))
             (fun p => ~ below p key)); [| |exact Hout].
    + intros w0 p Hp. apply unlink_node_dir. now apply not_below_ne.
    + intros p name. apply not_below_child.
Qed.

Lemma delete_stays_below_its_path_witness :
  lookup (w_fs (snd (fsPathDelete 3 (plain_sample []) "/d/A"))) "/d/b.txt"
  = Some (NFile (file_of_list [1; 2; 3])).
Proof.
  apply (proj1 (proj2 (delete_stays_below_its_path 3 (plain_sample []) "/d/A"
                         "/d/b.txt"
                         (lists_no_dots_check (plain_sample []) eq_refl)
                         (plain_path_check ["d"; "A"]%string eq_refl))
                  ltac:(intros [H | [rest H]]; discriminate H))).
  reflexivity.
Defined.

Lemma remove_zero w path :
  fst (remove w path) = 0 ->
  w_fs (snd (remove w path)) = w_fs (unlink_node w path).
Proof.
  unfold remove. destruct (lookup (w_fs w) (canon path)) as [[d|names]|];
    cbn; [reflexivity | discriminate..].
Qed.

Lemma rmdir_zero w path :
  fst (rmdir w path) = 0 ->
  w_fs (snd (rmdir w path)) = w_fs (unlink_node w path).
Proof.
  unfold rmdir. destruct (lookup (w_fs w) (canon path)) as [[d|names]|];
    cbn; try discriminate.
  destruct (forallb is_dots names); cbn; [reflexivity | discriminate].
Qed.

(** X24.  When fsPathDelete returns true, the path names nothing
    afterwards. *)
Theorem deleted_path_is_gone :
  forall (depth : nat) (w : World) (path : string),
    fst (fsPathDelete depth w path) = Some true ->
    node_at (snd (fsPathDelete depth w path)) path = None.
Proof.
  intros depth w path. unfold node_at.
  destruct depth as [|n]; cbn [fsPathDelete]; [discriminate|].
  destruct (fsIsDirectory w path) as [[|] w1].
  - destruct (fsGetDirectoryContents w1 path) as [contents w2].
    destruct (delete_children (fsPathDelete n) contents w2) as [[[|]|] w3];
      cbn [fst snd]; try discriminate.
    pose proof (rmdir_zero w3 path) as Hz.
    destruct (rmdir w3 path) as [rc w4]. cbn [fst snd] in *.
    destruct (Z.eqb_spec rc 0) as [->|Hrc]; [|discriminate].
    intros _. rewrite Hz by reflexivity. apply unlink_node_gone.
  - pose proof (remove_zero w1 path) as Hz.
    destruct (remove w1 path) as [rc w2]. cbn [fst snd] in *.
    destruct (Z.eqb_spec rc 0) as [->|Hrc]; [|discriminate].
    intros _. rewrite Hz by reflexivity. apply unlink_node_gone.
Qed.

Lemma deleted_path_is_gone_witness :
  node_at (snd (fsPathDelete 1 (sample []) "/d/a.txt")) "/d/a.txt" = None.
Proof.
  apply (deleted_path_is_gone 1 (sample []) "/d/a.txt"). reflexivity.
Defined.

Lemma delete_missing depth w path :
  lookup (w_fs w) (canon path) = None ->
  fsPathDelete (S depth) w path = (Some false, set_errno ENOENT (set_errno ENOENT w)).
Proof.
  intros H. cbn [fsPathDelete]. rewrite (fsIsDirectory_missing w path H).
  unfold remove. cbn [w_fs set_errno]. now rewrite H.
Qed.

Lemma delete_file depth w path f :
  lookup (w_fs w) (canon path) = Some (NFile f) ->
  fsPathDelete (S depth) w path
  = (Some true, set_free (w_free w + f_size f)
                  (unlink_node (set_errno ENOTDIR w) path)).
Proof.
  intros H. cbn [fsPathDelete]. rewrite (fsIsDirectory_file w path f H).
  unfold remove. cbn [w_fs set_errno]. now rewrite H.
Qed.

Lemma delete_empty_directory depth w path :
  lookup (w_fs w) (canon path) = Some (NDir []) ->
  fsPathDelete (S depth) w path = (Some true, unlink_node w path).
Proof.
  intros H. cbn [fsPathDelete]. rewrite (fsIsDirectory_dir w path [] H).
  unfold fsGetDirectoryContents, opendir.
  fold (dir_with_slash path). rewrite canon_dir_with_slash, H.
  cbn [map delete_children]. unfold rmdir. now rewrite H.
Qed.

(** X25.  The three leaves of the recursion.  A path that names nothing:
    fsPathDelete returns false with errno ENOENT and the tree as it was.  A
    regular file: it returns true, the file is gone, its bytes are free
    again and nothing else but the listing of its directory has changed.
    A directory without entries: it returns true and the directory is
    gone. *)
Theorem delete_of_a_leaf :
  forall (depth : nat) (w : World) (path : string),
    (node_at w path = None ->
     exists w', fsPathDelete (S depth) w path = (Some false, w')
                /\ w_errno w' = ENOENT /\ w_fs w' = w_fs w)
    /\ (forall f, node_at w path = Some (NFile f) ->
        exists w', fsPathDelete (S depth) w path = (Some true, w')
                   /\ node_at w' path = None
                   /\ w_free w' = w_free w + f_size f
                   /\ forall q, q <> canon path -> q <> fst (parent_of path) ->
                                lookup (w_fs w') q = lookup (w_fs w) q)
    /\ (node_at w path = Some (NDir []) ->
        exists w', fsPathDelete (S depth) w path = (Some true, w')
                   /\ node_at w' path = None
                   /\ forall q, q <> canon path -> q <> fst (parent_of path) ->
                                lookup (w_fs w') q = lookup (w_fs w) q).
Proof.
  intros depth w path. unfold node_at. split; [|split].
  - intros H. rewrite (delete_missing depth w path H).
    eexists. split; [reflexivity|]. now split.
  - intros f H. rewrite (delete_file depth w path f H).
    eexists. split; [reflexivity|]. cbn [w_fs w_free set_free].
    split; [apply (unlink_node_gone (set_errno ENOTDIR w))|].
    split; [reflexivity|].
    intros q Hq Hd. now rewrite unlink_node_other.
  - intros H. rewrite (delete_empty_directory depth w path H).
    eexists. split; [reflexivity|].
    split; [apply unlink_node_gone|].
    intros q Hq Hd. now rewrite unlink_node_other.
Qed.

Lemma delete_of_a_leaf_witness :
  exists w', fsPathDelete 1 (sample []) "/d/A" = (Some true, w')
             /\ node_at w' "/d/A" = None
             /\ forall q, q <> canon "/d/A" -> q <> fst (parent_of "/d/A") ->
                          lookup (w_fs w') q = lookup (w_fs (sample [])) q.
Proof.
  apply (proj2 (proj2 (delete_of_a_leaf 0 (sample []) "/d/A"))). reflexivity.
Defined.

(** ** fsCreateDir *)

Lemma filter_out_last (base : string) names :
  ~ In base names ->
  filter (fun n => negb (String.eqb n base)) (names ++ [base]) = names.
Proof.
  intros Hn. rewrite filter_app. cbn. rewrite String.eqb_refl. cbn.
  rewrite app_nil_r. induction names as [|n rest IH]; [reflexivity|].
  cbn. destruct (String.eqb_spec n base) as [->|Hne].
  - destruct Hn. now left.
  - cbn. f_equal. apply IH. intros Hin. apply Hn. now right.
Qed.

Lemma fsCreateDir_fresh w path names :
  lookup (w_fs w) (canon path) = None ->
  lookup (w_fs w) (fst (parent_of path)) = Some (NDir names) ->
  fsCreateDir w path
  = (true, set_fs (update (update (w_fs w) (fst (parent_of path))
                             (NDir (names ++ [snd (parent_of path)])))
                     (canon path) (NDir []))
             (set_errno ENOENT w)).
Proof.
  intros Hp Hdir. unfold fsCreateDir.
  rewrite (fsExists_unbound w path Hp).
  unfold mkdir, link. cbn [w_fs set_errno]. rewrite Hp.
  destruct (parent_of path) as [dir base]. cbn [fst snd] in *. now rewrite Hdir.
Qed.



(** X27.  Creating a directory and deleting it again gives the tree back,
    where the stream of the new directory reports nothing.  For a free
    path in an existing directory that does not list the name yet: when
    fsCreateDir has returned true and the new directory has no entry,
    fsPathDelete of the same path returns true, and every path then names
    what it named before. *)
Theorem create_then_delete_restores_the_tree :
  forall (depth : nat) (w w1 : World) (path : string) (names : list string),
    node_at w path = None ->
    lookup (w_fs w) (fst (parent_of path)) = Some (NDir names) ->
    ~ In (snd (parent_of path)) names ->
    fsCreateDir w path = (true, w1) ->
    node_at w1 path = Some (NDir []) ->
    exists w2,
      fsPathDelete (S depth) w1 path = (Some true, w2)
      /\ forall q, lookup (w_fs w2) q = lookup (w_fs w) q.
Proof.
  intros depth w w1 path names Hp Hdir Hnew Hmk Hempty. unfold node_at in Hp, Hempty.
  rewrite (fsCreateDir_fresh w path names Hp Hdir) in Hmk. injection Hmk as <-.
  eexists. rewrite (delete_empty_directory _ _ _ Hempty).
  split; [reflexivity|].
  assert (Hne : fst (parent_of path) <> canon path) by congruence.
  intros q. unfold unlink_node. cbn [w_fs set_fs].
  destruct (parent_of path) as [dir base]. cbn [fst snd] in *.
  rewrite (lookup_remove_key_other _ (canon path) dir Hne).
  rewrite (lookup_update_other _ (canon path) _ dir Hne).
  rewrite lookup_update_same. cbn [w_fs set_fs].
  rewrite (filter_out_last base names Hnew).
  destruct (string_dec q dir) as [->|Hqd].
  - now rewrite lookup_update_same.
  - rewrite lookup_update_other by exact Hqd.
    destruct (string_dec q (canon path)) as [->|Hqp].
    + now rewrite lookup_remove_key_same.
    + rewrite lookup_remove_key_other by exact Hqp.
      now rewrite !lookup_update_other.
Qed.

Lemma create_then_delete_restores_the_tree_witness :
  exists w2,
    fsPathDelete 1 (snd (fsCreateDir (plain_sample []) "/d/new")) "/d/new"
    = (Some true, w2)
    /\ forall q, lookup (w_fs w2) q = lookup (w_fs (plain_sample [])) q.
Proof.
  apply (create_then_delete_restores_the_tree 0 (plain_sample [])
           (snd (fsCreateDir (plain_sample []) "/d/new")) "/d/new"
           ["b.txt"; "A"]%string).
  - reflexivity.
  - reflexivity.
  - cbn. intros [H | [H | H]]; try discriminate H. exact H.
  - reflexivity.
  - reflexivity.
Defined.

(** ** fsPathRename *)

Lemma rename_fails w path dest :
  fst (rename w path dest) <> 0 -> w_fs (snd (rename w path dest)) = w_fs w.
Proof.
  unfold rename.
  destruct (lookup (w_fs w) (canon path)) as [n|]; [|reflexivity].
  destruct (lookup (w_fs w) (canon dest)) as [m|]; [reflexivity|].
  destruct (String.prefix _ _); [reflexivity|].
  destruct (parent_of path) as [sdir sbase], (parent_of dest) as [ddir dbase].
  destruct (lookup (w_fs w) ddir) as [[d|names]|]; try reflexivity.
  cbn [fst]. intros H. now destruct H.
Qed.

Lemma rename_zero w path dest :
  fst (rename w path dest) = 0 -> lookup (w_fs w) (canon path) <> None.
Proof.
  unfold rename.
  destruct (lookup (w_fs w) (canon path)) as [n|]; [discriminate | discriminate].
Qed.

(** X28.  The guards of a rename.  The self-containment guard comes first
    and looks at the two strings only: whenever [dest] contains
    [path + "/"], at any position, fsPathRename returns false with errno
    ENOTSUP and changes nothing else, whether [path] is a directory, a
    regular file or names nothing, and also when [dest] exists.  It
    returns true only if [dest] does not contain [path + "/"], named
    nothing, and [path] named something; and when it returns false the
    tree is as it was. *)
Theorem fsPathRename_guards :
  forall (w : World) (path dest : string),
    (contains (path ++ "/") dest ->
     fsPathRename w path dest = (false, set_errno ENOTSUP w))
    /\ (fst (fsPathRename w path dest) = true ->
        ~ contains (path ++ "/") dest
        /\ node_at w dest = None /\ node_at w path <> None)
    /\ (fst (fsPathRename w path dest) = false ->
        w_fs (snd (fsPathRename w path dest)) = w_fs w).
Proof.
  intros w path dest. unfold fsPathRename, node_at.
  pose proof (find_spec (path ++ "/") dest) as Hfind.
  destruct (is_npos (find (path ++ "/") dest)); cbn [negb].
  2:{ split; [reflexivity|]. split; [discriminate | reflexivity]. }
  split; [intros H; apply Hfind in H; discriminate|].
  assert (Hno : ~ contains (path ++ "/") dest)
    by (intros H; apply Hfind in H; discriminate).
  destruct (fsExists w dest) as [[|] w1] eqn:E.
  - split; [discriminate|]. intros _.
    destruct (fsExists_spec w dest) as [_ Hfs]. now rewrite E in Hfs.
  - apply fsExists_false in E as [Hdest Hfs1].
    pose proof (rename_fails w1 path dest) as Hf.
    pose proof (rename_zero w1 path dest) as Hz.
    destruct (rename w1 path dest) as [rc w2]. cbn [fst snd] in *.
    destruct (Z.eqb_spec rc 0) as [->|Hrc].
    + split; [|discriminate]. intros _.
      split; [exact Hno|]. split; [exact Hdest|].
      rewrite <- Hfs1. now apply Hz.
    + split; [discriminate|]. intros _. rewrite Hf by exact Hrc. exact Hfs1.
Qed.

Lemma fsPathRename_guards_witness :
  fsPathRename (sample []) "/f.bin" "/d/f.bin/x"
  = (false, set_errno ENOTSUP (sample [])).
Proof.
  apply (proj1 (fsPathRename_guards (sample []) "/f.bin" "/d/f.bin/x")).
  exists "/d"%string, "x"%string. reflexivity.
Defined.

(** ** fsGetFreeSpace *)

(** X29.  The free space is exact.  Both fields are 32 bits wide and are
    widened before they are multiplied, so the product never wraps: on
    success the result is cluster size times free clusters, and it is 0
    when the query fails. *)
Theorem fsGetFreeSpace_is_exact :
  forall (res : Z) (resource : FS_ArchiveResource),
    0 <= clusterSize resource < 2 ^ 32 ->
    0 <= freeClusters resource < 2 ^ 32 ->
    fsGetFreeSpace (res, resource)
    = (if res =? 0 then clusterSize resource * freeClusters resource else 0)
    /\ 0 <= fsGetFreeSpace (res, resource) < 2 ^ 64.
Proof.
  intros res r Hc Hf. unfold fsGetFreeSpace.
  destruct (res =? 0); cbn [negb]; [|split; [reflexivity | lia]].
  rewrite (u64_small (clusterSize r)), (u64_small (freeClusters r)) by lia.
  assert (Hp : 0 <= clusterSize r * freeClusters r < 2 ^ 64) by nia.
  rewrite u64_small by exact Hp. now split.
Qed.

Lemma fsGetFreeSpace_is_exact_witness :
  fsGetFreeSpace (0, {| clusterSize := 32768; freeClusters := 4294967295 |})
  = 32768 * 4294967295.
Proof.
  apply (proj1 (fsGetFreeSpace_is_exact 0
                  {| clusterSize := 32768; freeClusters := 4294967295 |}
                  ltac:(cbn; lia) ltac:(cbn; lia))).
Defined.

(** ** fsShowProgress *)

Lemma fsShowProgress_prev w op path pos total :
  w_prevProgress (snd (fsShowProgress w op path pos total))
  = u32 (u64 (pos * 100) / total).
Proof.
  unfold fsShowProgress, hid_poll_pressed_B. cbv zeta.
  generalize (u32 (u64 (pos * 100) / total)). intros progress.
  destruct w as [fs free heap errno junk prev pad screen calls opens].
  cbn [w_prevProgress w_pad set_calls].
  destruct (Z.eqb_spec prev progress) as [->|Hne]; cbn [negb];
    destruct pad; reflexivity.
Qed.

Lemma fsShowProgress_quiet w op path pos total :
  w_prevProgress w = u32 (u64 (pos * 100) / total) ->
  w_screen (snd (fsShowProgress w op path pos total)) = w_screen w.
Proof.
  unfold fsShowProgress, hid_poll_pressed_B. cbv zeta.
  generalize (u32 (u64 (pos * 100) / total)). intros progress.
  destruct w as [fs free heap errno junk prev pad screen calls opens].
  cbn [w_prevProgress w_pad set_calls]. intros ->.
  rewrite Z.eqb_refl. cbn [negb]. destruct pad; reflexivity.
Qed.

(** X30.  A percentage is displayed once.  When a call of fsShowProgress
    follows one that computed the same percentage, it displays nothing,
    also for another operation and another path. *)
Theorem same_percentage_is_not_displayed_again :
  forall (w : World) (op path op' path' : string) (pos total pos' total' : Z),
    u32 (u64 (pos' * 100) / total') = u32 (u64 (pos * 100) / total) ->
    w_screen (snd (fsShowProgress (snd (fsShowProgress w op path pos total))
                     op' path' pos' total'))
    = w_screen (snd (fsShowProgress w op path pos total)).
Proof.
  intros w op path op' path' pos total pos' total' H.
  apply fsShowProgress_quiet. now rewrite fsShowProgress_prev.
Qed.

Lemma same_percentage_is_not_displayed_again_witness :
  w_screen (snd (fsShowProgress (snd (fsShowProgress (sample []) "Copying" "/a" 0 1))
                   "Generating" "/b" 1 200))
  = w_screen (snd (fsShowProgress (sample []) "Copying" "/a" 0 1)).
Proof.
  apply (same_percentage_is_not_displayed_again (sample []) "Copying" "/a"
           "Generating" "/b" 0 1 1 200).
  reflexivity.
Defined.
